(** * EthersService: a shallow embedding of the blockchain access layer

    The development follows the [EthersService] class of
    [src/services/ethersService.ts], in its current revision and, where
    the two differ, in the earlier one: JavaScript values and exceptions,
    the error normaliser, the value serialisers, provider and signer
    resolution, the contract call shapes, the plain sends, the token
    operations, the log queries, and the fixed-point amount conversion the
    service delegates to the ethers library. *)

From Stdlib Require Import String Ascii List ZArith NArith Lia Bool.
Import ListNotations.
Local Open Scope list_scope.
Local Open Scope string_scope.

Set Implicit Arguments.
Set Warnings "-register-all".


(* ===================================================================== *)
(** * Decimal text of arbitrary-precision integers *)
(* ===================================================================== *)

Module Dec.

Definition digit_char (n : N) : ascii := ascii_of_N (48 + n).

Definition is_digit (c : ascii) : bool :=
  let n := N_of_ascii c in ((48 <=? n) && (n <=? 57))%N.

Definition digit_val (c : ascii) : N := N_of_ascii c - 48.

(** Most significant digit first; [fuel] bounds the number of digits. *)
Fixpoint digits_fuel (fuel : nat) (n : N) (acc : list ascii) : list ascii :=
  match fuel with
  | O => acc
  | S f =>
      let acc' := digit_char (n mod 10) :: acc in
      if (n <? 10)%N then acc' else digits_fuel f (n / 10) acc'
  end.

Definition digits_of_N (n : N) : list ascii :=
  digits_fuel (S (N.to_nat (N.log2 n))) n [].

(** [BigInt.prototype.toString()] *)
Definition of_Z (z : Z) : string :=
  match z with
  | Z0 => "0"
  | Zpos p => string_of_list_ascii (digits_of_N (Npos p))
  | Zneg p => String "-" (string_of_list_ascii (digits_of_N (Npos p)))
  end.

(** Positional value of a digit sequence, as [BigInt(text)] reads it. *)
Definition value (s : list ascii) : N :=
  fold_left (fun acc c => (acc * 10 + digit_val c)%N) s 0%N.

Definition all_digits (s : list ascii) : bool := forallb is_digit s.

(** The integer a decimal text denotes: [BigInt(text)]. *)
Definition read (s : string) : Z :=
  match list_ascii_of_string s with
  | c :: r =>
      if Ascii.eqb c "-" then (- Z.of_N (value r))%Z else Z.of_N (value (c :: r))
  | [] => 0%Z
  end.

End Dec.


(* ===================================================================== *)
(** * JavaScript values, exceptions and outcomes *)
(* ===================================================================== *)

Record ZodIssue := { issue_message : string }.

(** An [Error] instance: [err_code] is [Some _] exactly when
    ['code' in error]; [err_token] marks instances of [TokenError]. *)
Record JSError := {
  err_name : string;
  err_message : string;
  err_code : option string;
  err_token : bool
}.

Definition mkError (message : string) : JSError :=
  {| err_name := "Error"; err_message := message; err_code := None; err_token := false |}.

Definition mkTypeError (message : string) : JSError :=
  {| err_name := "TypeError"; err_message := message; err_code := None; err_token := false |}.

(** Anything a [catch (error)] clause can receive, over the values [V]:
    a [ZodError], another [Error], or any other thrown value. *)
Inductive ThrownOf (V : Type) : Type :=
| ThrownZod (issues : list ZodIssue)
| ThrownError (e : JSError)
| ThrownValue (v : V).
Arguments ThrownZod {V} issues.
Arguments ThrownError {V} e.
Arguments ThrownValue {V} v.

(** The [toJSON] method of an object, told by what calling it does: it
    returns a value or throws, and what it throws is any throwable.
    [ToJSONReturns] and [ToJSONThrows] are a method found on the
    prototype chain (a class method: [Object.entries] does not list it);
    [OwnToJSONReturns] and [OwnToJSONThrows] are a function held in an
    own enumerable property [toJSON], which [Object.entries] lists and a
    copy of the entries carries over.  A method is told by its outcome
    alone, whatever the receiver. *)
Inductive ToJSON (V : Type) : Type :=
| NoToJSON
| ToJSONReturns (v : V)
| ToJSONThrows (error : ThrownOf V)
| OwnToJSONReturns (v : V)
| OwnToJSONThrows (error : ThrownOf V).
Arguments NoToJSON {V}.
Arguments ToJSONReturns {V} v.
Arguments ToJSONThrows {V} error.
Arguments OwnToJSONReturns {V} v.
Arguments OwnToJSONThrows {V} error.

(** The method as [Object.entries] sees it: only an own one is listed. *)
Definition own_toJSON {V : Type} (tj : ToJSON V) : ToJSON V :=
  match tj with
  | OwnToJSONReturns v => OwnToJSONReturns v
  | OwnToJSONThrows e => OwnToJSONThrows e
  | NoToJSON | ToJSONReturns _ | ToJSONThrows _ => NoToJSON
  end.

(** The value a call of the method returns, when it returns. *)
Definition toJSON_result {V : Type} (tj : ToJSON V) : option V :=
  match tj with
  | ToJSONReturns v | OwnToJSONReturns v => Some v
  | NoToJSON | ToJSONThrows _ | OwnToJSONThrows _ => None
  end.

(** Finite JavaScript values.  A [JNumber] is an integer-valued number in
    the range where [String(n)] is plain decimal text; objects list their
    own enumerable string-keyed properties in [Object.entries] order, the
    [toJSON] method apart, which the descriptor holds. *)
Inductive JSValue : Type :=
| JUndefined
| JNull
| JBool (b : bool)
| JNumber (n : Z)
| JBigInt (z : Z)
| JString (s : string)
| JArray (items : list JSValue)
| JObject (toJSON : ToJSON JSValue) (props : list (string * JSValue)).

Definition Thrown : Type := ThrownOf JSValue.

Inductive Outcome (A : Type) : Type :=
| Return (a : A)
| Throw (e : Thrown).
Arguments Return {A} a.
Arguments Throw {A} e.

Definition obind {A B} (o : Outcome A) (k : A -> Outcome B) : Outcome B :=
  match o with
  | Return a => k a
  | Throw e => Throw e
  end.

Section Omap.
Context {A B : Type}.
Variable f : A -> Outcome B.

(** [array.map(f)] where [f] may throw: the first exception aborts. *)
Fixpoint omap (l : list A) : Outcome (list B) :=
  match l with
  | [] => Return []
  | x :: r =>
      match f x with
      | Throw e => Throw e
      | Return y =>
          match omap r with
          | Throw e => Throw e
          | Return ys => Return (y :: ys)
          end
      end
  end.
End Omap.

(** ** Structural induction on values *)

Section JSValue_induction.
Variable P : JSValue -> Prop.
Hypothesis Hundef : P JUndefined.
Hypothesis Hnull : P JNull.
Hypothesis Hbool : forall b, P (JBool b).
Hypothesis Hnum : forall n, P (JNumber n).
Hypothesis Hbig : forall z, P (JBigInt z).
Hypothesis Hstr : forall s, P (JString s).
Hypothesis Harr : forall items, Forall P items -> P (JArray items).
Hypothesis Hobj : forall tj props,
    (forall r, toJSON_result tj = Some r -> P r) ->
    Forall (fun kv => P (snd kv)) props ->
    P (JObject tj props).

Fixpoint JSValue_deep_ind (v : JSValue) : P v :=
  match v with
  | JUndefined => Hundef
  | JNull => Hnull
  | JBool b => Hbool b
  | JNumber n => Hnum n
  | JBigInt z => Hbig z
  | JString s => Hstr s
  | JArray items =>
      Harr ((fix go (l : list JSValue) : Forall P l :=
               match l with
               | [] => Forall_nil _
               | x :: r => Forall_cons _ (JSValue_deep_ind x) (go r)
               end) items)
  | JObject tj props =>
      @Hobj tj props
        (match tj as t return (forall r, toJSON_result t = Some r -> P r) with
         | ToJSONReturns r0 | OwnToJSONReturns r0 =>
             fun r (E : Some r0 = Some r) =>
               match E in (_ = o) return (match o with Some r' => P r' | None => True end)
               with eq_refl => JSValue_deep_ind r0 end
         | NoToJSON | ToJSONThrows _ | OwnToJSONThrows _ =>
             fun r (E : None = Some r) =>
               match E in (_ = o) return (match o with Some _ => P r | None => True end)
               with eq_refl => I end
         end)
        ((fix go (l : list (string * JSValue)) : Forall (fun kv => P (snd kv)) l :=
            match l with
            | [] => Forall_nil _
            | kv :: r => Forall_cons _ (JSValue_deep_ind (snd kv)) (go r)
            end) props)
  end.
End JSValue_induction.

(* ===================================================================== *)
(** * Built-ins of the language used by the service *)
(* ===================================================================== *)

Module JS.

(** ** Objects as ordered property lists *)

Fixpoint get (props : list (string * JSValue)) (key : string) : option JSValue :=
  match props with
  | [] => None
  | (k, v) :: r => if String.eqb k key then Some v else get r key
  end.

(** [obj[key] = v]: an existing key keeps its place, a new one goes last. *)
Fixpoint set (props : list (string * JSValue)) (key : string) (v : JSValue)
  : list (string * JSValue) :=
  match props with
  | [] => [(key, v)]
  | (k, w) :: r =>
      if String.eqb k key then (k, v) :: r else (k, w) :: set r key v
  end.

(** [{ ...base, ...extra }]: the properties of [extra] assigned in order. *)
Definition spread (base extra : list (string * JSValue)) : list (string * JSValue) :=
  fold_left (fun acc kv => set acc (fst kv) (snd kv)) extra base.

Definition Array_isArray (v : JSValue) : bool :=
  match v with JArray _ => true | _ => false end.

(** ** Coercions *)

(** [ToBoolean]; used by [!x], [x || y] and [if (x)]. *)
Definition truthy (v : JSValue) : bool :=
  match v with
  | JUndefined | JNull => false
  | JBool b => b
  | JNumber n => negb (Z.eqb n 0)
  | JBigInt z => negb (Z.eqb z 0)
  | JString s => negb (String.eqb s EmptyString)
  | JArray _ | JObject _ _ => true
  end.

(** [String(v)], with the default [toString] of arrays and objects. *)
Fixpoint String_ (v : JSValue) : string :=
  match v with
  | JUndefined => "undefined"
  | JNull => "null"
  | JBool true => "true"
  | JBool false => "false"
  | JNumber n => Dec.of_Z n
  | JBigInt z => Dec.of_Z z
  | JString s => s
  | JArray items =>
      String.concat ","
        (map (fun x => match x with
                       | JUndefined | JNull => EmptyString
                       | _ => String_ x
                       end) items)
  | JObject _ _ => "[object Object]"
  end.

(** [Array.prototype.join]: [null] and [undefined] elements are empty. *)
Definition join (sep : string) (items : list JSValue) : string :=
  String.concat sep
    (map (fun x => match x with
                   | JUndefined | JNull => EmptyString
                   | _ => String_ x
                   end) items).

(** [Error.prototype.toString] *)
Definition Error_toString (e : JSError) : string :=
  if String.eqb (err_name e) EmptyString then err_message e
  else if String.eqb (err_message e) EmptyString then err_name e
  else err_name e ++ ": " ++ err_message e.

(** ** JSON text *)

Definition hex_digit (n : N) : ascii :=
  if (n <? 10)%N then ascii_of_N (48 + n) else ascii_of_N (87 + n).

Definition quote_char (c : ascii) : string :=
  let n := N_of_ascii c in
  if (n =? 34)%N then String "\" (String c EmptyString)
  else if (n =? 92)%N then "\\"
  else if (n =? 8)%N then "\b"
  else if (n =? 9)%N then "\t"
  else if (n =? 10)%N then "\n"
  else if (n =? 12)%N then "\f"
  else if (n =? 13)%N then "\r"
  else if (n <? 32)%N then
    "\u00" ++ String (hex_digit (n / 16)) (String (hex_digit (n mod 16)) EmptyString)
  else String c EmptyString.

Fixpoint quote_body (s : string) : string :=
  match s with
  | EmptyString => EmptyString
  | String c r => quote_char c ++ quote_body r
  end.

(** [QuoteJSONString] *)
Definition quote (s : string) : string :=
  String (ascii_of_N 34) (quote_body s ++ String (ascii_of_N 34) EmptyString).

(** [SerializeJSONProperty]: the result is [None] where JSON.stringify
    yields [undefined].  [replacer] is on when the call passes
    [(_, v) => typeof v === 'bigint' ? v.toString() : v]; without it a
    [bigint] is a [TypeError].  [callToJSON] is off for the value a
    [toJSON] method has just returned. *)
Fixpoint stringify_prop (replacer callToJSON : bool) (v : JSValue)
  : Outcome (option string) :=
  match v with
  | JUndefined => Return None
  | JNull => Return (Some "null")
  | JBool true => Return (Some "true")
  | JBool false => Return (Some "false")
  | JNumber n => Return (Some (Dec.of_Z n))
  | JBigInt z =>
      if replacer then Return (Some (quote (Dec.of_Z z)))
      else Throw (ThrownError (mkTypeError "Do not know how to serialize a BigInt"))
  | JString s => Return (Some (quote s))
  | JArray items =>
      match
        (fix elems (l : list JSValue) : Outcome (list string) :=
           match l with
           | [] => Return []
           | x :: r =>
               match stringify_prop replacer true x with
               | Throw e => Throw e
               | Return o =>
                   match elems r with
                   | Throw e => Throw e
                   | Return ss =>
                       Return (match o with Some s => s | None => "null" end :: ss)
                   end
               end
           end) items
      with
      | Throw e => Throw e
      | Return ss => Return (Some ("[" ++ String.concat "," ss ++ "]"))
      end
  | JObject tj props =>
      let members :=
        (fix members (l : list (string * JSValue)) : Outcome (list string) :=
           match l with
           | [] => Return []
           | kv :: r =>
               match stringify_prop replacer true (snd kv) with
               | Throw e => Throw e
               | Return o =>
                   match members r with
                   | Throw e => Throw e
                   | Return ss =>
                       Return (match o with
                               | Some s => (quote (fst kv) ++ ":" ++ s) :: ss
                               | None => ss
                               end)
                   end
               end
           end) in
      let plain :=
        match members props with
        | Throw e => Throw e
        | Return ss => Return (Some ("{" ++ String.concat "," ss ++ "}"))
        end in
      match tj with
      | NoToJSON => plain
      | ToJSONThrows e | OwnToJSONThrows e =>
          if callToJSON then Throw e else plain
      | ToJSONReturns r | OwnToJSONReturns r =>
          if callToJSON then stringify_prop replacer false r else plain
      end
  end.

Definition stringify_result (o : Outcome (option string)) : Outcome JSValue :=
  match o with
  | Throw e => Throw e
  | Return None => Return JUndefined
  | Return (Some s) => Return (JString s)
  end.

(** [JSON.stringify(value, (_, v) => typeof v === 'bigint' ? v.toString() : v)] *)
Definition JSON_stringify_bigint (v : JSValue) : Outcome JSValue :=
  stringify_result (stringify_prop true true v).

(** [JSON.stringify(value)] *)
Definition JSON_stringify (v : JSValue) : Outcome JSValue :=
  stringify_result (stringify_prop false true v).

(** [a === b] on primitives (objects compare by identity, which the
    value model does not carry). *)
Definition strict_eq (a b : JSValue) : bool :=
  match a, b with
  | JUndefined, JUndefined => true
  | JNull, JNull => true
  | JBool x, JBool y => Bool.eqb x y
  | JNumber x, JNumber y => Z.eqb x y
  | JBigInt x, JBigInt y => Z.eqb x y
  | JString x, JString y => String.eqb x y
  | _, _ => false
  end.

Definition lower_char (c : ascii) : ascii :=
  let n := N_of_ascii c in
  if ((65 <=? n) && (n <=? 90))%N then ascii_of_N (n + 32) else c.

(** [String.prototype.toLowerCase] on ASCII text *)
Fixpoint toLowerCase (s : string) : string :=
  match s with
  | EmptyString => EmptyString
  | String c r => String (lower_char c) (toLowerCase r)
  end.

End JS.



(* ===================================================================== *)
(** * ErrorNormalizer: [serializeValue] and [handleProviderError] *)
(* ===================================================================== *)

(** [private serializeValue(value: any): string] *)
Fixpoint serializeValue (value : JSValue) : Outcome JSValue :=
  match value with
  | JUndefined => Return (JString "undefined")
  | JNull => Return (JString "null")
  | JBigInt z => Return (JString (Dec.of_Z z))
  | JArray items =>
      match omap serializeValue items with
      | Throw e => Throw e
      | Return parts => Return (JString ("[" ++ JS.join ", " parts ++ "]"))
      end
  | JObject tj props =>
      match tj with
      | ToJSONReturns r | OwnToJSONReturns r => Return r
      | ToJSONThrows e | OwnToJSONThrows e => Throw e
      | NoToJSON => JS.JSON_stringify_bigint (JObject tj props)
      end
  | JBool _ | JNumber _ | JString _ => Return (JString (JS.String_ value))
  end.

Definition address_hint : string :=
  ". Expected a valid Ethereum address (0x followed by 40 hexadecimal characters)".

(** [firstError?.message || 'Invalid input format'] *)
Definition first_issue_message (issues : list ZodIssue) : string :=
  match issues with
  | i :: _ =>
      if String.eqb (issue_message i) EmptyString then "Invalid input format"
      else issue_message i
  | [] => "Invalid input format"
  end.

(** [err.message || String(error)], rendered as the template literal does. *)
Definition error_message_of (error : Thrown) : Outcome string :=
  match error with
  | ThrownZod _ => Return "Invalid input format"
  | ThrownError e =>
      Return (if String.eqb (err_message e) EmptyString
              then JS.Error_toString e else err_message e)
  | ThrownValue JUndefined =>
      Throw (ThrownError (mkTypeError "Cannot read properties of undefined (reading 'message')"))
  | ThrownValue JNull =>
      Throw (ThrownError (mkTypeError "Cannot read properties of null (reading 'message')"))
  | ThrownValue (JObject tj props) =>
      match JS.get props "message" with
      | Some m => Return (JS.String_ (if JS.truthy m then m else JObject tj props))
      | None => Return (JS.String_ (JObject tj props))
      end
  | ThrownValue v => Return (JS.String_ v)
  end.

(** [Object.entries(details).map(([k, v]) => `${k}=${this.serializeValue(v)}`)] *)
Definition detail_entry (kv : string * JSValue) : Outcome string :=
  match serializeValue (snd kv) with
  | Throw e => Throw e
  | Return r => Return (fst kv ++ "=" ++ JS.String_ r)
  end.

Definition details_text (details : option (list (string * JSValue))) : Outcome string :=
  match details with
  | None => Return EmptyString
  | Some d =>
      match omap detail_entry d with
      | Throw e => Throw e
      | Return entries => Return (" Details: " ++ String.concat ", " entries)
      end
  end.

(** [private handleProviderError(error, context, details?): never] *)
Definition handleProviderError {A : Type}
    (error : Thrown) (context : string)
    (details : option (list (string * JSValue))) : Outcome A :=
  match error with
  | ThrownZod issues =>
      Throw (ThrownError (mkError
        ("Invalid input format: " ++ first_issue_message issues ++ address_hint)))
  | _ =>
      match error with
      | ThrownError {| err_message := m; err_code := Some _ |} =>
          Throw (ThrownError (mkError
            ("Failed to " ++ context ++ ": Provider error: " ++ m)))
      | _ =>
          match error_message_of error with
          | Throw e => Throw e
          | Return errorMessage =>
              match details_text details with
              | Throw e => Throw e
              | Return detailsStr =>
                  Throw (ThrownError (mkError
                    ("Failed to " ++ context ++ ": " ++ errorMessage ++ detailsStr)))
              end
          end
      end
  end.



(* ===================================================================== *)
(** * Result post-processing: [serializeEventArgs] *)
(* ===================================================================== *)

(** The keys the serialiser skips as internal ethers properties. *)
Definition skipped_key (key : string) : bool :=
  String.eqb key "_isBigNumber" || String.eqb key "type" || String.eqb key "hash".

(** [private serializeEventArgs(args: any): any]

    The copy starts from [{}] and is filled by [serialized[key] = ...]:
    under the key [__proto__] that assignment sets the prototype of the
    copy and adds no entry (the prototype is outside the value model);
    an own [toJSON] function is an entry like another and, being neither
    an object nor a bigint, is copied as it is. *)
Fixpoint serializeEventArgs (args : JSValue) : JSValue :=
  match args with
  | JNull | JUndefined => args
  | JBigInt z => JString (Dec.of_Z z)
  | JArray items => JArray (map serializeEventArgs items)
  | JObject tj props =>
      JObject (own_toJSON tj)
        ((fix entries (l : list (string * JSValue)) (serialized : list (string * JSValue))
            : list (string * JSValue) :=
            match l with
            | [] => serialized
            | kv :: r =>
                if String.eqb (fst kv) "length" && JS.Array_isArray (JObject tj props)
                then entries r serialized
                else if skipped_key (fst kv) then entries r serialized
                else if String.eqb (fst kv) "__proto__" then entries r serialized
                else entries r (JS.set serialized (fst kv) (serializeEventArgs (snd kv)))
            end) props [])
  | JBool _ | JNumber _ | JString _ => args
  end.


(* ===================================================================== *)
(** * Amount conversion: ethers [parseUnits] / [formatUnits] *)
(* ===================================================================== *)

(** The service's [parseUnits], [formatUnits], [parseEther] and
    [formatEther] forward to the ethers v6 functions of the same name,
    which go through [FixedNumber] with [{ decimals, width: 512 }].  The
    module follows that implementation on sequences of characters and
    integers; no other arithmetic occurs on the path. *)
Module Units.

(** An ethers error: an [Error] carrying a [code].  [message] is the
    reason the library gives.  The library goes on to append to it, in
    parentheses, the details of the fault and its own version; that suffix
    depends on the release installed and is left out, so what is stated of
    a library message is how it begins. *)
Definition ethers_error (code message : string) : Thrown :=
  ThrownError {| err_name := "Error"; err_message := message;
                 err_code := Some code; err_token := false |}.

Definition zero : ascii := "0"%char.
Definition dot : ascii := "."%char.
Definition minus : ascii := "-"%char.

(** [let Zeros = "0000"; while (Zeros.length < 80) { Zeros += Zeros; }] *)
Definition Zeros : list ascii := repeat zero 128.

Definition names : list string :=
  ["wei"; "kwei"; "mwei"; "gwei"; "szabo"; "finney"; "ether"].

(** [unit: string | number] *)
Inductive Unit := UnitName (name : string) | UnitDecimals (decimals : nat).

Fixpoint indexOf (name : string) (l : list string) (i : nat) : option nat :=
  match l with
  | [] => None
  | x :: r => if String.eqb x name then Some i else indexOf name r (S i)
  end.

Definition decimals_of (unit : Unit) : Outcome nat :=
  match unit with
  | UnitName name =>
      match indexOf name names 0 with
      | Some index => Return (3 * index)
      | None => Throw (ethers_error "INVALID_ARGUMENT" "invalid unit")
      end
  | UnitDecimals d => Return d
  end.

(** [getFormat({ decimals, width: 512 })]: signed, 512 bits wide. *)
Definition getFormat (decimals : nat) : Outcome nat :=
  if (decimals <=? 80)%nat then Return decimals
  else Throw (ethers_error "INVALID_ARGUMENT" "invalid FixedNumber decimals (too large)").

Definition limit : Z := 2 ^ 511.

(** The assertion of [checkValue(val, format, safeOp)] for a signed
    512-bit format.  [fromString] and [fromValue] call it for the check
    only and go on with [val] itself. *)
Definition checkValue (val : Z) : Outcome Z :=
  if ((- limit <=? val) && (val <? limit))%Z then Return val
  else Throw (ethers_error "NUMERIC_FAULT" "overflow").

(** *** [FixedNumber.fromString] *)

Fixpoint span_digits (s : list ascii) : list ascii * list ascii :=
  match s with
  | c :: r =>
      if Dec.is_digit c then let (d, t) := span_digits r in (c :: d, t)
      else ([], s)
  | [] => ([], [])
  end.

(** The match of [FixedNumber.fromString]: an optional minus sign, a run
    of digits (whole), an optional dot, a run of digits (decimal), then
    the end of the input. *)
Definition match_number (s : list ascii) : option (bool * list ascii * list ascii) :=
  let (negative, r0) :=
    match s with
    | c :: r => if Ascii.eqb c minus then (true, r) else (false, s)
    | [] => (false, s)
    end in
  let (whole, r1) := span_digits r0 in
  let r2 := match r1 with
            | c :: r => if Ascii.eqb c dot then r else r1
            | [] => r1
            end in
  let (decimal, r3) := span_digits r2 in
  match r3 with
  | [] => Some (negative, whole, decimal)
  | _ :: _ => None
  end.

(** [while (decimal.length < format.decimals) { decimal += Zeros; }] *)
Fixpoint pad_decimal (fuel decimals : nat) (decimal : list ascii) : list ascii :=
  if (length decimal <? decimals)%nat then
    match fuel with
    | S f => pad_decimal f decimals (decimal ++ Zeros)%list
    | O => decimal
    end
  else decimal.

(** [BigInt(sign + digits)] *)
Definition BigInt (negative : bool) (digits : list ascii) : Z :=
  if negative then (- Z.of_N (Dec.value digits))%Z else Z.of_N (Dec.value digits).

Definition fromString (value : list ascii) (decimals : nat) : Outcome Z :=
  match match_number value with
  | None => Throw (ethers_error "INVALID_ARGUMENT" "invalid FixedNumber string value")
  | Some (negative, whole0, decimal0) =>
      if (length whole0 + length decimal0 =? 0)%nat then
        Throw (ethers_error "INVALID_ARGUMENT" "invalid FixedNumber string value")
      else
        match getFormat decimals with
        | Throw e => Throw e
        | Return decimals =>
            let whole := match whole0 with [] => [zero] | _ => whole0 end in
            let decimal := pad_decimal decimals decimals decimal0 in
            if negb (forallb (Ascii.eqb zero) (skipn decimals decimal)) then
              Throw (ethers_error "NUMERIC_FAULT" "too many decimals for format")
            else
              let decimal := firstn decimals decimal in
              checkValue (BigInt negative (whole ++ decimal)%list)
        end
  end.

(** *** [toString(val, decimals)] of fixednumber.ts *)

(** [while (str.length <= decimals) { str = Zeros + str; }] *)
Fixpoint pad_whole (fuel decimals : nat) (str : list ascii) : list ascii :=
  if (length str <=? decimals)%nat then
    match fuel with
    | S f => pad_whole f decimals (Zeros ++ str)%list
    | O => str
    end
  else str.

(** [while (str[0] === "0" && str[1] !== ".") { str = str.substring(1); }] *)
Fixpoint trim_front (str : list ascii) : list ascii :=
  match str with
  | c :: rest =>
      if Ascii.eqb c zero
         && negb (match rest with c1 :: _ => Ascii.eqb c1 dot | [] => false end)
      then trim_front rest
      else str
  | [] => []
  end.

(** The same loop run from the end:
    [while (str[str.length - 1] === "0" && str[str.length - 2] !== ".")]. *)
Definition trim_back (str : list ascii) : list ascii :=
  rev (trim_front (rev str)).

Definition toString (val : Z) (decimals : nat) : list ascii :=
  let negative := if (val <? 0)%Z then [minus] else [] in
  let str := Dec.digits_of_N (Z.abs_N val) in
  if (decimals =? 0)%nat then (negative ++ str)%list
  else
    let str := pad_whole (S decimals) decimals str in
    let index := length str - decimals in
    let str := (firstn index str ++ dot :: skipn index str)%list in
    let str := trim_front str in
    let str := trim_back str in
    (negative ++ str)%list.

(** [FixedNumber.fromValue(value, decimals, { decimals, width: 512 }).toString()] *)
Definition fromValue_toString (value : Z) (decimals : nat) : Outcome (list ascii) :=
  match getFormat decimals with
  | Throw e => Throw e
  | Return decimals =>
      match checkValue value with
      | Throw e => Throw e
      | Return v => Return (toString v decimals)
      end
  end.

(** [ethers.parseUnits(value, unit)] *)
Definition parseUnits (value : string) (unit : Unit) : Outcome Z :=
  match decimals_of unit with
  | Throw e => Throw e
  | Return decimals => fromString (list_ascii_of_string value) decimals
  end.

(** [ethers.formatUnits(value, unit)] on a [bigint] *)
Definition formatUnits (value : Z) (unit : Unit) : Outcome string :=
  match decimals_of unit with
  | Throw e => Throw e
  | Return decimals =>
      match fromValue_toString value decimals with
      | Throw e => Throw e
      | Return s => Return (string_of_list_ascii s)
      end
  end.

Definition parseEther (ether : string) : Outcome Z := parseUnits ether (UnitDecimals 18).
Definition formatEther (wei : Z) : Outcome string := formatUnits wei (UnitDecimals 18).

End Units.

(* ===================================================================== *)
(** * Input validation *)
(* ===================================================================== *)

Definition is_hex (c : ascii) : bool :=
  let n := N_of_ascii c in
  (((48 <=? n) && (n <=? 57)) || ((65 <=? n) && (n <=? 70)) || ((97 <=? n) && (n <=? 102)))%N.

(** The pattern of [addressSchema]: [0x], then exactly 40 characters of
    [a-fA-F0-9], anchored at both ends of the input. *)
Definition address_pattern (s : string) : bool :=
  match list_ascii_of_string s with
  | c0 :: c1 :: rest =>
      Ascii.eqb c0 "0" && Ascii.eqb c1 "x"
      && (length rest =? 40)%nat && forallb is_hex rest
  | _ => false
  end.

(** [addressSchema.parse(address)] with zod's message for a failed pattern. *)
Definition addressSchema_parse (address : string) : Outcome string :=
  if address_pattern address then Return address
  else Throw (ThrownZod [{| issue_message := "Invalid" |}]).

(* ===================================================================== *)
(** * Effects: provider calls and warnings *)
(* ===================================================================== *)

Definition Props := list (string * JSValue).

Record Filter := {
  filter_address : option string;
  filter_topics : option (list JSValue);
  filter_fromBlock : option JSValue;
  filter_toBlock : option JSValue
}.

(** An [ethers.Log]; [log_event] holds [eventName] and [args] when the
    record is an [ethers.EventLog]. *)
Record Log := {
  log_address : string;
  log_blockNumber : option Z;
  log_transactionHash : string;
  log_index : Z;
  log_data : string;
  log_topics : list string;
  log_event : option (string * JSValue)
}.

(** Every method invoked on a provider, signer or contract that goes to
    the network, and every call into a token module. *)
Inductive Call : Type :=
| CallGetBalance (address : string)
| CallGetLogs (filter : Filter)
| CallStaticCall (address method : string) (args : list JSValue)
| CallSendTransaction (tx : Props)
| CallContractMethod (address method : string) (args : list JSValue) (overrides : Props)
| CallTokenModule (operation : string).

Record World := {
  calls : list Call;
  warnings : list string
}.

Definition initial_world : World := {| calls := []; warnings := [] |}.

Definition M (A : Type) : Type := World -> Outcome A * World.

Definition ret {A} (a : A) : M A := fun w => (Return a, w).

Definition raise {A} (e : Thrown) : M A := fun w => (Throw e, w).

Definition bind {A B} (m : M A) (k : A -> M B) : M B :=
  fun w =>
    match m w with
    | (Return a, w') => k a w'
    | (Throw e, w') => (Throw e, w')
    end.

Definition lift {A} (o : Outcome A) : M A := fun w => (o, w).

(** [try { m } catch (error) { h(error) }] *)
Definition try_catch {A} (m : M A) (h : Thrown -> M A) : M A :=
  fun w =>
    match m w with
    | (Return a, w') => (Return a, w')
    | (Throw e, w') => h e w'
    end.

(** A network call: it is recorded, then answers. *)
Definition call {A} (c : Call) (answer : Outcome A) : M A :=
  fun w => (answer, {| calls := (calls w ++ [c])%list; warnings := warnings w |}).

(** [console.warn(message)] *)
Definition warn (message : string) : M unit :=
  fun w => (Return tt, {| calls := calls w; warnings := (warnings w ++ [message])%list |}).

Declare Scope eff_scope.
Delimit Scope eff_scope with eff.
Notation "x <- m ;; k" := (bind m (fun x => k))
  (at level 61, m at next level, right associativity) : eff_scope.
Notation "m ;;; k" := (bind m (fun _ => k))
  (at level 61, right associativity) : eff_scope.
Local Open Scope eff_scope.

(* ===================================================================== *)
(** * The ethers library, as the service uses it *)
(* ===================================================================== *)

Record FunctionFragment := {
  fn_name : string;
  fn_constant : bool;
  fn_stateMutability : string
}.

Record EventFragment := {
  ev_name : string;
  ev_topicHash : string
}.

Record LogDescription := {
  ld_name : string;
  ld_args : JSValue
}.

(** The constructors and methods of ethers that the service calls.  The
    library is not part of the service: it is an interface here, and every
    result below holds for each implementation of it. *)
Record Ethers : Type := {
  Provider : Type;
  Signer : Type;
  Interface : Type;
  (** [new ethers.AlchemyProvider(network, apiKey)] *)
  AlchemyProvider : string -> option string -> Outcome Provider;
  (** [new ethers.JsonRpcProvider(url)] *)
  JsonRpcProvider : string -> Outcome Provider;
  (** [new ethers.InfuraProvider(network, projectId)] *)
  InfuraProvider : string -> string -> Outcome Provider;
  (** [(provider as any)._network?.chainId] *)
  network_chainId : Provider -> Outcome JSValue;
  (** [new ethers.Wallet(privateKey, provider)] and [signer.provider] *)
  Wallet : string -> Provider -> Outcome Signer;
  signer_provider : Signer -> option Provider;
  Wallet_provider :
    forall key p s, Wallet key p = Return s -> signer_provider s = Some p;
  (** [ethers.getAddress(address)] *)
  getAddress : string -> Outcome string;
  (** [JSON.parse(text)] *)
  JSON_parse : string -> Outcome JSValue;
  (** [new ethers.Contract(address, abi, runner).interface] *)
  Contract_interface : JSValue -> Outcome Interface;
  getFunction : Interface -> string -> Outcome (option FunctionFragment);
  getEvent : Interface -> string -> Outcome (option EventFragment);
  encodeFunctionData : Interface -> FunctionFragment -> list JSValue -> Outcome string;
  parseLog : Interface -> JSValue -> JSValue -> Outcome (option LogDescription);
  (** what the network answers *)
  rpc_getBalance : Provider -> string -> Outcome Z;
  rpc_getLogs : Provider -> Filter -> Outcome (list Log);
  rpc_staticCall : Provider -> string -> FunctionFragment -> list JSValue -> Outcome JSValue;
  rpc_sendTransaction : Signer -> Props -> Outcome JSValue;
  rpc_contractMethod : Signer -> string -> string -> list JSValue -> Props -> Outcome JSValue
}.

(** [process.env] *)
Record Env := {
  ALCHEMY_API_KEY : option string;
  INFURA_API_KEY : option string;
  PRIVATE_KEY : option string
}.

(** The instance fields of [EthersService]. *)
Record EthersService (E : Ethers) := {
  _provider : Provider E;
  _signer : option (Signer E)
}.
Arguments _provider {E} _.
Arguments _signer {E} _.

(** [abi: string | Array<string>] *)
Inductive Abi := AbiString (text : string) | AbiArray (fragments : list string).

Definition abi_value (abi : Abi) : JSValue :=
  match abi with
  | AbiString text => JString text
  | AbiArray fragments => JArray (map JString fragments)
  end.

(** The functions of [./erc/erc20] that the token operations of the
    service delegate to; they receive the service and the validated
    arguments. *)
Record Erc20Module (E : Ethers) := {
  erc20_getBalance :
    EthersService E -> string -> string -> option string -> option Z -> M string;
  erc20_transfer :
    EthersService E -> string -> string -> string -> option string -> option Z -> Props -> M JSValue
}.

(* ===================================================================== *)
(** * The service *)
(* ===================================================================== *)

Definition nl : string := String (ascii_of_N 10) EmptyString.

Definition networkToEthersMap : list (string * string) :=
  [ ("Ethereum", "mainnet");
    ("Polygon PoS", "matic");
    ("Arbitrum", "arbitrum");
    ("Arbitrum Nova", "arbitrum-nova");
    ("Optimism", "optimism");
    ("Avalanche C-Chain", "avalanche");
    ("Base", "base");
    ("BNB Smart Chain", "bnb");
    ("Linea", "linea");
    ("Polygon zkEVM", "polygon-zkevm") ].

Fixpoint lookup_name (m : list (string * string)) (key : string) : option string :=
  match m with
  | [] => None
  | (k, v) :: r => if String.eqb k key then Some v else lookup_name r key
  end.

(** [private getEthersNetworkName(network)]:
    [networkToEthersMap[network] || network.toLowerCase()], on the table's
    own keys. *)
Definition getEthersNetworkName (network : string) : string :=
  match lookup_name networkToEthersMap network with
  | Some name => name
  | None => JS.toLowerCase network
  end.

(** A line terminator, which [.] of a pattern does not match: LF, CR,
    U+2028 or U+2029 (in UTF-8). *)
Fixpoint has_line_terminator (s : list ascii) : bool :=
  match s with
  | [] => false
  | c :: r =>
      let n := N_of_ascii c in
      (n =? 10)%N || (n =? 13)%N
      || match r with
         | c1 :: c2 :: _ =>
             (n =? 226)%N && (N_of_ascii c1 =? 128)%N
             && ((N_of_ascii c2 =? 168)%N || (N_of_ascii c2 =? 169)%N)
         | _ => false
         end
      || has_line_terminator r
  end.

(** The pattern of [validateRpcUrl]: [http], an optional [s], [://], then
    at least one character and no line terminator up to the end. *)
Definition rpc_url_pattern (url : string) : bool :=
  let rest_ok (rest : string) :=
    negb (String.eqb rest EmptyString)
    && negb (has_line_terminator (list_ascii_of_string rest)) in
  (String.prefix "https://" url && rest_ok (String.substring 8 (String.length url - 8) url))
  || (String.prefix "http://" url && rest_ok (String.substring 7 (String.length url - 7) url)).

(** [private validateRpcUrl(url: string): void] *)
Definition validateRpcUrl (url : string) : Outcome unit :=
  if rpc_url_pattern url then Return tt
  else Throw (ThrownError (mkError
         ("Invalid RPC URL format: " ++ url
          ++ ". URL must start with http:// or https:// and include a valid domain."))).

(** [!x] for an optional string: [undefined] and the empty string. *)
Definition absent (x : option string) : bool :=
  match x with
  | None => true
  | Some s => String.eqb s EmptyString
  end.

Definition chain_mismatch_warning (chainId : Z) (providerChainId : JSValue) : string :=
  "Chain ID mismatch: specified " ++ Dec.of_Z chainId
  ++ " but provider network is " ++ JS.String_ providerChainId
  ++ ", using provider's chain ID".

Definition missing_private_key : string :=
  "Missing PRIVATE_KEY in environment variables. Either provide a signer in the constructor or set PRIVATE_KEY in environment variables.".

Definition option_value (o : option JSValue) : JSValue :=
  match o with Some v => v | None => JUndefined end.

(** [x || "any"] *)
Definition or_any (o : option JSValue) : JSValue :=
  match o with
  | Some v => if JS.truthy v then v else JString "any"
  | None => JString "any"
  end.

(** [formatEvent]'s result is a plain object. *)
Definition event_object (props : Props) : JSValue := JObject NoToJSON props.

Section Service.

Variable E : Ethers.
(** [DEFAULT_PROVIDERS] of [../config/networks.js] *)
Variable DEFAULT_PROVIDERS : list string.
Variable env : Env.
Variable erc20 : Erc20Module E.
Variable this : EthersService E.

Definition invalid_provider_message (provider : string) : string :=
  "Invalid provider: " ++ provider ++ ". Must be either:" ++ nl
  ++ "1. A supported network name (" ++ String.concat ", " DEFAULT_PROVIDERS ++ ")" ++ nl
  ++ "2. A valid RPC URL starting with http:// or https://".

(** The check both provider branches run on the fresh connection:
    [if (chainId) { const providerChainId = newProvider._network?.chainId;
    if (providerChainId && providerChainId !== chainId) console.warn(..) }] *)
Definition check_chainId (newProvider : Provider E) (chainId : option Z) : M unit :=
  match chainId with
  | None => ret tt
  | Some c =>
      if Z.eqb c 0 then ret tt
      else
        providerChainId <- lift (network_chainId E newProvider) ;;
        if JS.truthy providerChainId
           && negb (JS.strict_eq providerChainId (JNumber c))
        then warn (chain_mismatch_warning c providerChainId)
        else ret tt
  end.

(** [private getProvider(provider?: string, chainId?: number)] *)
Definition getProvider (provider : option string) (chainId : option Z)
  : M (Provider E) :=
  match provider with
  | None => ret (_provider this)
  | Some name =>
      if absent provider then ret (_provider this)
      else if existsb (String.eqb name) DEFAULT_PROVIDERS then
        try_catch
          (let networkName := getEthersNetworkName name in
           newProvider <- lift (AlchemyProvider E networkName (ALCHEMY_API_KEY env)) ;;
           check_chainId newProvider chainId ;;;
           ret newProvider)
          (fun error =>
             lift (handleProviderError error
                     ("create Alchemy provider for network " ++ name) None))
      else if String.prefix "http" name then
        try_catch
          (lift (validateRpcUrl name) ;;;
           newProvider <- lift (JsonRpcProvider E name) ;;
           check_chainId newProvider chainId ;;;
           ret newProvider)
          (fun error =>
             lift (handleProviderError error
                     ("create provider with RPC URL " ++ name) None))
      else raise (ThrownError (mkError (invalid_provider_message name)))
  end.

(** [private getSigner(provider?, chainId?, signerOverride?)] *)
Definition getSigner (provider : option string) (chainId : option Z)
    (signerOverride : option (Signer E)) : M (Signer E) :=
  match signerOverride with
  | Some s => ret s
  | None =>
      match _signer this with
      | Some s => ret s
      | None =>
          match PRIVATE_KEY env with
          | Some privateKey =>
              if String.eqb privateKey EmptyString
              then raise (ThrownError (mkError missing_private_key))
              else
                selectedProvider <- getProvider provider chainId ;;
                lift (Wallet E privateKey selectedProvider)
          | None => raise (ThrownError (mkError missing_private_key))
          end
      end
  end.

(** The [catch] clause of the token operations:
    [if (error instanceof TokenError) throw error; this.handleProviderError(..)] *)
Definition rethrow_token {A} (error : Thrown) (context : string)
    (details : Props) : M A :=
  match error with
  | ThrownError e =>
      if err_token e then raise error
      else lift (handleProviderError error context (Some details))
  | _ => lift (handleProviderError error context (Some details))
  end.

(** [async getBalance(address, provider?, chainId?)] *)
Definition getBalance (address : string) (provider : option string)
    (chainId : option Z) : M string :=
  try_catch
    (lift (addressSchema_parse address) ;;;
     selectedProvider <- getProvider provider chainId ;;
     balance <- call (CallGetBalance address) (rpc_getBalance E selectedProvider address) ;;
     lift (Units.formatEther balance))
    (fun error =>
       lift (handleProviderError error "fetch balance"
               (Some [("address", JString address)]))).

(** [async getERC20Balance(tokenAddress, ownerAddress, provider?, chainId?)].
    The class declares this method twice; the later declaration, which is
    the one in effect, is the one below. *)
Definition getERC20Balance (tokenAddress ownerAddress : string)
    (provider : option string) (chainId : option Z) : M string :=
  try_catch
    (lift (addressSchema_parse tokenAddress) ;;;
     lift (addressSchema_parse ownerAddress) ;;;
     erc20_getBalance erc20 this tokenAddress ownerAddress provider chainId)
    (fun error =>
       rethrow_token error "get ERC20 balance"
         [("tokenAddress", JString tokenAddress);
          ("ownerAddress", JString ownerAddress)]).

(** [async transferERC20(tokenAddress, recipientAddress, amount, provider?,
    chainId?, options = {})] *)
Definition transferERC20 (tokenAddress recipientAddress amount : string)
    (provider : option string) (chainId : option Z) (options : Props) : M JSValue :=
  try_catch
    (lift (addressSchema_parse tokenAddress) ;;;
     lift (addressSchema_parse recipientAddress) ;;;
     erc20_transfer erc20 this tokenAddress recipientAddress amount provider chainId options)
    (fun error =>
       rethrow_token error "transfer ERC20 tokens"
         [("tokenAddress", JString tokenAddress);
          ("recipientAddress", JString recipientAddress);
          ("amount", JString amount)]).

(** [typeof abi === 'string' ? abi : JSON.stringify(abi)] *)
Definition abi_detail (abi : Abi) : Outcome JSValue :=
  match abi with
  | AbiString text => Return (JString text)
  | AbiArray _ => JS.JSON_stringify (abi_value abi)
  end.

(** The ABI handed to [new ethers.Contract] by the read calls:
    a string goes through [JSON.parse] first. *)
Definition parse_abi (abi : Abi) : Outcome JSValue :=
  match abi with
  | AbiString text =>
      match JSON_parse E text with
      | Return parsed => Return parsed
      | Throw _ =>
          Throw (ThrownError (mkError
            ("Invalid ABI: " ++ text
             ++ ". The ABI must be a valid JSON string or array of strings")))
      end
  | AbiArray _ => Return (abi_value abi)
  end.

Definition is_readonly (fragment : FunctionFragment) : bool :=
  fn_constant fragment
  || String.eqb (fn_stateMutability fragment) "view"
  || String.eqb (fn_stateMutability fragment) "pure".

Definition method_not_found {A} (method : string) : M A :=
  raise (ThrownError (mkError ("Method " ++ method ++ " not found in contract ABI"))).

Definition wrong_call_kind {A} (method : string) : M A :=
  raise (ThrownError (mkError
    ("Use contractSendTransaction for state-changing function: " ++ method))).

Definition read_call_details (contractAddress : string) (abi : Abi)
    (args : list JSValue) : Outcome Props :=
  obind (abi_detail abi) (fun a =>
  obind (serializeValue (JArray args)) (fun s =>
  Return [("contractAddress", JString contractAddress); ("abi", a); ("args", s)])).

(** [async contractCall(contractAddress, abi, method, args = [], provider?, chainId?)] *)
Definition contractCall (contractAddress : string) (abi : Abi) (method : string)
    (args : list JSValue) (provider : option string) (chainId : option Z) : M JSValue :=
  try_catch
    (lift (addressSchema_parse contractAddress) ;;;
     selectedProvider <- getProvider provider chainId ;;
     parsedAbi <- lift (parse_abi abi) ;;
     contract <- lift (Contract_interface E parsedAbi) ;;
     fragment <- lift (getFunction E contract method) ;;
     match fragment with
     | None => method_not_found method
     | Some f =>
         if is_readonly f then
           result <- call (CallStaticCall contractAddress method args)
                          (rpc_staticCall E selectedProvider contractAddress f args) ;;
           ret (serializeEventArgs result)
         else wrong_call_kind method
     end)
    (fun error =>
       details <- lift (read_call_details contractAddress abi args) ;;
       lift (handleProviderError error ("call contract method: " ++ method)
               (Some details))).

(** [async contractCallView(contractAddress, abi, method, args = [], provider?, chainId?)] *)
Definition contractCallView (contractAddress : string) (abi : Abi) (method : string)
    (args : list JSValue) (provider : option string) (chainId : option Z) : M JSValue :=
  try_catch
    (lift (addressSchema_parse contractAddress) ;;;
     selectedProvider <- getProvider provider chainId ;;
     parsedAbi <- lift (parse_abi abi) ;;
     contract <- lift (Contract_interface E parsedAbi) ;;
     fragment <- lift (getFunction E contract method) ;;
     match fragment with
     | None => method_not_found method
     | Some f =>
         if negb (fn_constant f)
            && negb (String.eqb (fn_stateMutability f) "view")
            && negb (String.eqb (fn_stateMutability f) "pure")
         then wrong_call_kind method
         else
           result <- call (CallStaticCall contractAddress method args)
                          (rpc_staticCall E selectedProvider contractAddress f args) ;;
           ret (serializeEventArgs result)
     end)
    (fun error =>
       details <- lift (read_call_details contractAddress abi args) ;;
       lift (handleProviderError error ("call contract view method: " ++ method)
               (Some details))).

(** [{ ...overrides }] for an optional overrides object *)
Definition overrides_props (overrides : option Props) : Props :=
  match overrides with Some o => o | None => [] end.

Definition overrides_value (overrides : option Props) : JSValue :=
  match overrides with Some o => JObject NoToJSON o | None => JUndefined end.

Definition override_details (contractAddress abi : string) (args : list JSValue)
    (value : string) (overrides : option Props) : Outcome Props :=
  obind (JS.JSON_stringify (JString abi)) (fun a =>
  obind (serializeValue (JArray args)) (fun s =>
  obind (serializeValue (overrides_value overrides)) (fun o =>
  Return [("contractAddress", JString contractAddress); ("abi", a); ("args", s);
          ("value", JString value); ("overrides", o)]))).

(** [async contractCallWithOverrides(contractAddress, abi, method, args = [],
    value = "0", provider?, overrides?)] *)
Definition contractCallWithOverrides (contractAddress abi method : string)
    (args : list JSValue) (value : string) (provider : option string)
    (overrides : option Props) : M JSValue :=
  try_catch
    (lift (addressSchema_parse contractAddress) ;;;
     signer <- getSigner provider None None ;;
     contract <- lift (Contract_interface E (JString abi)) ;;
     parsedValue <- lift (Units.parseEther value) ;;
     fragment <- lift (getFunction E contract method) ;;
     match fragment with
     | None => method_not_found method
     | Some _ =>
         let txOverrides :=
           JS.set (JS.spread [] (overrides_props overrides)) "value" (JBigInt parsedValue) in
         call (CallContractMethod contractAddress method args txOverrides)
              (rpc_contractMethod E signer contractAddress method args txOverrides)
     end)
    (fun error =>
       details <- lift (override_details contractAddress abi args value overrides) ;;
       lift (handleProviderError error
               ("call contract method with overrides: " ++ method) (Some details))).

Definition send_details (contractAddress abi : string) (args : list JSValue)
    (value : string) : Outcome Props :=
  obind (JS.JSON_stringify (JString abi)) (fun a =>
  obind (JS.JSON_stringify (JArray args)) (fun s =>
  Return [("contractAddress", JString contractAddress); ("abi", a); ("args", s);
          ("value", JString value)])).

(** [async contractSendTransaction(contractAddress, abi, method, args = [],
    value = "0", provider?, overrides?)] *)
Definition contractSendTransaction (contractAddress abi method : string)
    (args : list JSValue) (value : string) (provider : option string)
    (overrides : option Props) : M JSValue :=
  try_catch
    (lift (addressSchema_parse contractAddress) ;;;
     signer <- getSigner provider None None ;;
     contract <- lift (Contract_interface E (JString abi)) ;;
     parsedValue <- lift (Units.parseEther value) ;;
     fragment <- lift (getFunction E contract method) ;;
     match fragment with
     | None => method_not_found method
     | Some f =>
         data <- lift (encodeFunctionData E contract f args) ;;
         let tx :=
           JS.spread [("to", JString contractAddress); ("data", JString data);
                      ("value", JBigInt parsedValue)]
                     (overrides_props overrides) in
         call (CallSendTransaction tx) (rpc_sendTransaction E signer tx)
     end)
    (fun error =>
       details <- lift (send_details contractAddress abi args value) ;;
       lift (handleProviderError error
               ("send transaction to contract method: " ++ method) (Some details))).

(** [async contractSendTransactionWithOverrides(contractAddress, abi, method,
    args, value = "0", provider?, overrides = {})] *)
Definition contractSendTransactionWithOverrides (contractAddress abi method : string)
    (args : list JSValue) (value : string) (provider : option string)
    (overrides : Props) : M JSValue :=
  try_catch
    (parsedAddress <- lift (addressSchema_parse contractAddress) ;;
     signer <- getSigner provider None None ;;
     contract <- lift (Contract_interface E (JString abi)) ;;
     parsedValue <- lift (Units.parseEther value) ;;
     fragment <- lift (getFunction E contract method) ;;
     match fragment with
     | None => method_not_found method
     | Some f =>
         let txOverrides :=
           JS.set (JS.spread [] overrides) "value" (JBigInt parsedValue) in
         lift (encodeFunctionData E contract f args) ;;;
         call (CallContractMethod parsedAddress method args txOverrides)
              (rpc_contractMethod E signer parsedAddress method args txOverrides)
     end)
    (fun error =>
       details <- lift (override_details contractAddress abi args value (Some overrides)) ;;
       lift (handleProviderError error
               ("send transaction to contract method with overrides: " ++ method)
               (Some details))).

(** [private formatEvent(log: ethers.EventLog | ethers.Log): any] *)
Definition formatEvent (log : Log) : JSValue :=
  event_object
    [ ("address", JString (log_address log));
      ("blockNumber", match log_blockNumber log with
                      | Some n => JString (Dec.of_Z n)
                      | None => JUndefined
                      end);
      ("transactionHash", JString (log_transactionHash log));
      ("logIndex", JNumber (log_index log));
      ("name", match log_event log with
               | Some (eventName, _) => JString eventName
               | None => JUndefined
               end);
      ("args", match log_event log with
               | Some (_, args) => serializeEventArgs args
               | None => JUndefined
               end);
      ("data", JString (log_data log));
      ("topics", JArray (map JString (log_topics log))) ].

Definition topics_detail (topics : option (list JSValue)) : Outcome JSValue :=
  match topics with
  | Some t => JS.JSON_stringify (JArray t)
  | None => Return (JString "any")
  end.

(** [async queryLogs(address?, topics?, fromBlock?, toBlock?, provider?, chainId?)] *)
Definition queryLogs (address : option string) (topics : option (list JSValue))
    (fromBlock toBlock : option JSValue) (provider : option string)
    (chainId : option Z) : M (list JSValue) :=
  try_catch
    (checksummedAddress <-
       (match address with
        | Some a =>
            if absent address then ret None
            else (c <- lift (getAddress E a) ;; ret (Some c))
        | None => ret None
        end) ;;
     selectedProvider <- getProvider provider chainId ;;
     let filter :=
       {| filter_address := checksummedAddress; filter_topics := topics;
          filter_fromBlock := fromBlock; filter_toBlock := toBlock |} in
     logs <- call (CallGetLogs filter) (rpc_getLogs E selectedProvider filter) ;;
     ret (map formatEvent logs))
    (fun error =>
       details <- lift (obind (topics_detail topics) (fun t =>
         Return [("address", JString (if absent address then "any"
                                      else match address with Some a => a | None => "any" end));
                 ("topics", t);
                 ("fromBlock", JString (JS.String_ (or_any fromBlock)));
                 ("toBlock", JString (JS.String_ (or_any toBlock)))])) ;;
       lift (handleProviderError error "query logs" (Some details))).

(** The callback of [logs.map] in [contractEvents]: decode one record,
    and hand it back as it is when [parseLog] throws.  The spread
    [{...log}] copies the own entries of the record, an own [toJSON]
    function among them. *)
Definition decode_log (contract : Interface E) (log : JSValue) : JSValue :=
  let props := match log with JObject _ p => p | _ => [] end in
  let method := match log with JObject tj _ => own_toJSON tj | _ => NoToJSON end in
  match parseLog E contract (option_value (JS.get props "topics"))
                            (option_value (JS.get props "data")) with
  | Return parsedLog =>
      JObject method
        (JS.set
           (JS.set (JS.spread [] props) "name"
              (match parsedLog with
               | Some d => JString (ld_name d)
               | None => JUndefined
               end))
           "args"
           (serializeEventArgs
              (match parsedLog with
               | Some d => ld_args d
               | None => JUndefined
               end)))
  | Throw _ => log
  end.

Definition events_details (contractAddress : string) (abi : Abi)
    (eventName : option string) (topics : option (list JSValue))
    (fromBlock toBlock : option JSValue) : Outcome Props :=
  obind (abi_detail abi) (fun a =>
  obind (match topics with
         | Some t => serializeValue (JArray t)
         | None => Return (JString "any")
         end) (fun t =>
  Return [("contractAddress", JString contractAddress); ("abi", a);
          ("eventName", JString (if absent eventName then "any"
                                 else match eventName with Some n => n | None => "any" end));
          ("topics", t);
          ("fromBlock", JString (JS.String_ (or_any fromBlock)));
          ("toBlock", JString (JS.String_ (or_any toBlock)))])).

(** [async contractEvents(contractAddress, abi, eventName?, topics?,
    fromBlock?, toBlock?, provider?, chainId?)].  Without an event name the
    [try] block returns the promise of [queryLogs] un-awaited, so that
    call runs outside the [catch] clause. *)
Definition contractEvents (contractAddress : string) (abi : Abi)
    (eventName : option string) (topics : option (list JSValue))
    (fromBlock toBlock : option JSValue) (provider : option string)
    (chainId : option Z) : M (list JSValue) :=
  r <- try_catch
    (checksummedAddress <- lift (getAddress E contractAddress) ;;
     selectedProvider <- getProvider provider chainId ;;
     contract <- lift (Contract_interface E (abi_value abi)) ;;
     match eventName with
     | Some name =>
         if absent eventName then ret (inl checksummedAddress)
         else
           fragment <- lift (getEvent E contract name) ;;
           match fragment with
           | None =>
               raise (ThrownError (mkError
                 ("Event " ++ name ++ " not found in contract ABI")))
           | Some f =>
               let topicHash := ev_topicHash f in
               let eventTopics :=
                 (JString topicHash ::
                    match topics with
                    | Some t => t
                    | None => []
                    end)%list in
               logs <- queryLogs (Some checksummedAddress) (Some eventTopics)
                                 fromBlock toBlock provider chainId ;;
               ret (inr (map (decode_log contract) logs))
           end
     | None => ret (inl checksummedAddress)
     end)
    (fun error =>
       details <- lift (events_details contractAddress abi eventName topics
                          fromBlock toBlock) ;;
       lift (handleProviderError error "query contract events" (Some details))) ;;
  match r with
  | inl checksummedAddress =>
      queryLogs (Some checksummedAddress) topics fromBlock toBlock provider chainId
  | inr events => ret events
  end.

End Service.

(* ===================================================================== *)
(** * The earlier revision of the service *)
(* ===================================================================== *)

(** The first [EthersService] built its default connections on Infura and
    kept its own list of supported networks. *)
Module Legacy.

Definition DEFAULT_PROVIDERS : list string :=
  ["mainnet"; "sepolia"; "goerli"; "arbitrum"; "optimism"; "base"; "polygon"].

(** [private serializeValue(value: any): string], before arrays got a
    branch of their own *)
Definition serializeValue (value : JSValue) : Outcome JSValue :=
  match value with
  | JUndefined => Return (JString "undefined")
  | JNull => Return (JString "null")
  | JBigInt z => Return (JString (Dec.of_Z z))
  | JArray _ | JObject _ _ => JS.JSON_stringify_bigint value
  | JBool _ | JNumber _ | JString _ => Return (JString (JS.String_ value))
  end.

Section Service.

Variable E : Ethers.
Variable env : Env.
Variable defaultProvider : Provider E.

(** [private getInfuraApiKey(): string] *)
Definition getInfuraApiKey : Outcome string :=
  match INFURA_API_KEY env with
  | Some key =>
      if String.eqb key EmptyString
      then Throw (ThrownError (mkError "Missing INFURA_API_KEY in environment variables."))
      else Return key
  | None => Throw (ThrownError (mkError "Missing INFURA_API_KEY in environment variables."))
  end.

(** [private createInfuraProvider(network)] *)
Definition createInfuraProvider (network : string) : Outcome (Provider E) :=
  match obind getInfuraApiKey (InfuraProvider E network) with
  | Return p => Return p
  | Throw error =>
      handleProviderError error ("create Infura provider for network " ++ network) None
  end.

(** [private getProvider(provider?: string)] *)
Definition getProvider (provider : option string) : Outcome (Provider E) :=
  match provider with
  | None => Return defaultProvider
  | Some name =>
      if absent provider then Return defaultProvider
      else if existsb (String.eqb name) DEFAULT_PROVIDERS then
        match createInfuraProvider name with
        | Return p => Return p
        | Throw error =>
            handleProviderError error ("create Infura provider for network " ++ name) None
        end
      else if String.prefix "http" name then
        match obind (validateRpcUrl name) (fun _ => JsonRpcProvider E name) with
        | Return p => Return p
        | Throw error =>
            handleProviderError error ("create provider with RPC URL " ++ name) None
        end
      else
        Throw (ThrownError (mkError
          ("Invalid provider: " ++ name ++ ". Must be either:" ++ nl
           ++ "1. A supported network name (" ++ String.concat ", " DEFAULT_PROVIDERS ++ ")" ++ nl
           ++ "2. A valid RPC URL starting with http:// or https://")))
  end.

End Service.

End Legacy.

(* ===================================================================== *)
(** * A network stub *)
(* ===================================================================== *)

(** A small implementation of the library interface, with fixed answers,
    on which the operations can be run. *)
Module Stub.

Record StubProvider := { sp_label : string; sp_chainId : JSValue }.

Definition preset : StubProvider :=
  {| sp_label := "http://localhost:8545"; sp_chainId := JUndefined |}.

(** Known network names and their chain ids.  A missing key is no
    error: the library falls back to its own shared key. *)
Definition alchemy (network : string) (apiKey : option string) : Outcome StubProvider :=
  if String.eqb network "mainnet" then
    Return {| sp_label := "alchemy:mainnet"; sp_chainId := JBigInt 1 |}
  else if String.eqb network "sepolia" then
    Return {| sp_label := "alchemy:sepolia"; sp_chainId := JBigInt 11155111 |}
  else Throw (Units.ethers_error "INVALID_ARGUMENT" "unsupported network").

Definition infura (network : string) (projectId : string) : Outcome StubProvider :=
  if String.eqb network "mainnet" then
    Return {| sp_label := "infura:mainnet"; sp_chainId := JBigInt 1 |}
  else Throw (Units.ethers_error "INVALID_ARGUMENT" "unsupported network").

Definition transfer_topic : string :=
  "0xddf252ad1be2c89b69c2b068fc378daa952ba7f163c4a11628f55a4df523b3ef".

Definition good_log : Log :=
  {| log_address := "0x00000000000000000000000000000000000000aa";
     log_blockNumber := Some 17%Z;
     log_transactionHash := "0x01";
     log_index := 0%Z;
     log_data := "0x05";
     log_topics := [transfer_topic];
     log_event := None |}.

Definition bad_log : Log :=
  {| log_address := "0x00000000000000000000000000000000000000aa";
     log_blockNumber := Some 18%Z;
     log_transactionHash := "0x02";
     log_index := 1%Z;
     log_data := "0xbad";
     log_topics := [transfer_topic];
     log_event := None |}.

Definition stub_function (name : string) : option FunctionFragment :=
  if String.eqb name "balanceOf" then
    Some {| fn_name := name; fn_constant := true; fn_stateMutability := "view" |}
  else if String.eqb name "deposit" then
    Some {| fn_name := name; fn_constant := false; fn_stateMutability := "payable" |}
  else None.

Definition stub_event (name : string) : option EventFragment :=
  if String.eqb name "Transfer" then
    Some {| ev_name := name; ev_topicHash := transfer_topic |}
  else None.

Definition stub_parseLog (topics data : JSValue) : Outcome (option LogDescription) :=
  if JS.strict_eq data (JString "0xbad") then
    Throw (Units.ethers_error "BUFFER_OVERRUN" "data out-of-bounds")
  else Return (Some {| ld_name := "Transfer"; ld_args := JArray [JBigInt 5] |}).

Definition ethers : Ethers :=
  {| Provider := StubProvider;
     Signer := string * StubProvider;
     Interface := unit;
     AlchemyProvider := alchemy;
     JsonRpcProvider := fun url => Return {| sp_label := url; sp_chainId := JUndefined |};
     InfuraProvider := infura;
     network_chainId := fun p => Return (sp_chainId p);
     Wallet := fun key p => Return (key, p);
     signer_provider := fun s => Some (snd s);
     Wallet_provider := fun key p s H =>
       match H in (_ = r)
             return (match r with
                     | Return s' => Some (snd s') = Some p
                     | Throw _ => True
                     end)
       with eq_refl => eq_refl end;
     getAddress := fun a =>
       if address_pattern a then Return a
       else Throw (Units.ethers_error "INVALID_ARGUMENT" "invalid address");
     JSON_parse := fun text => Return (JArray [JString text]);
     Contract_interface := fun _ => Return tt;
     getFunction := fun _ name => Return (stub_function name);
     getEvent := fun _ name => Return (stub_event name);
     encodeFunctionData := fun _ _ _ => Return "0xd0e30db0";
     parseLog := fun _ => stub_parseLog;
     rpc_getBalance := fun _ _ => Return (10 ^ 18)%Z;
     rpc_getLogs := fun _ _ => Return [good_log; bad_log];
     rpc_staticCall := fun _ _ _ _ => Return (JBigInt 7);
     rpc_sendTransaction := fun _ _ => Return (JObject NoToJSON [("nonce", JNumber 0)]);
     rpc_contractMethod := fun _ _ _ _ _ => Return (JObject NoToJSON [("nonce", JNumber 0)])
  |}.

Definition erc20 : Erc20Module ethers :=
  {| erc20_getBalance := fun _ _ _ _ _ =>
       call (CallTokenModule "erc20.getBalance") (Return "1.0");
     erc20_transfer := fun _ _ _ _ _ _ _ =>
       call (CallTokenModule "erc20.transfer") (Return (JObject NoToJSON [("nonce", JNumber 0)]))
  |}.

Definition providers : list string := ["mainnet"; "sepolia"; "polygon"].

Definition env_empty : Env :=
  {| ALCHEMY_API_KEY := None; INFURA_API_KEY := None; PRIVATE_KEY := None |}.

Definition env_full : Env :=
  {| ALCHEMY_API_KEY := Some "alchemy-key"; INFURA_API_KEY := Some "infura-key";
     PRIVATE_KEY := Some "0x0123456789012345678901234567890123456789012345678901234567890123" |}.

Definition service : EthersService ethers :=
  @Build_EthersService ethers preset None.

Definition address_a : string := "0x00000000000000000000000000000000000000aa".

End Stub.

(* ===================================================================== *)
(** * Vocabulary of the properties *)
(* ===================================================================== *)

(** Some [bigint] occurs in the value, at any depth. *)
Fixpoint has_bigint (v : JSValue) : bool :=
  match v with
  | JBigInt _ => true
  | JArray items => existsb has_bigint items
  | JObject _ props => existsb (fun kv => has_bigint (snd kv)) props
  | _ => false
  end.

(** Some object in the value, at any depth, has an entry whose key
    satisfies [p]. *)
Fixpoint has_key (p : string -> bool) (v : JSValue) : bool :=
  match v with
  | JArray items => existsb (has_key p) items
  | JObject _ props => existsb (fun kv => p (fst kv) || has_key p (snd kv)) props
  | _ => false
  end.

(** No object in the value, at any depth, holds a [toJSON] function as
    an own entry or has an entry keyed [__proto__]: a copy of its entries
    made by assignments has no [toJSON] method and the prototype of a new
    object. *)
Fixpoint entries_only (v : JSValue) : bool :=
  match v with
  | JArray items => forallb entries_only items
  | JObject tj props =>
      match own_toJSON tj with NoToJSON => true | _ => false end
      && forallb (fun kv => negb (String.eqb (fst kv) "__proto__")
                            && entries_only (snd kv)) props
  | _ => true
  end.

(** No object in the value, at any depth, has a [toJSON] method. *)
Fixpoint plain (v : JSValue) : bool :=
  match v with
  | JArray items => forallb plain items
  | JObject tj props =>
      match tj with NoToJSON => true | _ => false end
      && forallb (fun kv => plain (snd kv)) props
  | _ => true
  end.

(** The loop of [serializeEventArgs] over [Object.entries(args)], for a
    non-array [args]. *)
Fixpoint assign_entries (l serialized : Props) : Props :=
  match l with
  | [] => serialized
  | kv :: r =>
      if skipped_key (fst kv) then assign_entries r serialized
      else if String.eqb (fst kv) "__proto__" then assign_entries r serialized
      else assign_entries r (JS.set serialized (fst kv) (serializeEventArgs (snd kv)))
  end.

(** The calls of a run that reach a provider, signer or contract. *)
Definition network_calls (w : World) : list Call := calls w.

(** The value field of a transaction request or overrides object. *)
Definition value_field (tx : Props) : option JSValue := JS.get tx "value".

(** The transactions a run submitted: the request objects handed to
    [signer.sendTransaction] and the overrides handed to a contract method. *)
Fixpoint submitted (cs : list Call) : list Props :=
  match cs with
  | [] => []
  | CallSendTransaction tx :: r => tx :: submitted r
  | CallContractMethod _ _ _ overrides :: r => overrides :: submitted r
  | _ :: r => submitted r
  end.

Fixpoint log_fetches (cs : list Call) : list Filter :=
  match cs with
  | [] => []
  | CallGetLogs f :: r => f :: log_fetches r
  | _ :: r => log_fetches r
  end.

(** A validation failure, as [handleProviderError] reports it. *)
Definition is_validation_error {A} (o : Outcome A) : bool :=
  match o with
  | Throw (ThrownError e) => String.prefix "Invalid input format: " (err_message e)
  | _ => false
  end.

(** The amounts [formatUnits] can be asked to render. *)
Definition in_range (v : Z) : Prop := (- Units.limit <= v < Units.limit)%Z.

(** The properties of an object value. *)
Definition object_props (v : JSValue) : Props :=
  match v with JObject _ props => props | _ => [] end.

(** [log.args] of an [ethers.EventLog]; [undefined] on an [ethers.Log]. *)
Definition event_args (log : Log) : JSValue :=
  match log_event log with
  | Some (_, args) => args
  | None => JUndefined
  end.

(** The message of the first violation of a schema failure, if any. *)
Definition first_violation (issues : list ZodIssue) : string :=
  match issues with
  | i :: _ => issue_message i
  | [] => EmptyString
  end.

(** An [Error] instance with a [code] property. *)
Definition has_code (error : Thrown) : bool :=
  match error with
  | ThrownError e => match err_code e with Some _ => true | None => false end
  | _ => false
  end.

(** The thrown value is a schema failure: [error instanceof z.ZodError]. *)
Definition is_schema_failure (error : Thrown) : bool :=
  match error with
  | ThrownZod _ => true
  | _ => false
  end.

(** The details serialise, entry by entry, to the texts [k=v]. *)
Definition details_serialise (details : Props) (texts : list string) : Prop :=
  Forall2 (fun kv t => exists r, serializeValue (snd kv) = Return r
                                 /\ t = fst kv ++ "=" ++ JS.String_ r)
          details texts.

(** No detail holds an object with a [toJSON] method. *)
Definition details_plain (details : option Props) : bool :=
  match details with
  | Some d => forallb (fun kv => plain (snd kv)) d
  | None => true
  end.

(** What reading [.message] of [undefined] or [null] raises. *)
Definition no_message_of (what : string) : Thrown :=
  ThrownError (mkTypeError
    ("Cannot read properties of " ++ what ++ " (reading 'message')")).

(** The one error an operation raises for an address that does not match
    [addressSchema]. *)
Definition validation_failure : Thrown :=
  ThrownError (mkError ("Invalid input format: Invalid" ++ address_hint)).

(** [0x] followed by exactly 40 hexadecimal characters. *)
Definition well_formed_address (s : string) : Prop :=
  exists body,
    s = String "0" (String "x" body)
    /\ String.length body = 40
    /\ forallb is_hex (list_ascii_of_string body) = true.

(** [haystack.includes(needle)] *)
Definition includes (needle haystack : string) : bool :=
  match String.index 0 needle haystack with Some _ => true | None => false end.

(** The name is one of the supported networks, and not empty. *)
Definition supported (DEFAULT_PROVIDERS : list string) (name : string) : Prop :=
  existsb (String.eqb name) DEFAULT_PROVIDERS = true /\ name <> EmptyString.

(** A world with one more warning. *)
Definition warned (w : World) (message : string) : World :=
  {| calls := calls w; warnings := (warnings w ++ [message])%list |}.

(** The topic filter of a named event query: the topic hash of the event,
    then the caller's topics. *)
Definition event_topics (f : EventFragment) (topics : option (list JSValue)) : list JSValue :=
  (JString (ev_topicHash f) :: match topics with Some t => t | None => [] end)%list.

(** The record carries the decoded name and arguments. *)
Definition decoded_as (d : LogDescription) (event : JSValue) : Prop :=
  JS.get (object_props event) "name" = Some (JString (ld_name d))
  /\ JS.get (object_props event) "args" = Some (serializeEventArgs (ld_args d)).

(** [parseLog] applied to the topics and data of a formatted record. *)
Definition parse_record (E : Ethers) (contract : Interface E) (log : JSValue)
  : Outcome (option LogDescription) :=
  parseLog E contract (option_value (JS.get (object_props log) "topics"))
                      (option_value (JS.get (object_props log) "data")).

(** The sign [toString] writes in front of the digits. *)
Definition sign_of (negative : bool) : list ascii :=
  if negative then [Units.minus] else [].

(** [String(unit)] for [unit: string | number] *)
Definition unit_text (unit : Units.Unit) : string :=
  match unit with
  | Units.UnitName name => name
  | Units.UnitDecimals d => Dec.of_Z (Z.of_nat d)
  end.

(** [parseUnits(value: string, unit: string | number): bigint] of the service *)
Definition parseUnits (value : string) (unit : Units.Unit) : Outcome Z :=
  match Units.parseUnits value unit with
  | Return parsed => Return parsed
  | Throw error =>
      handleProviderError error "parse units"
        (Some [("value", JString value); ("unit", JString (unit_text unit))])
  end.

(** [formatUnits(value, unit): string] of the service, on a [bigint] *)
Definition formatUnits (value : Z) (unit : Units.Unit) : Outcome string :=
  match Units.formatUnits value unit with
  | Return text => Return text
  | Throw error =>
      handleProviderError error "format units"
        (Some [("value", JString (Dec.of_Z value)); ("unit", JString (unit_text unit))])
  end.

(** To minimal units and back. *)
Definition there_and_back (x : string) (unit : Units.Unit) : Outcome string :=
  obind (parseUnits x unit) (fun minimal => formatUnits minimal unit).

(* ===================================================================== *)
(** * Start-up: command line arguments *)
(* ===================================================================== *)

(** [s.split(sep)] for a one-character separator *)
Fixpoint split_on (sep : ascii) (s : string) : list string :=
  match s with
  | EmptyString => [EmptyString]
  | String c r =>
      if Ascii.eqb c sep then EmptyString :: split_on sep r
      else
        match split_on sep r with
        | piece :: pieces => String c piece :: pieces
        | [] => [String c EmptyString]
        end
  end.

(** [s.substring(n)] *)
Fixpoint substring_from (n : nat) (s : string) : string :=
  match n, s with
  | O, _ => s
  | S n', String _ r => substring_from n' r
  | S _, EmptyString => EmptyString
  end.

(** The callback of [args.forEach]: [argMap] is a [Map], kept in insertion
    order; a value is the text after the first [=], or [true]. *)
Definition read_argument (argMap : Props) (arg : string) : Props :=
  if String.prefix "--" arg then
    match split_on "=" (substring_from 2 arg) with
    | key :: value :: _ => JS.set argMap key (JString value)
    | key :: [] => JS.set argMap key (JBool true)
    | [] => argMap
    end
  else argMap.

Definition read_arguments (args : list string) : Props :=
  fold_left read_argument args [].

(** What the entry script does with the arguments before it starts the
    server: [DEFAULT_NETWORK] as it stands afterwards (the environment
    stores text), and whether the script prints the usage and exits. *)
Record Startup := {
  startup_network : option string;
  startup_help : bool
}.

Definition startup (DEFAULT_NETWORK : option string) (args : list string) : Startup :=
  let argMap := read_arguments args in
  {| startup_network :=
       match JS.get argMap "network" with
       | Some v => Some (JS.String_ v)
       | None => DEFAULT_NETWORK
       end;
     startup_help :=
       match JS.get argMap "help" with Some _ => true | None => false end |}.

(* ===================================================================== *)
(** * The list of supported networks *)
(* ===================================================================== *)

(** An entry of [networkList] ([../config/networkList.js]). *)
Record NetworkInfo := {
  ni_chainId : option Z;
  ni_currency : option string
}.

Record SupportedNetwork := {
  sn_name : string;
  sn_chainId : option Z;
  sn_isTestnet : bool;
  sn_currencyName : string;
  sn_currencySymbol : string;
  sn_decimals : Z;
  sn_isDefault : bool
}.

(** [x || fallback] for an optional text *)
Definition text_or (x : option string) (fallback : string) : string :=
  match x with
  | Some s => if String.eqb s EmptyString then fallback else s
  | None => fallback
  end.

Section SupportedNetworks.

Variable DEFAULT_PROVIDERS : list string.
Variable networkList : string -> option NetworkInfo.
(** [process.env.DEFAULT_NETWORK] *)
Variable DEFAULT_NETWORK : option string.

Definition describe_network (network : string) : SupportedNetwork :=
  let networkInfo := networkList network in
  let currency := match networkInfo with Some i => ni_currency i | None => None end in
  let lower := JS.toLowerCase network in
  {| sn_name := network;
     sn_chainId := match networkInfo with Some i => ni_chainId i | None => None end;
     sn_isTestnet := includes "testnet" lower || includes "goerli" lower
                     || includes "sepolia" lower;
     sn_currencyName := text_or currency "Native Token";
     sn_currencySymbol := text_or currency "NATIVE";
     sn_decimals := 18;
     sn_isDefault := String.eqb network (text_or DEFAULT_NETWORK "mainnet") |}.

(** [getSupportedNetworks()]; nothing in its [try] block raises. *)
Definition getSupportedNetworks : list SupportedNetwork :=
  map describe_network DEFAULT_PROVIDERS.

End SupportedNetworks.

(* ===================================================================== *)
(** * Plain sends *)
(* ===================================================================== *)

(** [toOrTx: string | ethers.TransactionRequest] *)
Inductive TxInput :=
| TxTo (to : string)
| TxRequest (tx : Props).

Definition tx_input_value (toOrTx : TxInput) : JSValue :=
  match toOrTx with
  | TxTo to => JString to
  | TxRequest tx => JObject NoToJSON tx
  end.

(** The type zod reports for a value that is not a string. *)
Definition zod_type (v : JSValue) : string :=
  match v with
  | JUndefined => "undefined"
  | JNull => "null"
  | JBool _ => "boolean"
  | JNumber _ => "number"
  | JBigInt _ => "bigint"
  | JString _ => "string"
  | JArray _ => "array"
  | JObject _ _ => "object"
  end.

(** [addressSchema.parse(value)] on any value *)
Definition addressSchema_parse_value (v : JSValue) : Outcome unit :=
  match v with
  | JString s => obind (addressSchema_parse s) (fun _ => Return tt)
  | _ => Throw (ThrownZod [{| issue_message := "Expected string, received " ++ zod_type v |}])
  end.

(** [value ? ethers.parseEther(value) : undefined] *)
Definition optional_amount (value : option string) : Outcome JSValue :=
  match value with
  | Some v =>
      if String.eqb v EmptyString then Return JUndefined
      else obind (Units.parseEther v) (fun parsed => Return (JBigInt parsed))
  | None => Return JUndefined
  end.

(** [gasPrice ? ethers.parseUnits(gasPrice, "gwei") : undefined] *)
Definition optional_gasPrice (gasPrice : option string) : Outcome JSValue :=
  match gasPrice with
  | Some g =>
      if String.eqb g EmptyString then Return JUndefined
      else obind (Units.parseUnits g (Units.UnitName "gwei"))
                 (fun parsed => Return (JBigInt parsed))
  | None => Return JUndefined
  end.

(** [data || "0x"] *)
Definition data_or_empty (data : option string) : string := text_or data "0x".

Definition optional_text (x : option string) : JSValue :=
  match x with Some s => JString s | None => JUndefined end.

Definition optional_number (x : option Z) : JSValue :=
  match x with Some n => JNumber n | None => JUndefined end.

(** [if (toOrTx.to) { addressSchema.parse(toOrTx.to); }] *)
Definition check_request_to (tx : Props) : Outcome unit :=
  match JS.get tx "to" with
  | Some to => if JS.truthy to then addressSchema_parse_value to else Return tt
  | None => Return tt
  end.

(** More of ethers: what the further operations call. *)
Record Transaction := {
  tx_chainId : Z;
  tx_fields : Props
}.

Record EthersMore (E : Ethers) : Type := {
  (** [ethers.getBigInt(text)] *)
  getBigInt : string -> Outcome Z;
  rpc_getTransaction : Provider E -> string -> Outcome (option Transaction);
  rpc_getTransactionCount : Provider E -> string -> Outcome Z;
  rpc_getCode : Provider E -> string -> Outcome string;
  rpc_lookupAddress : Provider E -> string -> Outcome (option string);
  rpc_estimateGas : Signer E -> Props -> Outcome Z;
  (** [signer.connect(provider)] and [signer.getAddress()] *)
  signer_connect : Signer E -> Provider E -> Outcome (Signer E);
  signer_getAddress : Signer E -> Outcome string
}.

Section Sends.

Variable E : Ethers.
Variable R : EthersMore E.
Variable DEFAULT_PROVIDERS : list string.
Variable env : Env.
Variable this : EthersService E.

(** [gasLimit ? ethers.getBigInt(gasLimit) : undefined] *)
Definition optional_gasLimit (gasLimit : option string) : Outcome JSValue :=
  match gasLimit with
  | Some g =>
      if String.eqb g EmptyString then Return JUndefined
      else obind (getBigInt R g) (fun parsed => Return (JBigInt parsed))
  | None => Return JUndefined
  end.

(** [async sendTransaction(toOrTx, value?, data?, provider?)] *)
Definition sendTransaction (toOrTx : TxInput) (value data provider : option string)
  : M JSValue :=
  try_catch
    (tx <- (match toOrTx with
            | TxTo to =>
                lift (addressSchema_parse to) ;;;
                parsedValue <- lift (optional_amount value) ;;
                ret [("to", JString to); ("value", parsedValue);
                     ("data", JString (data_or_empty data))]
            | TxRequest request =>
                lift (check_request_to request) ;;;
                ret request
            end) ;;
     signer <- getSigner DEFAULT_PROVIDERS env this provider None None ;;
     call (CallSendTransaction tx) (rpc_sendTransaction E signer tx))
    (fun error =>
       lift (handleProviderError error "send transaction"
               (Some [("tx", tx_input_value toOrTx)]))).

(** [async sendTransactionWithOptions(toOrTx, value?, data?, gasLimit?,
    gasPrice?, nonce?, provider?, chainId?, signerOverride?)] *)
Definition sendTransactionWithOptions (toOrTx : TxInput) (value data : option string)
    (gasLimit gasPrice : option string) (nonce : option Z)
    (provider : option string) (chainId : option Z)
    (signerOverride : option (Signer E)) : M JSValue :=
  try_catch
    (tx <- (match toOrTx with
            | TxTo to =>
                lift (addressSchema_parse to) ;;;
                parsedValue <- lift (optional_amount value) ;;
                limit <- lift (optional_gasLimit gasLimit) ;;
                price <- lift (optional_gasPrice gasPrice) ;;
                ret [("to", JString to); ("value", parsedValue);
                     ("data", JString (data_or_empty data));
                     ("gasLimit", limit); ("gasPrice", price);
                     ("nonce", optional_number nonce)]
            | TxRequest request =>
                lift (check_request_to request) ;;;
                limit <- lift (optional_gasLimit gasLimit) ;;
                price <- lift (optional_gasPrice gasPrice) ;;
                ret (JS.set (JS.set (JS.set (JS.spread [] request) "gasLimit" limit)
                                    "gasPrice" price)
                            "nonce" (optional_number nonce))
            end) ;;
     signer <- getSigner DEFAULT_PROVIDERS env this provider chainId signerOverride ;;
     call (CallSendTransaction tx) (rpc_sendTransaction E signer tx))
    (fun error =>
       lift (handleProviderError error "send transaction with options"
               (Some [("tx", tx_input_value toOrTx); ("value", optional_text value);
                      ("data", optional_text data); ("gasLimit", optional_text gasLimit);
                      ("gasPrice", optional_text gasPrice);
                      ("nonce", optional_number nonce)]))).

End Sends.

(* ===================================================================== *)
(** * Further operations, with their own requests *)
(* ===================================================================== *)

(** The operations below reach the network through methods the earlier
    ones do not use.  A request is one of the earlier calls or one of
    these. *)
Inductive Request : Type :=
| Earlier (c : Call)
| CallGetTransaction (txHash : string)
| CallGetTransactionCount (address : string)
| CallGetCode (address : string)
| CallLookupAddress (address : string)
| CallEstimateGas (tx : Props)
| CallSignerAddress
| CallPopulateTransaction (tx : Props)
| CallContractEstimateGas (address method : string) (args : list JSValue) (overrides : Props).

Record Journal := {
  requests : list Request;
  notes : list string
}.

Definition empty_journal : Journal := {| requests := []; notes := [] |}.

Definition M2 (A : Type) : Type := Journal -> Outcome A * Journal.

Definition ret2 {A} (a : A) : M2 A := fun j => (Return a, j).

Definition raise2 {A} (e : Thrown) : M2 A := fun j => (Throw e, j).

Definition bind2 {A B} (m : M2 A) (k : A -> M2 B) : M2 B :=
  fun j =>
    match m j with
    | (Return a, j') => k a j'
    | (Throw e, j') => (Throw e, j')
    end.

Definition lift2 {A} (o : Outcome A) : M2 A := fun j => (o, j).

Definition try_catch2 {A} (m : M2 A) (h : Thrown -> M2 A) : M2 A :=
  fun j =>
    match m j with
    | (Return a, j') => (Return a, j')
    | (Throw e, j') => h e j'
    end.

Definition call2 {A} (c : Request) (answer : Outcome A) : M2 A :=
  fun j => (answer, {| requests := (requests j ++ [c])%list; notes := notes j |}).

Definition warn2 (message : string) : M2 unit :=
  fun j => (Return tt, {| requests := requests j; notes := (notes j ++ [message])%list |}).

(** One of the earlier operations, run as a step of a later one: its
    calls and warnings go to the end of the journal, in their order. *)
Definition earlier {A} (m : M A) : M2 A :=
  fun j =>
    match m initial_world with
    | (o, w) =>
        (o, {| requests := (requests j ++ map Earlier (calls w))%list;
               notes := (notes j ++ warnings w)%list |})
    end.

Declare Scope eff2_scope.
Delimit Scope eff2_scope with eff2.
Notation "x <- m ;; k" := (bind2 m (fun x => k))
  (at level 61, m at next level, right associativity) : eff2_scope.
Notation "m ;;; k" := (bind2 m (fun _ => k))
  (at level 61, right associativity) : eff2_scope.

(** The pattern of [txSchema]: [0x], then exactly 64 characters of
    [a-fA-F0-9], anchored at both ends of the input. *)
Definition hash_pattern (s : string) : bool :=
  match list_ascii_of_string s with
  | c0 :: c1 :: rest =>
      Ascii.eqb c0 "0" && Ascii.eqb c1 "x"
      && (length rest =? 64)%nat && forallb is_hex rest
  | _ => false
  end.

(** [txSchema.parse(txHash)] *)
Definition txSchema_parse (txHash : string) : Outcome string :=
  if hash_pattern txHash then Return txHash
  else Throw (ThrownZod [{| issue_message := "Invalid" |}]).

(** [!chainId] for an optional number *)
Definition no_chainId (chainId : option Z) : bool :=
  match chainId with
  | Some c => Z.eqb c 0
  | None => true
  end.

Definition derive_warning : string :=
  "Could not derive chainId from transaction, using default provider".

Section Further.

Variable E : Ethers.
Variable R : EthersMore E.
Variable DEFAULT_PROVIDERS : list string.
Variable env : Env.
Variable this : EthersService E.

Local Open Scope eff2_scope.

(** [async getTransactionCount(address, provider?, chainId?)] *)
Definition getTransactionCount (address : string) (provider : option string)
    (chainId : option Z) : M2 Z :=
  try_catch2
    (lift2 (addressSchema_parse address) ;;;
     selectedProvider <- earlier (getProvider DEFAULT_PROVIDERS env this provider chainId) ;;
     call2 (CallGetTransactionCount address)
           (rpc_getTransactionCount R selectedProvider address))
    (fun error =>
       lift2 (handleProviderError error "fetch transaction count"
                (Some [("address", JString address)]))).

(** [async getContractCode(address, provider?, chainId?)] *)
Definition getContractCode (address : string) (provider : option string)
    (chainId : option Z) : M2 string :=
  try_catch2
    (lift2 (addressSchema_parse address) ;;;
     selectedProvider <- earlier (getProvider DEFAULT_PROVIDERS env this provider chainId) ;;
     call2 (CallGetCode address) (rpc_getCode R selectedProvider address))
    (fun error =>
       lift2 (handleProviderError error "get contract bytecode"
                (Some [("address", JString address)]))).

(** [async lookupAddress(address, provider?, chainId?)] *)
Definition lookupAddress (address : string) (provider : option string)
    (chainId : option Z) : M2 (option string) :=
  try_catch2
    (lift2 (addressSchema_parse address) ;;;
     selectedProvider <- earlier (getProvider DEFAULT_PROVIDERS env this provider chainId) ;;
     call2 (CallLookupAddress address) (rpc_lookupAddress R selectedProvider address))
    (fun error =>
       lift2 (handleProviderError error "look up ENS name for address"
                (Some [("address", JString address)]))).

(** [async getChainIdFromTransaction(txHash, provider?)]; [Number(..)] of
    the chain id is the chain id itself below 2^53. *)
Definition getChainIdFromTransaction (txHash : string) (provider : option string)
  : M2 Z :=
  try_catch2
    (lift2 (txSchema_parse txHash) ;;;
     selectedProvider <- earlier (getProvider DEFAULT_PROVIDERS env this provider None) ;;
     tx <- call2 (CallGetTransaction txHash)
                 (rpc_getTransaction R selectedProvider txHash) ;;
     match tx with
     | None => raise2 (ThrownError (mkError "Transaction not found"))
     | Some t => ret2 (tx_chainId t)
     end)
    (fun error =>
       lift2 (handleProviderError error "fetch transaction details"
                (Some [("txHash", JString txHash)]))).

(** [async getTransactionDetails(txHash, provider?, chainId?)] *)
Definition getTransactionDetails (txHash : string) (provider : option string)
    (chainId : option Z) : M2 (option Transaction) :=
  try_catch2
    (lift2 (txSchema_parse txHash) ;;;
     selectedProvider <- earlier (getProvider DEFAULT_PROVIDERS env this provider chainId) ;;
     selectedProvider <-
       (if absent provider && no_chainId chainId then
          try_catch2
            (derivedChainId <- getChainIdFromTransaction txHash None ;;
             earlier (getProvider DEFAULT_PROVIDERS env this provider (Some derivedChainId)))
            (fun _ => warn2 derive_warning ;;; ret2 selectedProvider)
        else ret2 selectedProvider) ;;
     call2 (CallGetTransaction txHash) (rpc_getTransaction R selectedProvider txHash))
    (fun error =>
       lift2 (handleProviderError error "fetch transaction details"
                (Some [("txHash", JString txHash)]))).

(** [async estimateGas(tx, provider?)] *)
Definition estimateGas (tx : Props) (provider : option string) : M2 Z :=
  try_catch2
    (signer <- earlier (getSigner DEFAULT_PROVIDERS env this provider None None) ;;
     call2 (CallEstimateGas tx) (rpc_estimateGas R signer tx))
    (fun error =>
       text <- lift2 (JS.JSON_stringify (JObject NoToJSON tx)) ;;
       lift2 (handleProviderError error "estimate gas" (Some [("tx", text)]))).

(** [async contractCallWithEstimate(contractAddress, abi, method, args = [],
    value = "0", provider?)] *)
Definition contractCallWithEstimate (contractAddress abi method : string)
    (args : list JSValue) (value : string) (provider : option string) : M2 JSValue :=
  try_catch2
    (lift2 (addressSchema_parse contractAddress) ;;;
     signer <- earlier (getSigner DEFAULT_PROVIDERS env this provider None None) ;;
     contract <- lift2 (Contract_interface E (JString abi)) ;;
     parsedValue <- lift2 (Units.parseEther value) ;;
     fragment <- lift2 (getFunction E contract method) ;;
     match fragment with
     | None =>
         raise2 (ThrownError (mkError ("Method " ++ method ++ " not found in contract ABI")))
     | Some f =>
         data <- lift2 (encodeFunctionData E contract f args) ;;
         let tx := [("to", JString contractAddress); ("data", JString data);
                    ("value", JBigInt parsedValue)] in
         estimatedGas <- call2 (CallEstimateGas tx) (rpc_estimateGas R signer tx) ;;
         earlier (contractSendTransaction DEFAULT_PROVIDERS env this
                    contractAddress abi method args value provider
                    (Some [("gasLimit", JBigInt estimatedGas)]))
     end)
    (fun error =>
       details <- lift2 (send_details contractAddress abi args value) ;;
       lift2 (handleProviderError error
                ("call contract method with estimate: " ++ method) (Some details))).

(** [async getWalletInfo(provider?)] *)
Definition getWalletInfo (provider : option string) : M2 (option string) :=
  try_catch2
    (match _signer this with
     | None => ret2 None
     | Some own =>
         selectedProvider <-
           (if absent provider then ret2 (_provider this)
            else earlier (getProvider DEFAULT_PROVIDERS env this provider None)) ;;
         signer <- lift2 (signer_connect R own selectedProvider) ;;
         address <- call2 CallSignerAddress (signer_getAddress R signer) ;;
         ret2 (Some address)
     end)
    (fun error => lift2 (handleProviderError error "get wallet info" None)).

End Further.

(* ===================================================================== *)
(** * The remaining signed operations *)
(* ===================================================================== *)

(** [signer.populateTransaction(tx)] and
    [contract.getFunction(method).estimateGas(...args, overrides)] *)
Record EthersSigned (E : Ethers) : Type := {
  rpc_populateTransaction : Signer E -> Props -> Outcome Props;
  rpc_contractEstimateGas :
    Signer E -> string -> string -> list JSValue -> Props -> Outcome Z
}.

Section Signed.

Variable E : Ethers.
Variable G : EthersSigned E.
Variable DEFAULT_PROVIDERS : list string.
Variable env : Env.
Variable this : EthersService E.

Local Open Scope eff2_scope.

(** [async createTransaction(to, value, data?, provider?)] *)
Definition createTransaction (to value : string) (data provider : option string)
  : M2 Props :=
  try_catch2
    (lift2 (addressSchema_parse to) ;;;
     parsedValue <- lift2 (Units.parseEther value) ;;
     let transaction :=
       [("to", JString to); ("value", JBigInt parsedValue);
        ("data", JString (data_or_empty data))] in
     signer <- earlier (getSigner DEFAULT_PROVIDERS env this provider None None) ;;
     call2 (CallPopulateTransaction transaction)
           (rpc_populateTransaction G signer transaction))
    (fun error =>
       lift2 (handleProviderError error "create transaction"
                (Some [("to", JString to); ("value", JString value)]))).

(** [async contractSendTransactionWithEstimate(contractAddress, abi, method,
    args, value = "0", provider?)] *)
Definition contractSendTransactionWithEstimate (contractAddress abi method : string)
    (args : list JSValue) (value : string) (provider : option string) : M2 JSValue :=
  try_catch2
    (parsedAddress <- lift2 (addressSchema_parse contractAddress) ;;
     signer <- earlier (getSigner DEFAULT_PROVIDERS env this provider None None) ;;
     contract <- lift2 (Contract_interface E (JString abi)) ;;
     parsedValue <- lift2 (Units.parseEther value) ;;
     fragment <- lift2 (getFunction E contract method) ;;
     match fragment with
     | None =>
         raise2 (ThrownError (mkError ("Method " ++ method ++ " not found in contract ABI")))
     | Some f =>
         lift2 (encodeFunctionData E contract f args) ;;;
         let estimateOverrides := [("value", JBigInt parsedValue)] in
         gasEstimate <- call2 (CallContractEstimateGas parsedAddress method args
                                 estimateOverrides)
                              (rpc_contractEstimateGas G signer parsedAddress method args
                                 estimateOverrides) ;;
         let sendOverrides :=
           [("value", JBigInt parsedValue); ("gasLimit", JBigInt gasEstimate)] in
         earlier (call (CallContractMethod parsedAddress method args sendOverrides)
                       (rpc_contractMethod E signer parsedAddress method args
                          sendOverrides))
     end)
    (fun error =>
       details <- lift2 (send_details contractAddress abi args value) ;;
       lift2 (handleProviderError error
                ("send transaction to contract method with estimate: " ++ method)
                (Some details))).

End Signed.

(* ===================================================================== *)
(** * The token operations *)
(* ===================================================================== *)

(** The functions of [./erc/erc20], [./erc/erc721] and [./erc/erc1155]
    behind the other token operations.  A token id is [string | number]. *)
Record TokenModules (E : Ethers) := {
  erc20_getTokenInfo :
    EthersService E -> string -> option string -> option Z -> M JSValue;
  erc20_getAllowance :
    EthersService E -> string -> string -> string -> option string -> option Z -> M string;
  erc20_approve :
    EthersService E -> string -> string -> string -> option string -> option Z -> Props
    -> M JSValue;
  erc20_transferFrom :
    EthersService E -> string -> string -> string -> string -> option string -> option Z
    -> Props -> M JSValue;
  erc721_getNFTInfo :
    EthersService E -> string -> option string -> option Z -> M JSValue;
  erc721_ownerOf :
    EthersService E -> string -> JSValue -> option string -> option Z -> M string;
  erc721_getMetadata :
    EthersService E -> string -> JSValue -> option string -> option Z -> M JSValue;
  erc721_getUserNFTs :
    EthersService E -> string -> string -> bool -> option string -> option Z
    -> M (list JSValue);
  erc721_transferNFT :
    EthersService E -> string -> string -> JSValue -> option string -> option Z -> Props
    -> M JSValue;
  erc721_safeTransferNFT :
    EthersService E -> string -> string -> JSValue -> string -> option string -> option Z
    -> Props -> M JSValue;
  erc1155_balanceOf :
    EthersService E -> string -> string -> JSValue -> option string -> option Z -> M string;
  erc1155_balanceOfBatch :
    EthersService E -> string -> list string -> list JSValue -> option string -> option Z
    -> M (list string);
  erc1155_getMetadata :
    EthersService E -> string -> JSValue -> option string -> option Z -> M JSValue;
  erc1155_getUserTokens :
    EthersService E -> string -> string -> option (list JSValue) -> bool
    -> option string -> option Z -> M (list JSValue);
  erc1155_safeTransferFrom :
    EthersService E -> string -> string -> string -> JSValue -> string -> string
    -> option string -> option Z -> Props -> M JSValue;
  erc1155_safeBatchTransferFrom :
    EthersService E -> string -> string -> string -> list JSValue -> list string -> string
    -> option string -> option Z -> Props -> M JSValue
}.

(** [addresses.forEach(address => addressSchema.parse(address))] *)
Fixpoint parse_each (addresses : list string) : Outcome unit :=
  match addresses with
  | [] => Return tt
  | a :: r =>
      match addressSchema_parse a with
      | Throw e => Throw e
      | Return _ => parse_each r
      end
  end.

Section Tokens.

Variable E : Ethers.
Variable tokens : TokenModules E.
Variable this : EthersService E.

(** [async getERC20TokenInfo(tokenAddress, provider?, chainId?)] *)
Definition getERC20TokenInfo (tokenAddress : string) (provider : option string)
    (chainId : option Z) : M JSValue :=
  try_catch
    (lift (addressSchema_parse tokenAddress) ;;;
     erc20_getTokenInfo tokens this tokenAddress provider chainId)
    (fun error =>
       rethrow_token error "get ERC20 token info"
         [("tokenAddress", JString tokenAddress)]).

(** [async getERC20Allowance(tokenAddress, ownerAddress, spenderAddress,
    provider?, chainId?)] *)
Definition getERC20Allowance (tokenAddress ownerAddress spenderAddress : string)
    (provider : option string) (chainId : option Z) : M string :=
  try_catch
    (lift (addressSchema_parse tokenAddress) ;;;
     lift (addressSchema_parse ownerAddress) ;;;
     lift (addressSchema_parse spenderAddress) ;;;
     erc20_getAllowance tokens this tokenAddress ownerAddress spenderAddress provider chainId)
    (fun error =>
       rethrow_token error "get ERC20 allowance"
         [("tokenAddress", JString tokenAddress);
          ("ownerAddress", JString ownerAddress);
          ("spenderAddress", JString spenderAddress)]).

(** [async approveERC20(tokenAddress, spenderAddress, amount, provider?,
    chainId?, options = {})] *)
Definition approveERC20 (tokenAddress spenderAddress amount : string)
    (provider : option string) (chainId : option Z) (options : Props) : M JSValue :=
  try_catch
    (lift (addressSchema_parse tokenAddress) ;;;
     lift (addressSchema_parse spenderAddress) ;;;
     erc20_approve tokens this tokenAddress spenderAddress amount provider chainId options)
    (fun error =>
       rethrow_token error "approve ERC20 tokens"
         [("tokenAddress", JString tokenAddress);
          ("spenderAddress", JString spenderAddress);
          ("amount", JString amount)]).

(** [async transferFromERC20(tokenAddress, senderAddress, recipientAddress,
    amount, provider?, chainId?, options = {})] *)
Definition transferFromERC20 (tokenAddress senderAddress recipientAddress amount : string)
    (provider : option string) (chainId : option Z) (options : Props) : M JSValue :=
  try_catch
    (lift (addressSchema_parse tokenAddress) ;;;
     lift (addressSchema_parse senderAddress) ;;;
     lift (addressSchema_parse recipientAddress) ;;;
     erc20_transferFrom tokens this tokenAddress senderAddress recipientAddress amount
       provider chainId options)
    (fun error =>
       rethrow_token error "transfer ERC20 tokens from sender"
         [("tokenAddress", JString tokenAddress);
          ("senderAddress", JString senderAddress);
          ("recipientAddress", JString recipientAddress);
          ("amount", JString amount)]).

(** [async getERC721CollectionInfo(contractAddress, provider?, chainId?)] *)
Definition getERC721CollectionInfo (contractAddress : string) (provider : option string)
    (chainId : option Z) : M JSValue :=
  try_catch
    (lift (addressSchema_parse contractAddress) ;;;
     erc721_getNFTInfo tokens this contractAddress provider chainId)
    (fun error =>
       rethrow_token error "get ERC721 collection info"
         [("contractAddress", JString contractAddress)]).

(** [async getERC721Owner(contractAddress, tokenId, provider?, chainId?)] *)
Definition getERC721Owner (contractAddress : string) (tokenId : JSValue)
    (provider : option string) (chainId : option Z) : M string :=
  try_catch
    (lift (addressSchema_parse contractAddress) ;;;
     erc721_ownerOf tokens this contractAddress tokenId provider chainId)
    (fun error =>
       rethrow_token error "get ERC721 owner"
         [("contractAddress", JString contractAddress); ("tokenId", tokenId)]).

(** [async getERC721Metadata(contractAddress, tokenId, provider?, chainId?)] *)
Definition getERC721Metadata (contractAddress : string) (tokenId : JSValue)
    (provider : option string) (chainId : option Z) : M JSValue :=
  try_catch
    (lift (addressSchema_parse contractAddress) ;;;
     erc721_getMetadata tokens this contractAddress tokenId provider chainId)
    (fun error =>
       rethrow_token error "get ERC721 metadata"
         [("contractAddress", JString contractAddress); ("tokenId", tokenId)]).

(** [async getERC721TokensOfOwner(contractAddress, ownerAddress,
    includeMetadata = false, provider?, chainId?)] *)
Definition getERC721TokensOfOwner (contractAddress ownerAddress : string)
    (includeMetadata : bool) (provider : option string) (chainId : option Z)
  : M (list JSValue) :=
  try_catch
    (lift (addressSchema_parse contractAddress) ;;;
     lift (addressSchema_parse ownerAddress) ;;;
     erc721_getUserNFTs tokens this contractAddress ownerAddress includeMetadata
       provider chainId)
    (fun error =>
       rethrow_token error "get ERC721 tokens of owner"
         [("contractAddress", JString contractAddress);
          ("ownerAddress", JString ownerAddress)]).

(** [async transferERC721(contractAddress, toAddress, tokenId, provider?,
    chainId?, options = {})] *)
Definition transferERC721 (contractAddress toAddress : string) (tokenId : JSValue)
    (provider : option string) (chainId : option Z) (options : Props) : M JSValue :=
  try_catch
    (lift (addressSchema_parse contractAddress) ;;;
     lift (addressSchema_parse toAddress) ;;;
     erc721_transferNFT tokens this contractAddress toAddress tokenId provider chainId
       options)
    (fun error =>
       rethrow_token error "transfer ERC721 NFT"
         [("contractAddress", JString contractAddress);
          ("toAddress", JString toAddress); ("tokenId", tokenId)]).

(** [async safeTransferERC721(contractAddress, toAddress, tokenId,
    data = '0x', provider?, chainId?, options = {})] *)
Definition safeTransferERC721 (contractAddress toAddress : string) (tokenId : JSValue)
    (data : string) (provider : option string) (chainId : option Z) (options : Props)
  : M JSValue :=
  try_catch
    (lift (addressSchema_parse contractAddress) ;;;
     lift (addressSchema_parse toAddress) ;;;
     erc721_safeTransferNFT tokens this contractAddress toAddress tokenId data
       provider chainId options)
    (fun error =>
       rethrow_token error "safe transfer ERC721 NFT"
         [("contractAddress", JString contractAddress);
          ("toAddress", JString toAddress); ("tokenId", tokenId)]).

(** [async getERC1155Balance(contractAddress, ownerAddress, tokenId,
    provider?, chainId?)] *)
Definition getERC1155Balance (contractAddress ownerAddress : string) (tokenId : JSValue)
    (provider : option string) (chainId : option Z) : M string :=
  try_catch
    (lift (addressSchema_parse contractAddress) ;;;
     lift (addressSchema_parse ownerAddress) ;;;
     erc1155_balanceOf tokens this contractAddress ownerAddress tokenId provider chainId)
    (fun error =>
       rethrow_token error "get ERC1155 balance"
         [("contractAddress", JString contractAddress);
          ("ownerAddress", JString ownerAddress); ("tokenId", tokenId)]).

(** [async getERC1155BatchBalances(contractAddress, ownerAddresses, tokenIds,
    provider?, chainId?)] *)
Definition getERC1155BatchBalances (contractAddress : string)
    (ownerAddresses : list string) (tokenIds : list JSValue)
    (provider : option string) (chainId : option Z) : M (list string) :=
  try_catch
    (lift (addressSchema_parse contractAddress) ;;;
     lift (parse_each ownerAddresses) ;;;
     erc1155_balanceOfBatch tokens this contractAddress ownerAddresses tokenIds
       provider chainId)
    (fun error =>
       rethrow_token error "get ERC1155 batch balances"
         [("contractAddress", JString contractAddress);
          ("ownerAddresses", JArray (map JString ownerAddresses));
          ("tokenIds", JArray tokenIds)]).

(** [async getERC1155Metadata(contractAddress, tokenId, provider?, chainId?)] *)
Definition getERC1155Metadata (contractAddress : string) (tokenId : JSValue)
    (provider : option string) (chainId : option Z) : M JSValue :=
  try_catch
    (lift (addressSchema_parse contractAddress) ;;;
     erc1155_getMetadata tokens this contractAddress tokenId provider chainId)
    (fun error =>
       rethrow_token error "get ERC1155 metadata"
         [("contractAddress", JString contractAddress); ("tokenId", tokenId)]).

(** [async getERC1155TokensOfOwner(contractAddress, ownerAddress, tokenIds?,
    includeMetadata = false, provider?, chainId?)] *)
Definition getERC1155TokensOfOwner (contractAddress ownerAddress : string)
    (tokenIds : option (list JSValue)) (includeMetadata : bool)
    (provider : option string) (chainId : option Z) : M (list JSValue) :=
  try_catch
    (lift (addressSchema_parse contractAddress) ;;;
     lift (addressSchema_parse ownerAddress) ;;;
     erc1155_getUserTokens tokens this contractAddress ownerAddress tokenIds
       includeMetadata provider chainId)
    (fun error =>
       rethrow_token error "get ERC1155 tokens of owner"
         [("contractAddress", JString contractAddress);
          ("ownerAddress", JString ownerAddress)]).

(** [async safeTransferERC1155(contractAddress, fromAddress, toAddress,
    tokenId, amount, data = '0x', provider?, chainId?, options = {})] *)
Definition safeTransferERC1155 (contractAddress fromAddress toAddress : string)
    (tokenId : JSValue) (amount data : string) (provider : option string)
    (chainId : option Z) (options : Props) : M JSValue :=
  try_catch
    (lift (addressSchema_parse contractAddress) ;;;
     lift (addressSchema_parse fromAddress) ;;;
     lift (addressSchema_parse toAddress) ;;;
     erc1155_safeTransferFrom tokens this contractAddress fromAddress toAddress tokenId
       amount data provider chainId options)
    (fun error =>
       rethrow_token error "safe transfer ERC1155 tokens"
         [("contractAddress", JString contractAddress);
          ("fromAddress", JString fromAddress); ("toAddress", JString toAddress);
          ("tokenId", tokenId); ("amount", JString amount)]).

(** [async safeBatchTransferERC1155(contractAddress, fromAddress, toAddress,
    tokenIds, amounts, data = '0x', provider?, chainId?, options = {})] *)
Definition safeBatchTransferERC1155 (contractAddress fromAddress toAddress : string)
    (tokenIds : list JSValue) (amounts : list string) (data : string)
    (provider : option string) (chainId : option Z) (options : Props) : M JSValue :=
  try_catch
    (lift (addressSchema_parse contractAddress) ;;;
     lift (addressSchema_parse fromAddress) ;;;
     lift (addressSchema_parse toAddress) ;;;
     erc1155_safeBatchTransferFrom tokens this contractAddress fromAddress toAddress
       tokenIds amounts data provider chainId options)
    (fun error =>
       rethrow_token error "safe batch transfer ERC1155 tokens"
         [("contractAddress", JString contractAddress);
          ("fromAddress", JString fromAddress); ("toAddress", JString toAddress);
          ("tokenIds", JArray tokenIds);
          ("amounts", JArray (map JString amounts))]).

End Tokens.

(** The stub, extended. *)
Module StubMore.

Definition known_hash : string :=
  "0x1111111111111111111111111111111111111111111111111111111111111111".

Definition unknown_hash : string :=
  "0x2222222222222222222222222222222222222222222222222222222222222222".

Definition stub_getTransaction (p : Stub.StubProvider) (txHash : string)
  : Outcome (option Transaction) :=
  if String.eqb txHash known_hash then
    Return (Some {| tx_chainId := 1; tx_fields := [("hash", JString txHash)] |})
  else Return None.

Definition stub_getBigInt (text : string) : Outcome Z :=
  if Dec.all_digits (list_ascii_of_string text)
     && negb (String.eqb text EmptyString)
  then Return (Dec.read text)
  else Throw (Units.ethers_error "INVALID_ARGUMENT" "invalid BigNumberish string").

Definition more : EthersMore Stub.ethers :=
  @Build_EthersMore Stub.ethers
    stub_getBigInt
    stub_getTransaction
    (fun _ _ => Return 7%Z)
    (fun _ _ => Return "0x")
    (fun _ _ => Return None)
    (fun _ _ => Return 21000%Z)
    (fun s p => Return (fst s, p))
    (fun _ => Return Stub.address_a).

Definition signed : EthersSigned Stub.ethers :=
  @Build_EthersSigned Stub.ethers
    (fun _ tx => Return (JS.set tx "nonce" (JNumber 0)))
    (fun _ _ _ _ _ => Return 50000%Z).

Definition token_answer {A} (operation : string) (answer : A) : M A :=
  call (CallTokenModule operation) (Return answer).

Definition tokens : TokenModules Stub.ethers :=
  @Build_TokenModules Stub.ethers
    (fun _ _ _ _ => token_answer "erc20.getTokenInfo" (JObject NoToJSON [("symbol", JString "TKN")]))
    (fun _ _ _ _ _ _ => token_answer "erc20.getAllowance" "0.0")
    (fun _ _ _ _ _ _ _ => token_answer "erc20.approve" (JObject NoToJSON [("nonce", JNumber 0)]))
    (fun _ _ _ _ _ _ _ _ =>
       token_answer "erc20.transferFrom" (JObject NoToJSON [("nonce", JNumber 0)]))
    (fun _ _ _ _ => token_answer "erc721.getNFTInfo" (JObject NoToJSON [("symbol", JString "NFT")]))
    (fun _ _ _ _ _ => token_answer "erc721.ownerOf" Stub.address_a)
    (fun _ _ _ _ _ => token_answer "erc721.getMetadata" (JObject NoToJSON []))
    (fun _ _ _ _ _ _ => token_answer "erc721.getUserNFTs" [])
    (fun _ _ _ _ _ _ _ =>
       token_answer "erc721.transferNFT" (JObject NoToJSON [("nonce", JNumber 0)]))
    (fun _ _ _ _ _ _ _ _ =>
       token_answer "erc721.safeTransferNFT" (JObject NoToJSON [("nonce", JNumber 0)]))
    (fun _ _ _ _ _ _ => token_answer "erc1155.balanceOf" "1")
    (fun _ _ owners _ _ _ => token_answer "erc1155.balanceOfBatch" (map (fun _ => "1") owners))
    (fun _ _ _ _ _ => token_answer "erc1155.getMetadata" (JObject NoToJSON []))
    (fun _ _ _ _ _ _ _ => token_answer "erc1155.getUserTokens" [])
    (fun _ _ _ _ _ _ _ _ _ _ =>
       token_answer "erc1155.safeTransferFrom" (JObject NoToJSON [("nonce", JNumber 0)]))
    (fun _ _ _ _ _ _ _ _ _ _ =>
       token_answer "erc1155.safeBatchTransferFrom" (JObject NoToJSON [("nonce", JNumber 0)])).

(** The entries of an object to serialise: a skipped key and the key
    [__proto__] among them. *)
Definition sample_entries : Props :=
  [("amount", JBigInt 7); ("type", JNumber 2);
   ("__proto__", JObject NoToJSON [("x", JNumber 1)])].

(** An event record as the library hands it over, with its arguments. *)
Definition event_log : Log :=
  {| log_address := Stub.address_a;
     log_blockNumber := Some 21%Z;
     log_transactionHash := "0x04";
     log_index := 3%Z;
     log_data := "0x05";
     log_topics := [Stub.transfer_topic];
     log_event := Some ("Transfer", JArray [JString Stub.address_a; JBigInt 5]) |}.

End StubMore.

(** A second double, closer to the library: [getAddress] gives the
    checksummed form of the addresses it knows, the node selects logs by
    the filter, [parseLog] reads the topics and the data of a record, and
    a read answers as the library decodes it: one output as the value
    itself, several as an array. *)
Module Chain.

Definition token_lower : string := "0xdac17f958d2ee523a2206206994597c13d831ec7".
Definition token : string := "0xdAC17F958D2ee523a2206206994597C13D831ec7".

Definition zero_address : string := "0x0000000000000000000000000000000000000000".
Definition holder : string := "0xd8dA6BF26964aF9D7eEd9e03E53415D37aA96045".

Definition zero_topic : string :=
  "0x0000000000000000000000000000000000000000000000000000000000000000".
Definition holder_topic : string :=
  "0x000000000000000000000000d8da6bf26964af9d7eed9e03e53415d37aa96045".

Definition word_five : string :=
  "0x0000000000000000000000000000000000000000000000000000000000000005".
Definition word_seven : string :=
  "0x0000000000000000000000000000000000000000000000000000000000000007".

Definition approval_topic : string :=
  "0x8c5be1e5ebec7d5bd14f71427d1e84f3dd0314c0f7b2291e5b200ac8c7c3b925".

(** [ethers.getAddress]: the checksummed form, for an address in lower
    case or already in that form. *)
Definition checksum (a : string) : Outcome string :=
  if String.eqb a token_lower || String.eqb a token then Return token
  else if String.eqb (JS.toLowerCase a) (JS.toLowerCase holder)
          && (String.eqb a (JS.toLowerCase holder) || String.eqb a holder)
  then Return holder
  else if String.eqb a zero_address then Return zero_address
  else if address_pattern a then
    Throw (Units.ethers_error "INVALID_ARGUMENT" "bad address checksum")
  else Throw (Units.ethers_error "INVALID_ARGUMENT" "invalid address").

Definition mint_log : Log :=
  {| log_address := token;
     log_blockNumber := Some 17%Z;
     log_transactionHash := "0x01";
     log_index := 0%Z;
     log_data := word_five;
     log_topics := [Stub.transfer_topic; zero_topic; holder_topic];
     log_event := None |}.

(** A record whose data is cut short. *)
Definition short_log : Log :=
  {| log_address := token;
     log_blockNumber := Some 18%Z;
     log_transactionHash := "0x02";
     log_index := 1%Z;
     log_data := "0x";
     log_topics := [Stub.transfer_topic; zero_topic; holder_topic];
     log_event := None |}.

Definition burn_log : Log :=
  {| log_address := token;
     log_blockNumber := Some 19%Z;
     log_transactionHash := "0x03";
     log_index := 2%Z;
     log_data := word_seven;
     log_topics := [Stub.transfer_topic; holder_topic; zero_topic];
     log_event := None |}.

(** The node answers a filter on the token and the Transfer topic. *)
Definition getLogs (filter : Filter) : Outcome (list Log) :=
  match filter_address filter, filter_topics filter with
  | Some a, Some (JString t0 :: _) =>
      if String.eqb a token && String.eqb t0 Stub.transfer_topic
      then Return [mint_log; short_log; burn_log]
      else Return []
  | _, _ => Return []
  end.

Definition read_address (topic : string) : option string :=
  if String.eqb topic zero_topic then Some zero_address
  else if String.eqb topic holder_topic then Some holder
  else None.

Definition read_word (data : JSValue) : option Z :=
  match data with
  | JString d =>
      if String.eqb d word_five then Some 5%Z
      else if String.eqb d word_seven then Some 7%Z
      else None
  | _ => None
  end.

(** [interface.parseLog({ topics, data })]: [null] when the first topic
    is no event of the interface, an error when the record does not
    decode. *)
Definition decode (topics data : JSValue) : Outcome (option LogDescription) :=
  match topics with
  | JArray (JString t0 :: rest) =>
      if String.eqb t0 Stub.transfer_topic then
        match rest with
        | [JString t1; JString t2] =>
            match read_address t1, read_address t2, read_word data with
            | Some from, Some to, Some value =>
                Return (Some {| ld_name := "Transfer";
                                ld_args := JArray [JString from; JString to;
                                                   JBigInt value] |})
            | _, _, _ =>
                Throw (Units.ethers_error "BUFFER_OVERRUN" "data out-of-bounds")
            end
        | _ => Throw (Units.ethers_error "BUFFER_OVERRUN" "data out-of-bounds")
        end
      else Return None
  | _ => Return None
  end.

Definition function_of (name : string) : option FunctionFragment :=
  if String.eqb name "balanceOf" then
    Some {| fn_name := name; fn_constant := true; fn_stateMutability := "view" |}
  else if String.eqb name "getReserves" then
    Some {| fn_name := name; fn_constant := true; fn_stateMutability := "view" |}
  else if String.eqb name "transfer" then
    Some {| fn_name := name; fn_constant := false; fn_stateMutability := "nonpayable" |}
  else None.

Definition event_of (name : string) : option EventFragment :=
  if String.eqb name "Transfer" then
    Some {| ev_name := name; ev_topicHash := Stub.transfer_topic |}
  else if String.eqb name "Approval" then
    Some {| ev_name := name; ev_topicHash := approval_topic |}
  else None.

(** One output comes back as the value, several as an array of them;
    every integer is a [bigint]. *)
Definition staticCall (address : string) (f : FunctionFragment) (args : list JSValue)
  : Outcome JSValue :=
  if String.eqb (fn_name f) "balanceOf" then Return (JBigInt 1500000)
  else Return (JArray [JBigInt 10; JBigInt 20; JBigInt 1700000000]).

Definition ethers : Ethers :=
  {| Provider := Stub.StubProvider;
     Signer := string * Stub.StubProvider;
     Interface := unit;
     AlchemyProvider := Stub.alchemy;
     JsonRpcProvider :=
       fun url => Return {| Stub.sp_label := url; Stub.sp_chainId := JUndefined |};
     InfuraProvider := Stub.infura;
     network_chainId := fun p => Return (Stub.sp_chainId p);
     Wallet := fun key p => Return (key, p);
     signer_provider := fun s => Some (snd s);
     Wallet_provider := fun key p s H =>
       match H in (_ = r)
             return (match r with
                     | Return s' => Some (snd s') = Some p
                     | Throw _ => True
                     end)
       with eq_refl => eq_refl end;
     getAddress := checksum;
     JSON_parse := fun text => Return (JArray [JString text]);
     Contract_interface := fun _ => Return tt;
     getFunction := fun _ name => Return (function_of name);
     getEvent := fun _ name => Return (event_of name);
     encodeFunctionData := fun _ _ _ => Return "0xa9059cbb";
     parseLog := fun _ => decode;
     rpc_getBalance := fun _ _ => Return (10 ^ 18)%Z;
     rpc_getLogs := fun _ => getLogs;
     rpc_staticCall := fun _ => staticCall;
     rpc_sendTransaction := fun _ _ => Return (JObject NoToJSON [("nonce", JNumber 0)]);
     rpc_contractMethod := fun _ _ _ _ _ => Return (JObject NoToJSON [("nonce", JNumber 0)])
  |}.

Definition service : EthersService ethers :=
  @Build_EthersService ethers Stub.preset None.

Definition transfer_abi : Abi :=
  AbiArray ["event Transfer(address indexed from, address indexed to, uint256 value)"].

Definition read_abi : Abi :=
  AbiArray ["function balanceOf(address) view returns (uint256)";
            "function getReserves() view returns (uint112, uint112, uint32)"].

End Chain.

(* ===================================================================== *)
(** * Further vocabulary *)
(* ===================================================================== *)

(** The run raises the validation failure and leaves the record of calls
    and warnings as it found it. *)
Definition refused {W A : Type} (run : Outcome A * W) (before : W) : Prop :=
  run = (Throw validation_failure, before).

(** [needle] occurs in [haystack]. *)
Definition contains (needle haystack : string) : Prop :=
  exists before after, haystack = before ++ needle ++ after.

(** No key occurs twice among the properties, at any depth. *)
Fixpoint unique_keys (v : JSValue) : Prop :=
  match v with
  | JArray items =>
      (fix all (l : list JSValue) : Prop :=
         match l with
         | [] => True
         | x :: r => unique_keys x /\ all r
         end) items
  | JObject _ props =>
      NoDup (map fst props)
      /\ (fix all (l : list (string * JSValue)) : Prop :=
            match l with
            | [] => True
            | kv :: r => unique_keys (snd kv) /\ all r
            end) props
  | _ => True
  end.

(** A value [serializeEventArgs] leaves as it is. *)
Definition serialized (v : JSValue) : Prop := serializeEventArgs v = v.

(** The message of the error an outcome raises. *)
Definition failure_message {A} (o : Outcome A) : option string :=
  match o with
  | Throw (ThrownError e) => Some (err_message e)
  | _ => None
  end.

(** The requests of a journal that are transaction submissions. *)
Fixpoint journal_submitted (rs : list Request) : list Props :=
  match rs with
  | [] => []
  | Earlier (CallSendTransaction tx) :: r => tx :: journal_submitted r
  | _ :: r => journal_submitted r
  end.

(** The text before the first occurrence of the character, or all of it. *)
Fixpoint before (sep : ascii) (s : string) : string :=
  match s with
  | EmptyString => EmptyString
  | String c r => if Ascii.eqb c sep then EmptyString else String c (before sep r)
  end.

(** [JSON.stringify(value)] returns, as the tool layer needs of a result. *)
Definition JSON_safe (v : JSValue) : Prop :=
  exists text, JS.JSON_stringify v = Return text.

(** An [Error] without a [code] property: neither a schema failure nor a
    library error. *)
Definition uncoded_error (error : Thrown) : Prop :=
  match error with
  | ThrownError e => err_code e = None
  | _ => False
  end.

(** [err.message || String(error)] for an [Error] instance *)
Definition message_or_text (e : JSError) : string :=
  if String.eqb (err_message e) EmptyString then JS.Error_toString e else err_message e.

(** What [JSON.stringify] raises for a [bigint] it has no replacer for. *)
Definition bigint_type_error : Thrown :=
  ThrownError (mkTypeError "Do not know how to serialize a BigInt").

(* ===================================================================== *)
(** * Sanity checks of the definitions *)
(* ===================================================================== *)

Example dec_of_Z_samples :
  Dec.of_Z 0 = "0" /\ Dec.of_Z 1500000 = "1500000" /\ Dec.of_Z (-42) = "-42"
  /\ Dec.of_Z (10 ^ 30) = "1000000000000000000000000000000".
Proof. repeat split; vm_compute; reflexivity. Qed.

Example js_spread_samples :
  JS.spread [("gasLimit", JBigInt 21000)] [("value", JBigInt 7)]
    = [("gasLimit", JBigInt 21000); ("value", JBigInt 7)]%list
  /\ JS.spread [("to", JString "a"); ("value", JBigInt 0)] [("value", JBigInt 7)]
    = [("to", JString "a"); ("value", JBigInt 7)]%list.
Proof. split; reflexivity. Qed.

Example js_stringify_sample :
  JS.JSON_stringify_bigint
    (JObject NoToJSON [("a", JBigInt (10 ^ 30)); ("b", JArray [JNumber 1; JUndefined]); ("c", JUndefined)])
  = Return (JString ("{" ++ JS.quote "a" ++ ":" ++ JS.quote "1000000000000000000000000000000"
                        ++ "," ++ JS.quote "b" ++ ":[1,null]}")).
Proof. vm_compute. reflexivity. Qed.

Example serializeValue_samples :
  serializeValue (JArray [JBigInt 1; JArray [JBigInt (10 ^ 30)]; JString "x"; JNull])
    = Return (JString "[1, [1000000000000000000000000000000], x, null]")
  /\ serializeValue (JObject (ToJSONReturns (JNumber 42)) []) = Return (JNumber 42).
Proof. split; vm_compute; reflexivity. Qed.

Example handleProviderError_samples :
  @handleProviderError unit (ThrownError (mkError "boom")) "fetch balance"
      (Some [("address", JString "0xabc"); ("n", JBigInt 5)])
    = Throw (ThrownError (mkError "Failed to fetch balance: boom Details: address=0xabc, n=5")).
Proof. vm_compute. reflexivity. Qed.

Example serializeEventArgs_sample :
  serializeEventArgs
    (JObject NoToJSON [("amount", JBigInt 7); ("type", JNumber 2);
                       ("inner", JArray [JObject NoToJSON [("hash", JString "0x1"); ("id", JBigInt 9)]])])
  = JObject NoToJSON [("amount", JString "7");
                      ("inner", JArray [JObject NoToJSON [("id", JString "9")]])].
Proof. vm_compute. reflexivity. Qed.

Example units_samples :
  Units.parseUnits "1.5" (Units.UnitDecimals 6) = Return 1500000%Z
  /\ Units.formatUnits 1500000 (Units.UnitDecimals 6) = Return "1.5"
  /\ Units.parseUnits "1" (Units.UnitDecimals 18) = Return (10 ^ 18)%Z
  /\ Units.formatUnits (10 ^ 18) (Units.UnitDecimals 18) = Return "1.0"
  /\ Units.formatUnits (-5) (Units.UnitName "gwei") = Return "-0.000000005"
  /\ Units.parseUnits ".5" (Units.UnitDecimals 1) = Return 5%Z
  /\ Units.formatUnits 12 (Units.UnitDecimals 0) = Return "12".
Proof. repeat split; vm_compute; reflexivity. Qed.

(* ===================================================================== *)
(** * Decimal text is exact *)
(* ===================================================================== *)

Lemma value_acc_eq (s : list ascii) (acc : N) :
  fold_left (fun a c => (a * 10 + Dec.digit_val c)%N) s acc
  = (acc * 10 ^ N.of_nat (length s) + Dec.value s)%N.
Proof.
  unfold Dec.value. revert acc.
  induction s as [|c r IH]; intro acc.
  - simpl. lia.
  - cbn [fold_left length]. rewrite IH. rewrite (IH (0 * 10 + Dec.digit_val c)%N).
    rewrite Nat2N.inj_succ, N.pow_succ_r'. lia.
Qed.

Lemma value_app (a b : list ascii) :
  Dec.value (a ++ b)%list = (Dec.value a * 10 ^ N.of_nat (length b) + Dec.value b)%N.
Proof.
  unfold Dec.value at 1. rewrite fold_left_app. rewrite value_acc_eq. reflexivity.
Qed.

Lemma digit_val_char (d : N) : (d < 10)%N -> Dec.digit_val (Dec.digit_char d) = d.
Proof.
  intro H. unfold Dec.digit_val, Dec.digit_char.
  rewrite N_ascii_embedding by lia. lia.
Qed.

Lemma is_digit_char (d : N) : (d < 10)%N -> Dec.is_digit (Dec.digit_char d) = true.
Proof.
  intro H. unfold Dec.is_digit, Dec.digit_char.
  rewrite N_ascii_embedding by lia.
  apply andb_true_iff. split; apply N.leb_le; lia.
Qed.

Lemma digits_fuel_acc fuel : forall n acc,
  Dec.digits_fuel fuel n acc = (Dec.digits_fuel fuel n [] ++ acc)%list.
Proof.
  induction fuel as [|f IH]; intros n acc; simpl; [reflexivity|].
  destruct (n <? 10)%N; [reflexivity|].
  rewrite IH. rewrite (IH _ [_]). rewrite <- app_assoc. reflexivity.
Qed.

Lemma digits_fuel_value fuel : forall n,
  (n < 2 ^ N.of_nat fuel)%N -> Dec.value (Dec.digits_fuel fuel n []) = n.
Proof.
  induction fuel as [|f IH]; intros n Hn.
  - simpl in *. assert (n = 0%N) by lia. subst. reflexivity.
  - simpl. destruct (n <? 10)%N eqn:E.
    + apply N.ltb_lt in E. unfold Dec.value. simpl.
      rewrite N.mod_small by lia. rewrite digit_val_char by lia. lia.
    + apply N.ltb_ge in E. rewrite digits_fuel_acc, value_app.
      rewrite Nat2N.inj_succ, N.pow_succ_r' in Hn.
      rewrite IH.
      * unfold Dec.value at 1. simpl.
        rewrite digit_val_char by (apply N.mod_lt; lia).
        pose proof (N.div_mod n 10). lia.
      * apply N.Div0.div_lt_upper_bound. lia.
Qed.

Lemma digits_fuel_all_digits fuel : forall n,
  Dec.all_digits (Dec.digits_fuel fuel n []) = true.
Proof.
  unfold Dec.all_digits.
  induction fuel as [|f IH]; intro n; simpl; [reflexivity|].
  destruct (n <? 10)%N.
  - simpl. rewrite is_digit_char by (apply N.mod_lt; lia). reflexivity.
  - rewrite digits_fuel_acc, forallb_app, IH. simpl.
    rewrite is_digit_char by (apply N.mod_lt; lia). reflexivity.
Qed.

Lemma digits_fuel_nonempty fuel n : Dec.digits_fuel (S fuel) n [] <> [].
Proof.
  simpl. destruct (n <? 10)%N; [discriminate|].
  rewrite digits_fuel_acc. intro H. apply app_eq_nil in H. destruct H; discriminate.
Qed.

Lemma fuel_enough (n : N) : (n < 2 ^ N.of_nat (S (N.to_nat (N.log2 n))))%N.
Proof.
  rewrite Nat2N.inj_succ, N2Nat.id.
  destruct n as [|p]; [simpl; lia|].
  apply N.log2_spec. lia.
Qed.

Lemma digits_of_N_value n : Dec.value (Dec.digits_of_N n) = n.
Proof. apply digits_fuel_value, fuel_enough. Qed.

Lemma digits_of_N_all_digits n : Dec.all_digits (Dec.digits_of_N n) = true.
Proof. apply digits_fuel_all_digits. Qed.

Lemma digits_of_N_nonempty n : Dec.digits_of_N n <> [].
Proof. apply digits_fuel_nonempty. Qed.

Lemma is_digit_not_minus c : Dec.is_digit c = true -> Ascii.eqb c "-" = false.
Proof.
  intro H. destruct (Ascii.eqb c "-") eqn:E; [|reflexivity].
  apply Ascii.eqb_eq in E. subst. discriminate.
Qed.

(** The decimal text of an integer denotes that integer. *)
Lemma read_of_Z z : Dec.read (Dec.of_Z z) = z.
Proof.
  unfold Dec.read, Dec.of_Z. destruct z as [|p|p].
  - reflexivity.
  - rewrite list_ascii_of_string_of_list_ascii.
    pose proof (digits_of_N_value (Npos p)) as Hv.
    pose proof (digits_of_N_all_digits (Npos p)) as Hd.
    destruct (Dec.digits_of_N (Npos p)) as [|c r] eqn:E.
    + exfalso. eapply digits_of_N_nonempty. eassumption.
    + unfold Dec.all_digits in Hd. simpl in Hd. apply andb_true_iff in Hd as [Hc _].
      rewrite (is_digit_not_minus _ Hc). rewrite Hv. reflexivity.
  - cbn [list_ascii_of_string]. rewrite list_ascii_of_string_of_list_ascii.
    rewrite Ascii.eqb_refl. rewrite digits_of_N_value. reflexivity.
Qed.

(* ===================================================================== *)
(** * Results about [serializeEventArgs] *)
(* ===================================================================== *)

Lemma serializeEventArgs_object tj props :
  serializeEventArgs (JObject tj props) = JObject (own_toJSON tj) (assign_entries props []).
Proof.
  simpl. f_equal. generalize (@nil (string * JSValue)).
  induction props as [|kv r IH]; intro acc; simpl; [reflexivity|].
  rewrite andb_false_r.
  destruct (skipped_key (fst kv)); [apply IH|].
  destruct (String.eqb (fst kv) "__proto__"); apply IH.
Qed.

Lemma existsb_set_false (g : string * JSValue -> bool) acc k v :
  existsb g acc = false -> g (k, v) = false -> existsb g (JS.set acc k v) = false.
Proof.
  induction acc as [|[k0 v0] r IH]; simpl; intros Hacc Hkv.
  - rewrite Hkv. reflexivity.
  - apply orb_false_iff in Hacc as [H0 Hr].
    destruct (String.eqb k0 k) eqn:Ek; simpl.
    + apply String.eqb_eq in Ek. subst k0. rewrite Hkv, Hr. reflexivity.
    + rewrite H0. simpl. apply IH; assumption.
Qed.

Lemma assign_entries_false (g : string * JSValue -> bool) l :
  Forall (fun kv => skipped_key (fst kv) = false ->
                    g (fst kv, serializeEventArgs (snd kv)) = false) l ->
  forall acc, existsb g acc = false -> existsb g (assign_entries l acc) = false.
Proof.
  induction 1 as [|kv r Hkv _ IH]; intros acc Hacc; simpl; [assumption|].
  destruct (skipped_key (fst kv)) eqn:Es.
  - apply IH. assumption.
  - destruct (String.eqb (fst kv) "__proto__"); [apply IH; assumption|].
    apply IH. apply existsb_set_false; auto.
Qed.

Lemma existsb_map_false {A B} (f : A -> B) (g : B -> bool) l :
  Forall (fun x => g (f x) = false) l -> existsb g (map f l) = false.
Proof.
  induction 1 as [|x r Hx _ IH]; simpl; [reflexivity|]. rewrite Hx, IH. reflexivity.
Qed.

Lemma serializeEventArgs_no_bigint v : has_bigint (serializeEventArgs v) = false.
Proof.
  induction v using JSValue_deep_ind; try reflexivity.
  - simpl. apply existsb_map_false. assumption.
  - rewrite serializeEventArgs_object. simpl.
    apply assign_entries_false; [|reflexivity].
    eapply Forall_impl; [|eassumption]. simpl. intros kv Hkv _. exact Hkv.
Qed.

Lemma serializeEventArgs_no_skipped_key v :
  has_key skipped_key (serializeEventArgs v) = false.
Proof.
  induction v using JSValue_deep_ind; try reflexivity.
  - simpl. apply existsb_map_false. assumption.
  - rewrite serializeEventArgs_object. simpl.
    apply assign_entries_false; [|reflexivity].
    eapply Forall_impl; [|eassumption]. simpl. intros kv Hkv Hs.
    rewrite Hs, Hkv. reflexivity.
Qed.

Lemma get_set_other acc k v k' :
  String.eqb k k' = false -> JS.get (JS.set acc k v) k' = JS.get acc k'.
Proof.
  intro Hne. induction acc as [|[k0 v0] r IH]; simpl.
  - rewrite Hne. reflexivity.
  - destruct (String.eqb k0 k) eqn:Ek; simpl.
    + apply String.eqb_eq in Ek. subst k0. rewrite Hne. reflexivity.
    + destruct (String.eqb k0 k'); [reflexivity | exact IH].
Qed.

Lemma get_set_same acc k v : JS.get (JS.set acc k v) k = Some v.
Proof.
  induction acc as [|[k0 v0] r IH]; simpl.
  - rewrite String.eqb_refl. reflexivity.
  - destruct (String.eqb k0 k) eqn:Ek; simpl; rewrite Ek; [reflexivity | exact IH].
Qed.

Lemma assign_entries_skipped l k :
  skipped_key k = true ->
  forall acc, JS.get (assign_entries l acc) k = JS.get acc k.
Proof.
  intro Hk. induction l as [|kv r IH]; intro acc; simpl; [reflexivity|].
  destruct (skipped_key (fst kv)) eqn:Es; [apply IH|].
  destruct (String.eqb (fst kv) "__proto__"); [apply IH|].
  rewrite IH. apply get_set_other.
  destruct (String.eqb (fst kv) k) eqn:Ek; [|reflexivity].
  apply String.eqb_eq in Ek. congruence.
Qed.

(* ===================================================================== *)
(** * Reasoning about runs *)
(* ===================================================================== *)

Ltac run_unfold := unfold try_catch, bind, lift, ret, raise, call, warn in *.

(** Case analysis on the computation a hypothesis or the goal is stuck on. *)
Ltac step_in H :=
  match type of H with
  | context [match ?x with _ => _ end] =>
      let E := fresh "E" in destruct x eqn:E; simpl in H; try discriminate H
  end.

Ltac steps_in H := repeat (step_in H).

Lemma handleProviderError_throws {A} error context details :
  exists e, @handleProviderError A error context details = Throw e.
Proof.
  unfold handleProviderError.
  destruct error as [issues|e|v]; [eexists; reflexivity| |].
  - destruct e as [n m [c|] t]; [eexists; reflexivity|].
    destruct (error_message_of _); [|eexists; reflexivity].
    destruct (details_text _); eexists; reflexivity.
  - destruct (error_message_of _); [|eexists; reflexivity].
    destruct (details_text _); eexists; reflexivity.
Qed.

Lemma handleProviderError_not_return {A} error context details (a : A) :
  handleProviderError error context details <> Return a.
Proof.
  destruct (@handleProviderError_throws A error context details) as [e He].
  rewrite He. discriminate.
Qed.

(** A [catch] clause that ends in [handleProviderError] never returns. *)
Ltac handler_fails H :=
  steps_in H; exfalso; eapply handleProviderError_not_return;
  inversion H; eassumption.

Section ReadCalls.
Variable E : Ethers.
Variable DEFAULT_PROVIDERS : list string.
Variable env : Env.
Variable this : EthersService E.

Lemma contractCallView_result contractAddress abi method args provider chainId w v w' :
  contractCallView DEFAULT_PROVIDERS env this contractAddress abi method args provider chainId w
    = (Return v, w') ->
  exists selectedProvider f result,
    rpc_staticCall E selectedProvider contractAddress f args = Return result
    /\ v = serializeEventArgs result.
Proof.
  unfold contractCallView, method_not_found, wrong_call_kind. run_unfold. intro H.
  destruct (addressSchema_parse contractAddress) eqn:Ea; simpl in H.
  2: handler_fails H.
  destruct (getProvider DEFAULT_PROVIDERS env this provider chainId w) as [[p|e] w1] eqn:Ep.
  2: handler_fails H.
  destruct (parse_abi E abi) eqn:Eabi.
  2: handler_fails H.
  destruct (Contract_interface E a0) eqn:Ec.
  2: handler_fails H.
  destruct (getFunction E a1 method) as [[f|]|] eqn:Ef.
  2,3: handler_fails H.
  destruct (negb (fn_constant f) && _ && _).
  { handler_fails H. }
  destruct (rpc_staticCall E p contractAddress f args) eqn:Er.
  2: handler_fails H.
  inversion H. subst. eauto.
Qed.

Lemma contractCall_result contractAddress abi method args provider chainId w v w' :
  contractCall DEFAULT_PROVIDERS env this contractAddress abi method args provider chainId w
    = (Return v, w') ->
  exists selectedProvider f result,
    rpc_staticCall E selectedProvider contractAddress f args = Return result
    /\ v = serializeEventArgs result.
Proof.
  unfold contractCall, method_not_found, wrong_call_kind. run_unfold. intro H.
  destruct (addressSchema_parse contractAddress) eqn:Ea; simpl in H.
  2: handler_fails H.
  destruct (getProvider DEFAULT_PROVIDERS env this provider chainId w) as [[p|e] w1] eqn:Ep.
  2: handler_fails H.
  destruct (parse_abi E abi) eqn:Eabi.
  2: handler_fails H.
  destruct (Contract_interface E a0) eqn:Ec.
  2: handler_fails H.
  destruct (getFunction E a1 method) as [[f|]|] eqn:Ef.
  2,3: handler_fails H.
  destruct (is_readonly f).
  2: handler_fails H.
  destruct (rpc_staticCall E p contractAddress f args) eqn:Er.
  2: handler_fails H.
  inversion H. subst. eauto.
Qed.

Lemma contractCall_run contractAddress abi method args provider chainId w
      selectedProvider w1 parsedAbi contract f result :
  address_pattern contractAddress = true ->
  getProvider DEFAULT_PROVIDERS env this provider chainId w = (Return selectedProvider, w1) ->
  parse_abi E abi = Return parsedAbi ->
  Contract_interface E parsedAbi = Return contract ->
  getFunction E contract method = Return (Some f) ->
  is_readonly f = true ->
  rpc_staticCall E selectedProvider contractAddress f args = Return result ->
  contractCall DEFAULT_PROVIDERS env this contractAddress abi method args provider chainId w
  = (Return (serializeEventArgs result),
     {| calls := (calls w1 ++ [CallStaticCall contractAddress method args])%list;
        warnings := warnings w1 |}).
Proof.
  intros Ha Hp Habi Hc Hf Hro Hr.
  unfold contractCall, addressSchema_parse. rewrite Ha. run_unfold.
  rewrite Hp, Habi, Hc, Hf, Hro, Hr. reflexivity.
Qed.

Lemma contractCallView_run contractAddress abi method args provider chainId w
      selectedProvider w1 parsedAbi contract f result :
  address_pattern contractAddress = true ->
  getProvider DEFAULT_PROVIDERS env this provider chainId w = (Return selectedProvider, w1) ->
  parse_abi E abi = Return parsedAbi ->
  Contract_interface E parsedAbi = Return contract ->
  getFunction E contract method = Return (Some f) ->
  is_readonly f = true ->
  rpc_staticCall E selectedProvider contractAddress f args = Return result ->
  contractCallView DEFAULT_PROVIDERS env this contractAddress abi method args provider
                   chainId w
  = (Return (serializeEventArgs result),
     {| calls := (calls w1 ++ [CallStaticCall contractAddress method args])%list;
        warnings := warnings w1 |}).
Proof.
  intros Ha Hp Habi Hc Hf Hro Hr.
  unfold contractCallView, addressSchema_parse. rewrite Ha. run_unfold.
  rewrite Hp, Habi, Hc, Hf.
  assert (Hn : negb (fn_constant f)
               && negb (String.eqb (fn_stateMutability f) "view")
               && negb (String.eqb (fn_stateMutability f) "pure") = false).
  { unfold is_readonly in Hro.
    destruct (fn_constant f); [reflexivity|].
    destruct (String.eqb (fn_stateMutability f) "view"); [reflexivity|].
    destruct (String.eqb (fn_stateMutability f) "pure"); [reflexivity | discriminate]. }
  rewrite Hn, Hr. reflexivity.
Qed.

Lemma decode_log_args contract log d :
  parseLog E contract (option_value (JS.get (object_props log) "topics"))
                      (option_value (JS.get (object_props log) "data")) = Return (Some d) ->
  JS.get (object_props (decode_log E contract log)) "args"
    = Some (serializeEventArgs (ld_args d)).
Proof.
  intro H. unfold decode_log. cbv zeta.
  change (match log with JObject _ p => p | _ => [] end) with (object_props log).
  rewrite H. simpl. apply get_set_same.
Qed.

End ReadCalls.

Lemma formatEvent_args log name args :
  log_event log = Some (name, args) ->
  JS.get (object_props (formatEvent log)) "args" = Some (serializeEventArgs args).
Proof. intro H. unfold formatEvent. rewrite H. reflexivity. Qed.



(* ===================================================================== *)
(** * Results about [serializeValue] *)
(* ===================================================================== *)

Lemma omap_total {A B} (f : A -> Outcome B) (P : B -> Prop) l :
  Forall (fun x => exists y, f x = Return y /\ P y) l ->
  exists ys, omap f l = Return ys /\ Forall P ys.
Proof.
  induction 1 as [|x r [y [Hy Py]] _ [ys [Hys Pys]]]; simpl.
  - eexists. split; [reflexivity | constructor].
  - rewrite Hy, Hys. eexists. split; [reflexivity | constructor; assumption].
Qed.

(** JSON text of a value without [toJSON] methods always exists, and an
    object or array never serialises to [undefined]. *)
Lemma stringify_plain v :
  plain v = true ->
  forall c, exists o,
    JS.stringify_prop true c v = Return o
    /\ (match v with JArray _ | JObject _ _ => o <> None | _ => True end).
Proof.
  induction v using JSValue_deep_ind; intros Hp c; simpl in Hp |- *;
    try (eexists; split; [reflexivity | exact I]).
  - destruct b; eexists; split; try reflexivity; exact I.
  - match goal with
    | |- context [match ?X with Return _ => _ | Throw _ => _ end] =>
        assert (Hel : exists ss, X = Return ss)
    end.
    { induction H as [|x r Hx _ IH]; [eexists; reflexivity|].
      simpl in Hp. apply andb_true_iff in Hp as [Hpx Hpr].
      destruct (Hx Hpx true) as [o [Ho _]]. rewrite Ho.
      destruct (IH Hpr) as [ss Hss]. rewrite Hss. eexists; reflexivity. }
    destruct Hel as [ss Hss]. rewrite Hss. eexists. split; [reflexivity | discriminate].
  - apply andb_true_iff in Hp as [Htj Hprops].
    destruct tj; try discriminate. cbn beta iota zeta.
    match goal with
    | |- context [match ?X with Return _ => _ | Throw _ => _ end] =>
        assert (Hmem : exists ss, X = Return ss)
    end.
    { induction H0 as [|kv r Hkv _ IH]; [eexists; reflexivity|].
      simpl in Hprops. apply andb_true_iff in Hprops as [Hpx Hpr].
      destruct (Hkv Hpx true) as [o [Ho _]]. rewrite Ho.
      destruct (IH Hpr) as [ss Hss]. rewrite Hss. eexists; reflexivity. }
    destruct Hmem as [ss Hss]. rewrite Hss.
    eexists. split; [reflexivity | discriminate].
Qed.

Lemma JSON_stringify_bigint_plain v :
  plain v = true ->
  match v with JArray _ | JObject _ _ => True | _ => False end ->
  exists s, JS.JSON_stringify_bigint v = Return (JString s).
Proof.
  intros Hp Hshape. unfold JS.JSON_stringify_bigint, JS.stringify_result.
  destruct (stringify_plain v Hp true) as [o [Ho Hne]]. rewrite Ho.
  destruct v; try contradiction; (destruct o; [eexists; reflexivity | contradiction]).
Qed.

Lemma serializeValue_plain v :
  plain v = true -> exists s, serializeValue v = Return (JString s).
Proof.
  induction v using JSValue_deep_ind; intro Hp; try (eexists; reflexivity).
  - simpl in Hp |- *.
    destruct (@omap_total _ _ serializeValue (fun y => True) items) as [parts [Hparts _]].
    { rewrite Forall_forall in H |- *. intros x Hx.
      rewrite forallb_forall in Hp. destruct (H x Hx (Hp x Hx)) as [s Hs].
      eexists. split; [exact Hs | exact I]. }
    rewrite Hparts. eexists. reflexivity.
  - pose proof Hp as Hp'. simpl in Hp'. apply andb_true_iff in Hp' as [Htj _].
    destruct tj; try discriminate.
    apply (JSON_stringify_bigint_plain (JObject NoToJSON props) Hp I).
Qed.

Lemma join_strings sep texts :
  JS.join sep (map JString texts) = String.concat sep texts.
Proof.
  unfold JS.join. rewrite map_map. simpl. rewrite map_id. reflexivity.
Qed.

Lemma serializeValue_array items texts :
  Forall2 (fun x s => serializeValue x = Return (JString s)) items texts ->
  serializeValue (JArray items)
    = Return (JString ("[" ++ String.concat ", " texts ++ "]")).
Proof.
  intro H. simpl.
  assert (Hm : omap serializeValue items = Return (map JString texts)).
  { induction H as [|x s r ts Hx _ IH]; simpl; [reflexivity|]. rewrite Hx, IH. reflexivity. }
  rewrite Hm, join_strings. reflexivity.
Qed.

Lemma legacy_serializeValue_plain v :
  plain v = true -> exists s, Legacy.serializeValue v = Return (JString s).
Proof.
  intro Hp. destruct v; try (eexists; reflexivity);
    apply JSON_stringify_bigint_plain; auto.
Qed.


(** What a [toJSON] method throws is passed on to the caller as it is. *)
Lemma serializeValue_toJSON_throws error props :
  serializeValue (JObject (ToJSONThrows error) props) = Throw error
  /\ serializeValue (JObject (OwnToJSONThrows error) props) = Throw error.
Proof. split; reflexivity. Qed.



(* ===================================================================== *)
(** * Results about [handleProviderError] *)
(* ===================================================================== *)

Lemma append_empty_r (s : string) : s ++ EmptyString = s.
Proof. induction s; simpl; congruence. Qed.

Lemma first_issue_message_prefix issues :
  exists rest, first_issue_message issues = first_violation issues ++ rest.
Proof.
  destruct issues as [|i r]; simpl.
  - eexists. reflexivity.
  - destruct (String.eqb (issue_message i) EmptyString) eqn:E.
    + apply String.eqb_eq in E. rewrite E. eexists. reflexivity.
    + exists EmptyString. rewrite append_empty_r. reflexivity.
Qed.

Lemma append_assoc (a b c : string) : (a ++ b) ++ c = a ++ (b ++ c).
Proof. induction a; simpl; congruence. Qed.

Lemma details_text_entries details texts :
  Forall2 (fun kv t => exists r, serializeValue (snd kv) = Return r
                                 /\ t = fst kv ++ "=" ++ JS.String_ r) details texts ->
  details_text (Some details) = Return (" Details: " ++ String.concat ", " texts).
Proof.
  intro H. unfold details_text.
  assert (Hm : omap detail_entry details = Return texts).
  { induction H as [|kv t r ts [x [Hx Ht]] _ IH]; [reflexivity|].
    simpl. unfold detail_entry at 1. rewrite Hx, IH, Ht. reflexivity. }
  rewrite Hm. reflexivity.
Qed.

Lemma details_text_fails before kv after texts raised :
  details_serialise before texts ->
  serializeValue (snd kv) = Throw raised ->
  details_text (Some (before ++ kv :: after)%list) = Throw raised.
Proof.
  intros H Hkv. unfold details_text.
  assert (Hm : omap detail_entry (before ++ kv :: after)%list = Throw raised).
  { induction H as [|x t r ts [y [Hy Ht]] _ IH].
    - cbn [app omap]. unfold detail_entry. rewrite Hkv. reflexivity.
    - cbn [app omap]. unfold detail_entry at 1. rewrite Hy, IH. reflexivity. }
  rewrite Hm. reflexivity.
Qed.

(** The details either serialise, all of them, or there is a first one
    whose serialisation throws. *)
Lemma details_cases (details : Props) :
  (exists texts, details_serialise details texts)
  \/ (exists before kv after texts raised,
        details = (before ++ kv :: after)%list
        /\ details_serialise before texts
        /\ serializeValue (snd kv) = Throw raised).
Proof.
  induction details as [|kv r IH].
  - left. exists []. constructor.
  - destruct (serializeValue (snd kv)) as [x|e] eqn:Ekv.
    + destruct IH as [[texts H]|(before & kv' & after & texts & raised & Hd & Hb & Hk)].
      * left. exists ((fst kv ++ "=" ++ JS.String_ x) :: texts).
        constructor; [exists x; split; [exact Ekv | reflexivity] | exact H].
      * right. exists (kv :: before), kv', after,
          ((fst kv ++ "=" ++ JS.String_ x) :: texts), raised.
        split; [rewrite Hd; reflexivity|]. split; [|exact Hk].
        constructor; [exists x; split; [exact Ekv | reflexivity] | exact Hb].
    + right. exists [], kv, r, [], e.
      split; [reflexivity|]. split; [constructor | exact Ekv].
Qed.

Lemma error_cases (error : Thrown) :
  is_schema_failure error = true
  \/ has_code error = true
  \/ error = ThrownValue JUndefined
  \/ error = ThrownValue JNull
  \/ (is_schema_failure error = false /\ has_code error = false
      /\ exists message, error_message_of error = Return message).
Proof.
  destruct error as [issues|e|v].
  - left. reflexivity.
  - destruct e as [n m [c|] t]; [right; left; reflexivity|].
    right. right. right. right. split; [reflexivity|]. split; [reflexivity|].
    eexists. reflexivity.
  - destruct v; try (right; right; right; right; split; [reflexivity|];
                     split; [reflexivity|]; eexists; reflexivity).
    + right. right. left. reflexivity.
    + right. right. right. left. reflexivity.
    + right. right. right. right. split; [reflexivity|]. split; [reflexivity|].
      cbn [error_message_of]. destruct (JS.get props "message"); eexists; reflexivity.
Qed.

Lemma handleProviderError_generic {A} error context details message :
  is_schema_failure error = false -> has_code error = false ->
  error_message_of error = Return message ->
  @handleProviderError A error context details
  = match details_text details with
    | Throw raised => Throw raised
    | Return detailsStr =>
        Throw (ThrownError (mkError
          ("Failed to " ++ context ++ ": " ++ message ++ detailsStr)))
    end.
Proof.
  intros Hz Hc Hm. unfold handleProviderError.
  destruct error as [issues|e|v]; [discriminate| |].
  - destruct e as [n m [c|] t]; [discriminate|]. rewrite Hm. reflexivity.
  - rewrite Hm. reflexivity.
Qed.

(** C6, as stated: whatever is thrown that is neither a schema failure nor
    an error with a code, the result is "Failed to <context>: <message>"
    with an optional suffix.  A thrown undefined has no message to read:
    the call raises the TypeError of that read.  A detail whose toJSON
    method throws makes the call raise what the method threw. *)
Lemma C6_counterexample :
  ~ (forall (A : Type) (error : Thrown) (context : string) (details : option Props),
       is_schema_failure error = false -> has_code error = false ->
       exists message suffix,
         @handleProviderError A error context details
         = Throw (ThrownError (mkError
             ("Failed to " ++ context ++ ": " ++ message ++ suffix))))
  /\ @handleProviderError unit (ThrownValue JUndefined) "fetch balance" None
     = Throw (no_message_of "undefined")
  /\ @handleProviderError unit (ThrownError (mkError "boom")) "fetch balance"
       (Some [("address", JObject (ToJSONThrows (ThrownValue (JString "no")))
                                  [])])
     = Throw (ThrownValue (JString "no")).
Proof.
  split; [|split; reflexivity].
  intro H.
  destruct (H unit (ThrownValue JUndefined) "fetch balance" None eq_refl eq_refl)
    as (message & suffix & Hm).
  discriminate Hm.
Qed.

(** C6 (amended).  handleProviderError classifies in a fixed order.  A
    schema failure gives "Invalid input format: " followed by the message
    of the first violation (by "Invalid input format" when there is no
    violation or its message is empty) and the hint on the address format.
    Otherwise an Error carrying a code property gives
    "Failed to <context>: Provider error: <message>".  Otherwise a thrown
    undefined or null makes the call raise the TypeError of reading its
    message.  Otherwise, with [message] for err.message || String(error),
    the call raises "Failed to <context>: <message>", followed, when
    details are passed, by " Details: " and the entries k=v joined by
    ", ", each v being serializeValue of the detail; when serialising a
    detail throws, the call raises what that threw, the first such.  These
    cases leave nothing out; whatever the case, the call raises exactly
    one thing and never returns. *)
Theorem C6_handleProviderError_classification :
  (forall (A : Type) issues context details,
      @handleProviderError A (ThrownZod issues) context details
      = Throw (ThrownError (mkError
          ("Invalid input format: " ++ first_issue_message issues ++ address_hint)))
      /\ (exists rest, first_issue_message issues = first_violation issues ++ rest)
      /\ (first_violation issues = EmptyString ->
          first_issue_message issues = "Invalid input format")
      /\ (first_violation issues <> EmptyString ->
          first_issue_message issues = first_violation issues))
  /\ (forall (A : Type) e context details,
        has_code (ThrownError e) = true ->
        @handleProviderError A (ThrownError e) context details
        = Throw (ThrownError (mkError
            ("Failed to " ++ context ++ ": Provider error: " ++ err_message e))))
  /\ (forall (A : Type) context details,
        @handleProviderError A (ThrownValue JUndefined) context details
        = Throw (no_message_of "undefined")
        /\ @handleProviderError A (ThrownValue JNull) context details
           = Throw (no_message_of "null"))
  /\ (forall (A : Type) error message context,
        is_schema_failure error = false ->
        has_code error = false ->
        error_message_of error = Return message ->
        @handleProviderError A error context None
        = Throw (ThrownError (mkError ("Failed to " ++ context ++ ": " ++ message)))
        /\ (forall details texts,
              details_serialise details texts ->
              @handleProviderError A error context (Some details)
              = Throw (ThrownError (mkError
                  ("Failed to " ++ context ++ ": " ++ message
                   ++ " Details: " ++ String.concat ", " texts))))
        /\ (forall before kv after texts raised,
              details_serialise before texts ->
              serializeValue (snd kv) = Throw raised ->
              @handleProviderError A error context (Some (before ++ kv :: after)%list)
              = Throw raised))
  /\ (forall e text,
        error_message_of (ThrownError e) = Return (message_or_text e)
        /\ error_message_of (ThrownValue (JString text)) = Return text)
  /\ (forall (error : Thrown) (details : Props),
        (is_schema_failure error = true
         \/ has_code error = true
         \/ error = ThrownValue JUndefined
         \/ error = ThrownValue JNull
         \/ (is_schema_failure error = false /\ has_code error = false
             /\ exists message, error_message_of error = Return message))
        /\ ((exists texts, details_serialise details texts)
            \/ (exists before kv after texts raised,
                  details = (before ++ kv :: after)%list
                  /\ details_serialise before texts
                  /\ serializeValue (snd kv) = Throw raised)))
  /\ (forall (A : Type) error context details,
        exists! raised, @handleProviderError A error context details = Throw raised).
Proof.
  split; [|split; [|split; [|split; [|split; [|split]]]]].
  - intros A issues context details.
    split; [reflexivity|]. split; [apply first_issue_message_prefix|].
    destruct issues as [|i r]; cbn [first_violation first_issue_message].
    + split; [reflexivity | intro H; contradiction H; reflexivity].
    + split.
      * intro H. rewrite H. reflexivity.
      * intro H. apply String.eqb_neq in H. rewrite H. reflexivity.
  - intros A e context details Hc. destruct e as [n m [c|] t]; [reflexivity | discriminate].
  - intros A context details. split; reflexivity.
  - intros A error message context Hz Hc Hm. split; [|split].
    + rewrite (@handleProviderError_generic A error context _ message Hz Hc Hm). cbn [details_text].
      rewrite append_empty_r. reflexivity.
    + intros details texts H.
      rewrite (@handleProviderError_generic A error context _ message Hz Hc Hm).
      unfold details_serialise, Props in *.
      rewrite (details_text_entries H). reflexivity.
    + intros before kv after texts raised Hb Hkv.
      rewrite (@handleProviderError_generic A error context _ message Hz Hc Hm).
      rewrite (@details_text_fails before kv after texts raised Hb Hkv). reflexivity.
  - intros e text. split; reflexivity.
  - intros error details. split; [apply error_cases | apply details_cases].
  - intros A error context details.
    destruct (@handleProviderError_throws A error context details) as [e He].
    exists e. split; [exact He|]. intros e' He'. congruence.
Qed.

Lemma C6_witness :
  @handleProviderError unit
      (Units.ethers_error "NETWORK_ERROR" "could not detect network")
      "fetch balance" (Some [("address", JString "0xabc")])
    = Throw (ThrownError (mkError
        "Failed to fetch balance: Provider error: could not detect network"))
  /\ @handleProviderError unit (ThrownError (mkError "boom")) "fetch balance"
      (Some [("address", JString "0xabc"); ("n", JBigInt 5)])
    = Throw (ThrownError (mkError
        "Failed to fetch balance: boom Details: address=0xabc, n=5"))
  /\ @handleProviderError unit (ThrownValue (JString "boom")) "fetch balance"
      (Some [("address", JString "0xabc");
             ("filter", JObject (OwnToJSONThrows (ThrownZod [])) []);
             ("n", JBigInt 5)])
    = Throw (ThrownZod []).
Proof.
  destruct C6_handleProviderError_classification as (_ & Hcode & _ & Hgeneric & _).
  split; [|split].
  - apply (Hcode unit
             {| err_name := "Error"; err_message := "could not detect network";
                err_code := Some "NETWORK_ERROR"; err_token := false |}
             "fetch balance" (Some [("address", JString "0xabc")])).
    reflexivity.
  - destruct (Hgeneric unit (ThrownError (mkError "boom")) "boom" "fetch balance"
                eq_refl eq_refl eq_refl) as (_ & Hd & _).
    apply (Hd [("address", JString "0xabc"); ("n", JBigInt 5)] ["address=0xabc"; "n=5"]).
    repeat constructor; eexists; split; reflexivity.
  - destruct (Hgeneric unit (ThrownValue (JString "boom")) "boom" "fetch balance"
                eq_refl eq_refl eq_refl) as (_ & _ & Hf).
    apply (Hf [("address", JString "0xabc")]
              ("filter", JObject (OwnToJSONThrows (ThrownZod [])) [])
              [("n", JBigInt 5)] ["address=0xabc"] (ThrownZod [])).
    + repeat constructor; eexists; split; reflexivity.
    + reflexivity.
Defined.

(* ===================================================================== *)
(** * Address validation comes first *)
(* ===================================================================== *)

Lemma length_list_ascii s : length (list_ascii_of_string s) = String.length s.
Proof. induction s; simpl; congruence. Qed.

Lemma address_pattern_spec s : address_pattern s = true <-> well_formed_address s.
Proof.
  unfold address_pattern, well_formed_address. split.
  - destruct s as [|c0 [|c1 body]]; simpl; try discriminate.
    intro H. repeat (apply andb_true_iff in H as [H ?]).
    apply Ascii.eqb_eq in H. apply Ascii.eqb_eq in H2. subst.
    apply Nat.eqb_eq in H1. rewrite length_list_ascii in H1.
    exists body. auto.
  - intros [body [-> [Hl Hh]]]. simpl.
    rewrite length_list_ascii, Hl, Hh. reflexivity.
Qed.

Lemma addressSchema_accepts s : address_pattern s = true -> addressSchema_parse s = Return s.
Proof. intro H. unfold addressSchema_parse. rewrite H. reflexivity. Qed.

Lemma addressSchema_rejects s :
  address_pattern s = false ->
  addressSchema_parse s = Throw (ThrownZod [{| issue_message := "Invalid" |}]).
Proof. intro H. unfold addressSchema_parse. rewrite H. reflexivity. Qed.

Section Guarded.
Variable E : Ethers.
Variable DEFAULT_PROVIDERS : list string.
Variable env : Env.
Variable erc20 : Erc20Module E.
Variable this : EthersService E.

Lemma stringify_prop_strings fragments :
  exists s, JS.stringify_prop false true (JArray (map JString fragments)) = Return (Some s).
Proof.
  simpl.
  match goal with
  | |- context [match ?X with Return _ => _ | Throw _ => _ end] =>
      assert (Hel : exists ss, X = Return ss)
  end.
  { induction fragments as [|f r [ss IH]]; [eexists; reflexivity|].
    simpl. rewrite IH. eexists; reflexivity. }
  destruct Hel as [ss Hss]. rewrite Hss. eexists. reflexivity.
Qed.

Lemma stringify_strings fragments :
  exists s, JS.JSON_stringify (JArray (map JString fragments)) = Return (JString s).
Proof.
  unfold JS.JSON_stringify, JS.stringify_result.
  destruct (stringify_prop_strings fragments) as [s Hs]. rewrite Hs.
  eexists. reflexivity.
Qed.

Lemma abi_detail_returns abi : exists a, abi_detail abi = Return a.
Proof.
  destruct abi as [text|fragments]; [eexists; reflexivity|].
  destruct (stringify_strings fragments) as [s Hs]. exists (JString s). exact Hs.
Qed.

Lemma read_call_details_plain contractAddress abi args :
  forallb plain args = true ->
  exists d, read_call_details contractAddress abi args = Return d.
Proof.
  intro Hp. unfold read_call_details.
  destruct (abi_detail_returns abi) as [a Ha]. rewrite Ha. cbn [obind].
  destruct (serializeValue_plain (JArray args) Hp) as [s Hs]. rewrite Hs.
  eexists. reflexivity.
Qed.

End Guarded.

(* ===================================================================== *)
(** * Resolution never touches the network *)
(* ===================================================================== *)

Section Resolution.
Variable E : Ethers.
Variable DEFAULT_PROVIDERS : list string.
Variable env : Env.
Variable this : EthersService E.

Lemma check_chainId_calls newProvider chainId w r w' :
  check_chainId E newProvider chainId w = (r, w') -> calls w' = calls w.
Proof.
  unfold check_chainId. run_unfold. intro H.
  destruct chainId as [c|]; [|inversion H; reflexivity].
  destruct (Z.eqb c 0); [inversion H; reflexivity|].
  destruct (network_chainId E newProvider); [|inversion H; reflexivity].
  destruct (JS.truthy a && _); inversion H; reflexivity.
Qed.

Lemma getProvider_calls provider chainId w r w' :
  getProvider DEFAULT_PROVIDERS env this provider chainId w = (r, w') ->
  calls w' = calls w.
Proof.
  unfold getProvider. run_unfold. intro H.
  destruct provider as [name|]; [|inversion H; reflexivity].
  destruct (absent (Some name)); [inversion H; reflexivity|].
  destruct (existsb _ _).
  - destruct (AlchemyProvider E _ _); [|inversion H; reflexivity].
    destruct (check_chainId E a chainId w) as [[u|e] w1] eqn:Ec;
      apply check_chainId_calls in Ec; inversion H; subst; assumption.
  - destruct (String.prefix _ _); [|inversion H; reflexivity].
    destruct (validateRpcUrl name); [|inversion H; reflexivity].
    destruct (JsonRpcProvider E name); [|inversion H; reflexivity].
    destruct (check_chainId E a0 chainId w) as [[u|e] w1] eqn:Ec;
      apply check_chainId_calls in Ec; inversion H; subst; assumption.
Qed.

Lemma getSigner_calls provider chainId signerOverride w r w' :
  getSigner DEFAULT_PROVIDERS env this provider chainId signerOverride w = (r, w') ->
  calls w' = calls w.
Proof.
  unfold getSigner. run_unfold. intro H.
  destruct signerOverride; [inversion H; reflexivity|].
  destruct (_signer this); [inversion H; reflexivity|].
  destruct (PRIVATE_KEY env) as [key|]; [|inversion H; reflexivity].
  destruct (String.eqb key EmptyString); [inversion H; reflexivity|].
  destruct (getProvider DEFAULT_PROVIDERS env this provider chainId w) as [[p|e] w1] eqn:Ep;
    apply getProvider_calls in Ep; inversion H; subst; assumption.
Qed.

(** * The value field of override-merging sends *)

(** A [catch] clause leaves the recorded calls as they are. *)
Ltac handler_keeps H :=
  steps_in H; inversion H; subst; cbn [calls]; auto.

Lemma contractCallWithOverrides_value
    contractAddress abi method args value provider overrides w r w' :
  contractCallWithOverrides DEFAULT_PROVIDERS env this contractAddress abi method args
                            value provider overrides w = (r, w') ->
  calls w' = calls w
  \/ exists parsedValue txOverrides,
       Units.parseEther value = Return parsedValue
       /\ value_field txOverrides = Some (JBigInt parsedValue)
       /\ calls w' = (calls w ++ [CallContractMethod contractAddress method args txOverrides])%list.
Proof.
  unfold contractCallWithOverrides, method_not_found. run_unfold. intro H.
  destruct (addressSchema_parse contractAddress) eqn:Ea; cbn beta iota in H.
  2:{ left. handler_keeps H. }
  destruct (getSigner DEFAULT_PROVIDERS env this provider None None w) as [[s|e] w1] eqn:Es;
    apply getSigner_calls in Es.
  2:{ left. handler_keeps H. }
  destruct (Contract_interface E (JString abi)) eqn:Ec.
  2:{ left. handler_keeps H. }
  destruct (Units.parseEther value) as [parsedValue|] eqn:Ev.
  2:{ left. handler_keeps H. }
  destruct (getFunction E a0 method) as [[f|]|] eqn:Ef.
  2,3: (left; handler_keeps H).
  destruct (rpc_contractMethod E s contractAddress method args _) eqn:Er.
  - right. inversion H; subst. cbn [calls]. rewrite Es.
    eexists. eexists. split; [reflexivity|]. split; [|reflexivity].
    apply get_set_same.
  - right. steps_in H; inversion H; subst; cbn [calls]; rewrite Es;
      (eexists; eexists; split; [reflexivity|]; split; [|reflexivity]; apply get_set_same).
Qed.

Lemma contractSendTransactionWithOverrides_value
    contractAddress abi method args value provider overrides w r w' :
  contractSendTransactionWithOverrides DEFAULT_PROVIDERS env this contractAddress abi method
                                       args value provider overrides w = (r, w') ->
  calls w' = calls w
  \/ exists parsedValue txOverrides,
       Units.parseEther value = Return parsedValue
       /\ value_field txOverrides = Some (JBigInt parsedValue)
       /\ calls w' = (calls w ++ [CallContractMethod contractAddress method args txOverrides])%list.
Proof.
  unfold contractSendTransactionWithOverrides, method_not_found. run_unfold. intro H.
  unfold addressSchema_parse in H.
  destruct (address_pattern contractAddress) eqn:Ea; cbn beta iota in H.
  2:{ left. handler_keeps H. }
  destruct (getSigner DEFAULT_PROVIDERS env this provider None None w) as [[s|e] w1] eqn:Es;
    apply getSigner_calls in Es.
  2:{ left. handler_keeps H. }
  destruct (Contract_interface E (JString abi)) eqn:Ec.
  2:{ left. handler_keeps H. }
  destruct (Units.parseEther value) as [parsedValue|] eqn:Ev.
  2:{ left. handler_keeps H. }
  destruct (getFunction E a method) as [[f|]|] eqn:Ef.
  2,3: (left; handler_keeps H).
  destruct (encodeFunctionData E a f args) eqn:Ee.
  2:{ left. handler_keeps H. }
  destruct (rpc_contractMethod E s contractAddress method args _) eqn:Er.
  - right. inversion H; subst. cbn [calls]. rewrite Es.
    eexists. eexists. split; [reflexivity|]. split; [|reflexivity].
    apply get_set_same.
  - right. steps_in H; inversion H; subst; cbn [calls]; rewrite Es;
      (eexists; eexists; split; [reflexivity|]; split; [|reflexivity]; apply get_set_same).
Qed.

(** contractSendTransaction hands the signer the computed fields with
    the overrides spread over them. *)
Lemma contractSendTransaction_request
    contractAddress abi method args value provider overrides w r w' :
  contractSendTransaction DEFAULT_PROVIDERS env this contractAddress abi method args
                          value provider overrides w = (r, w') ->
  calls w' = calls w
  \/ exists parsedValue data,
       Units.parseEther value = Return parsedValue
       /\ calls w'
          = (calls w ++
             [CallSendTransaction
                (JS.spread [("to", JString contractAddress); ("data", JString data);
                            ("value", JBigInt parsedValue)]
                           (overrides_props overrides))])%list.
Proof.
  unfold contractSendTransaction, method_not_found. run_unfold. intro H.
  destruct (addressSchema_parse contractAddress) eqn:Ea; cbn beta iota in H.
  2:{ left. handler_keeps H. }
  destruct (getSigner DEFAULT_PROVIDERS env this provider None None w) as [[s|e] w1] eqn:Es;
    apply getSigner_calls in Es.
  2:{ left. handler_keeps H. }
  destruct (Contract_interface E (JString abi)) eqn:Ec.
  2:{ left. handler_keeps H. }
  destruct (Units.parseEther value) as [parsedValue|] eqn:Ev.
  2:{ left. handler_keeps H. }
  destruct (getFunction E a0 method) as [[f|]|] eqn:Ef.
  2,3: (left; handler_keeps H).
  destruct (encodeFunctionData E a0 f args) as [data|] eqn:Ee.
  2:{ left. handler_keeps H. }
  destruct (rpc_sendTransaction E s _) eqn:Er.
  - right. inversion H; subst. cbn [calls]. rewrite Es.
    exists parsedValue, data. split; reflexivity.
  - right. steps_in H; inversion H; subst; cbn [calls]; rewrite Es;
      (exists parsedValue, data; split; reflexivity).
Qed.

(** An overrides object with a value entry decides the value of that request. *)
Lemma spread_value_from_overrides contractAddress data parsedValue v :
  value_field
    (JS.spread [("to", JString contractAddress); ("data", JString data);
                ("value", JBigInt parsedValue)]
               [("value", v)]) = Some v.
Proof. reflexivity. Qed.

End Resolution.

(** C1 at contractSendTransaction.  The amount is "0" and the overrides
    carry a value of 5: the request handed to the signer has value 5, not
    the conversion of "0".  The overrides are spread after the computed
    value there, while contractCallWithOverrides and
    contractSendTransactionWithOverrides spread them before it. *)
Theorem C1_contractSendTransaction_takes_value_from_overrides :
  Units.parseEther "0" = Return 0%Z
  /\ exists r w' tx,
       contractSendTransaction Stub.providers Stub.env_full Stub.service Stub.address_a
         "[]" "deposit" [] "0" None (Some [("value", JBigInt 5)]) initial_world = (r, w')
       /\ submitted (calls w') = [tx]
       /\ value_field tx = Some (JBigInt 5).
Proof.
  split; [vm_compute; reflexivity|].
  eexists. eexists. eexists. split; [vm_compute; reflexivity|].
  split; reflexivity.
Qed.

(* ===================================================================== *)
(** * Provider resolution *)
(* ===================================================================== *)

Section ProviderResolution.
Variable E : Ethers.
Variable DEFAULT_PROVIDERS : list string.
Variable env : Env.
Variable this : EthersService E.

Lemma absent_false name : name <> EmptyString -> absent (Some name) = false.
Proof. intro H. simpl. apply String.eqb_neq. exact H. Qed.

(** An absent identifier gives the preconfigured provider. *)
Lemma getProvider_absent provider chainId w :
  absent provider = true ->
  getProvider DEFAULT_PROVIDERS env this provider chainId w = (Return (_provider this), w).
Proof.
  intro H. unfold getProvider. destruct provider as [name|]; [|reflexivity].
  rewrite H. reflexivity.
Qed.

(** A supported name goes to the Alchemy constructor with whatever key
    the environment holds, checked or not. *)
Lemma getProvider_supported name w p :
  supported DEFAULT_PROVIDERS name ->
  AlchemyProvider E (getEthersNetworkName name) (ALCHEMY_API_KEY env) = Return p ->
  getProvider DEFAULT_PROVIDERS env this (Some name) None w = (Return p, w).
Proof.
  intros [Hin Hne] Hp. unfold getProvider. rewrite (absent_false Hne), Hin.
  run_unfold. rewrite Hp. reflexivity.
Qed.

(** A URL that does not match the pattern is refused, with the format
    error inside the normalised one. *)
Lemma getProvider_invalid_url name chainId w :
  name <> EmptyString ->
  existsb (String.eqb name) DEFAULT_PROVIDERS = false ->
  String.prefix "http" name = true ->
  rpc_url_pattern name = false ->
  getProvider DEFAULT_PROVIDERS env this (Some name) chainId w
  = (Throw (ThrownError (mkError
       ("Failed to create provider with RPC URL " ++ name ++ ": "
        ++ "Invalid RPC URL format: " ++ name
        ++ ". URL must start with http:// or https:// and include a valid domain."))), w).
Proof.
  intros Hne Hin Hp Hu. unfold getProvider. rewrite (absent_false Hne), Hin, Hp.
  run_unfold. unfold validateRpcUrl. rewrite Hu. cbn.
  rewrite append_empty_r. reflexivity.
Qed.

(** A URL that matches is opened directly. *)
Lemma getProvider_url name w p :
  name <> EmptyString ->
  existsb (String.eqb name) DEFAULT_PROVIDERS = false ->
  String.prefix "http" name = true ->
  rpc_url_pattern name = true ->
  JsonRpcProvider E name = Return p ->
  getProvider DEFAULT_PROVIDERS env this (Some name) None w = (Return p, w).
Proof.
  intros Hne Hin Hp Hu Hj. unfold getProvider. rewrite (absent_false Hne), Hin, Hp.
  run_unfold. unfold validateRpcUrl. rewrite Hu, Hj. reflexivity.
Qed.

(** Anything else is refused with a message that lists the supported names. *)
Lemma getProvider_unknown name chainId w :
  name <> EmptyString ->
  existsb (String.eqb name) DEFAULT_PROVIDERS = false ->
  String.prefix "http" name = false ->
  getProvider DEFAULT_PROVIDERS env this (Some name) chainId w
  = (Throw (ThrownError (mkError
       ("Invalid provider: " ++ name ++ ". Must be either:" ++ nl
        ++ "1. A supported network name (" ++ String.concat ", " DEFAULT_PROVIDERS ++ ")" ++ nl
        ++ "2. A valid RPC URL starting with http:// or https://"))), w).
Proof.
  intros Hne Hin Hp. unfold getProvider. rewrite (absent_false Hne), Hin, Hp. reflexivity.
Qed.

(** The chain-id check on a fresh connection. *)
Lemma check_chainId_mismatch p hint pc c w :
  hint <> 0%Z ->
  network_chainId E p = Return pc ->
  pc = JBigInt c \/ pc = JNumber c ->
  c <> 0%Z -> c <> hint ->
  check_chainId E p (Some hint) w
  = (Return tt, warned w (chain_mismatch_warning hint pc)).
Proof.
  intros Hh Hpc Hshape Hc Hne. unfold check_chainId. run_unfold.
  apply Z.eqb_neq in Hh. rewrite Hh, Hpc.
  apply Z.eqb_neq in Hc. apply Z.eqb_neq in Hne.
  destruct Hshape as [-> | ->]; simpl; rewrite Hc; simpl; [reflexivity|].
  rewrite Hne. reflexivity.
Qed.

(** A chain id that the library reports as a [bigint] is never strictly
    equal to the hint, a number: the warning is recorded for an equal hint
    too. *)
Lemma check_chainId_bigint_equal_hint p c w :
  c <> 0%Z ->
  network_chainId E p = Return (JBigInt c) ->
  check_chainId E p (Some c) w
  = (Return tt, warned w (chain_mismatch_warning c (JBigInt c))).
Proof.
  intros Hc Hpc. unfold check_chainId. run_unfold.
  apply Z.eqb_neq in Hc. rewrite Hc, Hpc. simpl. rewrite Hc. reflexivity.
Qed.

Lemma getProvider_mismatch name hint p pc c w :
  supported DEFAULT_PROVIDERS name ->
  AlchemyProvider E (getEthersNetworkName name) (ALCHEMY_API_KEY env) = Return p ->
  hint <> 0%Z ->
  network_chainId E p = Return pc ->
  pc = JBigInt c \/ pc = JNumber c ->
  c <> 0%Z -> c <> hint ->
  getProvider DEFAULT_PROVIDERS env this (Some name) (Some hint) w
  = (Return p, warned w (chain_mismatch_warning hint pc)).
Proof.
  intros [Hin Hne] Hp Hh Hpc Hshape Hc Hd.
  unfold getProvider. rewrite (absent_false Hne), Hin.
  unfold try_catch, bind at 1, lift at 1. rewrite Hp.
  unfold bind, ret.
  rewrite (check_chainId_mismatch p w Hh Hpc Hshape Hc Hd). reflexivity.
Qed.

Lemma getProvider_zero_hint name p w :
  supported DEFAULT_PROVIDERS name ->
  AlchemyProvider E (getEthersNetworkName name) (ALCHEMY_API_KEY env) = Return p ->
  getProvider DEFAULT_PROVIDERS env this (Some name) (Some 0%Z) w = (Return p, w).
Proof.
  intros [Hin Hne] Hp. unfold getProvider. rewrite (absent_false Hne), Hin.
  run_unfold. rewrite Hp. reflexivity.
Qed.

End ProviderResolution.

(** The earlier revision does check the key: with none configured, a
    supported name fails, and the message names INFURA_API_KEY. *)
Lemma legacy_getProvider_missing_key (E : Ethers) env (defaultProvider : Provider E) name :
  existsb (String.eqb name) Legacy.DEFAULT_PROVIDERS = true ->
  name <> EmptyString ->
  INFURA_API_KEY env = None ->
  Legacy.getProvider E env defaultProvider (Some name)
  = Throw (ThrownError (mkError
      ("Failed to create Infura provider for network " ++ name ++ ": "
       ++ "Failed to create Infura provider for network " ++ name ++ ": "
       ++ "Missing INFURA_API_KEY in environment variables."))).
Proof.
  intros Hin Hne Hk. unfold Legacy.getProvider.
  rewrite (absent_false Hne), Hin.
  unfold Legacy.createInfuraProvider, Legacy.getInfuraApiKey. rewrite Hk. cbn.
  rewrite !append_empty_r. reflexivity.
Qed.

(** C3 at a supported name with no ALCHEMY_API_KEY in the environment:
    getProvider raises no missing-credential error.  It hands the absent
    key to the AlchemyProvider constructor and returns what that builds.
    The class's own getAlchemyApiKey and createAlchemyProvider, and the
    earlier getProvider built on Infura, do refuse a missing key. *)
Theorem C3_getProvider_accepts_missing_key :
  forall (E : Ethers) DEFAULT_PROVIDERS env (this : EthersService E) name w p,
    supported DEFAULT_PROVIDERS name ->
    ALCHEMY_API_KEY env = None ->
    AlchemyProvider E (getEthersNetworkName name) None = Return p ->
    getProvider DEFAULT_PROVIDERS env this (Some name) None w = (Return p, w).
Proof.
  intros E DP env this name w p Hs Hk Hp.
  apply getProvider_supported; [exact Hs|]. rewrite Hk. exact Hp.
Qed.

Lemma C3_witness :
  getProvider Stub.providers Stub.env_empty Stub.service (Some "mainnet") None initial_world
    = (Return {| Stub.sp_label := "alchemy:mainnet"; Stub.sp_chainId := JBigInt 1 |},
       initial_world)
  /\ Legacy.getProvider Stub.ethers Stub.env_empty Stub.preset (Some "mainnet")
     = Throw (ThrownError (mkError
         ("Failed to create Infura provider for network mainnet: "
          ++ "Failed to create Infura provider for network mainnet: "
          ++ "Missing INFURA_API_KEY in environment variables."))).
Proof.
  split.
  - apply (@C3_getProvider_accepts_missing_key Stub.ethers Stub.providers Stub.env_empty
             Stub.service "mainnet" initial_world).
    + split; [reflexivity | discriminate].
    + reflexivity.
    + reflexivity.
  - vm_compute. reflexivity.
Defined.

(* ===================================================================== *)
(** * Signer resolution *)
(* ===================================================================== *)

Section SignerResolution.
Variable E : Ethers.
Variable DEFAULT_PROVIDERS : list string.
Variable env : Env.
Variable this : EthersService E.

Lemma getSigner_override provider chainId s w :
  getSigner DEFAULT_PROVIDERS env this provider chainId (Some s) w = (Return s, w).
Proof. reflexivity. Qed.

Lemma getSigner_instance provider chainId s w :
  _signer this = Some s ->
  getSigner DEFAULT_PROVIDERS env this provider chainId None w = (Return s, w).
Proof. intro H. unfold getSigner. rewrite H. reflexivity. Qed.

Lemma getSigner_missing provider chainId w :
  _signer this = None ->
  absent (PRIVATE_KEY env) = true ->
  getSigner DEFAULT_PROVIDERS env this provider chainId None w
  = (Throw (ThrownError (mkError missing_private_key)), w).
Proof.
  intros Hs Hk. unfold getSigner. rewrite Hs.
  destruct (PRIVATE_KEY env) as [key|]; [|reflexivity].
  simpl in Hk. rewrite Hk. reflexivity.
Qed.

Lemma getSigner_environment provider chainId key w s w' :
  _signer this = None ->
  PRIVATE_KEY env = Some key -> key <> EmptyString ->
  getSigner DEFAULT_PROVIDERS env this provider chainId None w = (Return s, w') ->
  exists p,
    getProvider DEFAULT_PROVIDERS env this provider chainId w = (Return p, w')
    /\ Wallet E key p = Return s
    /\ signer_provider E s = Some p.
Proof.
  intros Hs Hk Hne H. unfold getSigner in H. rewrite Hs, Hk in H.
  apply String.eqb_neq in Hne. rewrite Hne in H. run_unfold.
  destruct (getProvider DEFAULT_PROVIDERS env this provider chainId w) as [[p|e] w1];
    [|discriminate].
  destruct (Wallet E key p) as [s0|] eqn:Ew; [|discriminate].
  inversion H; subst. exists p.
  split; [reflexivity | split; [exact Ew | eapply Wallet_provider; exact Ew]].
Qed.

Lemma getSigner_environment_run provider chainId key w :
  _signer this = None ->
  PRIVATE_KEY env = Some key -> key <> EmptyString ->
  getSigner DEFAULT_PROVIDERS env this provider chainId None w
  = match getProvider DEFAULT_PROVIDERS env this provider chainId w with
    | (Return p, w1) => (Wallet E key p, w1)
    | (Throw e, w1) => (Throw e, w1)
    end.
Proof.
  intros Hs Hk Hne. unfold getSigner. rewrite Hs, Hk.
  apply String.eqb_neq in Hne. rewrite Hne. run_unfold.
  destruct (getProvider DEFAULT_PROVIDERS env this provider chainId w) as [[p|e] w1];
    reflexivity.
Qed.

End SignerResolution.

(** C4, as stated: an override signer bound to the preset connection is
    returned as it is for the identifier "mainnet", which resolves to
    another connection. *)
Lemma C4_counterexample :
  ~ (forall provider chainId signerOverride s w',
       getSigner Stub.providers Stub.env_full Stub.service provider chainId signerOverride
                 initial_world = (Return s, w') ->
       exists p w1,
         getProvider Stub.providers Stub.env_full Stub.service provider chainId initial_world
           = (Return p, w1)
         /\ signer_provider Stub.ethers s = Some p).
Proof.
  intro H.
  destruct (H (Some "mainnet") None (Some ("key", Stub.preset)) ("key", Stub.preset)
              initial_world eq_refl) as (p & w1 & Hp & Hs).
  vm_compute in Hp. inversion Hp; subst. discriminate Hs.
Qed.

(** C4 (amended).  getSigner follows the precedence explicit override,
    then instance-bound signer, then the PRIVATE_KEY of the environment;
    with all three absent it fails with an error whose message names
    PRIVATE_KEY.  An override or an instance-bound signer is returned as it
    is, without provider resolution.  With neither and a PRIVATE_KEY set,
    getSigner resolves the provider for the same identifier and chain-id
    hint and returns the wallet built from the key on that connection, to
    which the wallet is bound; it fails as provider resolution fails or as
    the wallet constructor fails, and returns no other way. *)
Theorem C4_getSigner_precedence :
  forall (E : Ethers) DEFAULT_PROVIDERS env (this : EthersService E) provider chainId w,
    (forall s,
        getSigner DEFAULT_PROVIDERS env this provider chainId (Some s) w = (Return s, w))
    /\ (forall s,
          _signer this = Some s ->
          getSigner DEFAULT_PROVIDERS env this provider chainId None w = (Return s, w))
    /\ (forall key,
          _signer this = None ->
          PRIVATE_KEY env = Some key -> key <> EmptyString ->
          (forall p w1 s,
              getProvider DEFAULT_PROVIDERS env this provider chainId w = (Return p, w1) ->
              Wallet E key p = Return s ->
              getSigner DEFAULT_PROVIDERS env this provider chainId None w = (Return s, w1)
              /\ signer_provider E s = Some p)
          /\ (forall p w1 e,
                getProvider DEFAULT_PROVIDERS env this provider chainId w = (Return p, w1) ->
                Wallet E key p = Throw e ->
                getSigner DEFAULT_PROVIDERS env this provider chainId None w = (Throw e, w1))
          /\ (forall e w1,
                getProvider DEFAULT_PROVIDERS env this provider chainId w = (Throw e, w1) ->
                getSigner DEFAULT_PROVIDERS env this provider chainId None w = (Throw e, w1))
          /\ (forall s w',
                getSigner DEFAULT_PROVIDERS env this provider chainId None w = (Return s, w') ->
                exists p,
                  getProvider DEFAULT_PROVIDERS env this provider chainId w = (Return p, w')
                  /\ Wallet E key p = Return s
                  /\ signer_provider E s = Some p))
    /\ (_signer this = None ->
        absent (PRIVATE_KEY env) = true ->
        getSigner DEFAULT_PROVIDERS env this provider chainId None w
          = (Throw (ThrownError (mkError missing_private_key)), w)
        /\ includes "PRIVATE_KEY" missing_private_key = true).
Proof.
  intros E DP env this provider chainId w. split; [|split; [|split]].
  - intro s. apply getSigner_override.
  - intros s Hs. apply getSigner_instance. exact Hs.
  - intros key Hs Hk Hne.
    pose proof (@getSigner_environment_run E DP env this provider chainId key w Hs Hk Hne)
      as Hrun.
    split; [|split; [|split]].
    + intros p w1 s Hp Hw. rewrite Hrun, Hp, Hw.
      split; [reflexivity | eapply Wallet_provider; exact Hw].
    + intros p w1 e Hp Hw. rewrite Hrun, Hp, Hw. reflexivity.
    + intros e w1 Hp. rewrite Hrun, Hp. reflexivity.
    + intros s w' H. eapply getSigner_environment; eassumption.
  - intros Hs Hk. split; [apply getSigner_missing; assumption | vm_compute; reflexivity].
Qed.

Lemma C4_witness :
  getSigner Stub.providers Stub.env_full Stub.service (Some "sepolia") None None
            initial_world
  = (Return ("0x0123456789012345678901234567890123456789012345678901234567890123",
             {| Stub.sp_label := "alchemy:sepolia"; Stub.sp_chainId := JBigInt 11155111 |}),
     initial_world)
  /\ signer_provider Stub.ethers
       ("0x0123456789012345678901234567890123456789012345678901234567890123",
        {| Stub.sp_label := "alchemy:sepolia"; Stub.sp_chainId := JBigInt 11155111 |})
     = Some {| Stub.sp_label := "alchemy:sepolia"; Stub.sp_chainId := JBigInt 11155111 |}
  /\ getSigner Stub.providers Stub.env_full Stub.service (Some "ftp://node") None None
               initial_world
     = (Throw (ThrownError (mkError (invalid_provider_message Stub.providers "ftp://node"))),
        initial_world)
  /\ getSigner Stub.providers Stub.env_empty Stub.service (Some "sepolia") None None
               initial_world
     = (Throw (ThrownError (mkError missing_private_key)), initial_world).
Proof.
  destruct (@C4_getSigner_precedence Stub.ethers Stub.providers Stub.env_full Stub.service
              (Some "sepolia") None initial_world) as (_ & _ & Henv & _).
  destruct (@C4_getSigner_precedence Stub.ethers Stub.providers Stub.env_full Stub.service
              (Some "ftp://node") None initial_world) as (_ & _ & Hfail & _).
  destruct (@C4_getSigner_precedence Stub.ethers Stub.providers Stub.env_empty Stub.service
              (Some "sepolia") None initial_world) as (_ & _ & _ & Hmissing).
  destruct (Henv "0x0123456789012345678901234567890123456789012345678901234567890123"
              eq_refl eq_refl) as (Hrun & _); [discriminate|].
  destruct (Hfail "0x0123456789012345678901234567890123456789012345678901234567890123"
              eq_refl eq_refl) as (_ & _ & Hthrow & _); [discriminate|].
  split; [|split; [|split]].
  - apply (Hrun {| Stub.sp_label := "alchemy:sepolia"; Stub.sp_chainId := JBigInt 11155111 |}
                initial_world
                ("0x0123456789012345678901234567890123456789012345678901234567890123",
                 {| Stub.sp_label := "alchemy:sepolia";
                    Stub.sp_chainId := JBigInt 11155111 |})); reflexivity.
  - apply (Hrun {| Stub.sp_label := "alchemy:sepolia"; Stub.sp_chainId := JBigInt 11155111 |}
                initial_world
                ("0x0123456789012345678901234567890123456789012345678901234567890123",
                 {| Stub.sp_label := "alchemy:sepolia";
                    Stub.sp_chainId := JBigInt 11155111 |})); reflexivity.
  - apply Hthrow. reflexivity.
  - apply Hmissing; reflexivity.
Defined.

(* ===================================================================== *)
(** * The chain-id hint *)
(* ===================================================================== *)

(** C5, as stated: a hint of 0 differs from mainnet's chain id, and no
    warning is recorded. *)
Lemma C5_counterexample :
  ~ (forall hint,
       hint <> 1%Z ->
       exists p w',
         getProvider Stub.providers Stub.env_full Stub.service (Some "mainnet") (Some hint)
                     initial_world = (Return p, w')
         /\ network_chainId Stub.ethers p = Return (JBigInt 1)
         /\ warnings w' <> []).
Proof.
  intro H. destruct (H 0%Z) as (p & w' & Hp & _ & Hw); [discriminate|].
  vm_compute in Hp. inversion Hp; subst. apply Hw. reflexivity.
Qed.

(** C5 (amended).  For a supported network name whose connection the
    library constructs and which reports its chain id c (not 0), every hint
    other than 0 that differs from c leaves resolution successful: the
    constructed connection is returned as it is (the hint changes nothing
    in it) and one mismatch warning is recorded.  A hint of 0 counts as no
    hint: the same connection is returned and nothing is recorded.  It is
    not the only tolerated failure: contractEvents hands back, undecoded,
    a record whose decoding throws. *)
Theorem C5_chain_hint_mismatch_warns :
  forall (E : Ethers) DEFAULT_PROVIDERS env (this : EthersService E) name p w,
    supported DEFAULT_PROVIDERS name ->
    AlchemyProvider E (getEthersNetworkName name) (ALCHEMY_API_KEY env) = Return p ->
    (forall hint pc c,
        hint <> 0%Z ->
        network_chainId E p = Return pc ->
        pc = JBigInt c \/ pc = JNumber c ->
        c <> 0%Z -> c <> hint ->
        getProvider DEFAULT_PROVIDERS env this (Some name) (Some hint) w
          = (Return p, warned w (chain_mismatch_warning hint pc)))
    /\ getProvider DEFAULT_PROVIDERS env this (Some name) (Some 0%Z) w = (Return p, w)
    /\ (forall (contract : Interface E) log e,
          parseLog E contract (option_value (JS.get (object_props log) "topics"))
                              (option_value (JS.get (object_props log) "data")) = Throw e ->
          decode_log E contract log = log).
Proof.
  intros E DP env this name p w Hs Hp. split; [|split].
  - intros hint pc c Hh Hpc Hshape Hc Hd. eapply getProvider_mismatch; eassumption.
  - apply getProvider_zero_hint; assumption.
  - intros contract log e H. unfold decode_log. cbv zeta.
    change (match log with JObject _ p0 => p0 | _ => [] end) with (object_props log).
    rewrite H. reflexivity.
Qed.

Lemma C5_witness :
  getProvider Stub.providers Stub.env_full Stub.service (Some "mainnet") (Some 5%Z)
              initial_world
  = (Return {| Stub.sp_label := "alchemy:mainnet"; Stub.sp_chainId := JBigInt 1 |},
     {| calls := [];
        warnings := ["Chain ID mismatch: specified 5 but provider network is 1, using provider's chain ID"] |}).
Proof.
  destruct (@C5_chain_hint_mismatch_warns Stub.ethers Stub.providers Stub.env_full Stub.service
              "mainnet" {| Stub.sp_label := "alchemy:mainnet"; Stub.sp_chainId := JBigInt 1 |}
              initial_world) as (Hwarn & _ & _).
  - split; [reflexivity | discriminate].
  - reflexivity.
  - apply (Hwarn 5%Z (JBigInt 1) 1%Z).
    + discriminate.
    + reflexivity.
    + left. reflexivity.
    + discriminate.
    + discriminate.
Defined.

(* ===================================================================== *)
(** * Log queries *)
(* ===================================================================== *)

Section Events.
Variable E : Ethers.
Variable DEFAULT_PROVIDERS : list string.
Variable env : Env.
Variable this : EthersService E.

(** What [handleProviderError] gives is an exception. *)
Ltac handler_throws :=
  match goal with
  | |- context [@handleProviderError ?A ?e ?c ?d] =>
      let x := fresh "raised" in
      let Hx := fresh "Hraised" in
      destruct (@handleProviderError_throws A e c d) as [x Hx]; rewrite Hx
  end.

(** The scrutinee a term is stuck on, innermost first. *)
Ltac innermost x k :=
  lazymatch x with
  | context [match ?y with _ => _ end] => innermost y k
  | _ => k x
  end.

(** One step of a run recorded in [H]: a call of [handleProviderError]
    raises; anything else is a case analysis. *)
Ltac settle_step H :=
  match type of H with
  | context [@handleProviderError ?A ?e ?c ?d] =>
      let x := fresh "raised" in
      let Hx := fresh "Hraised" in
      destruct (@handleProviderError_throws A e c d) as [x Hx];
      rewrite Hx in H; clear Hx; cbn beta iota in H
  | context [match ?x with _ => _ end] =>
      innermost x ltac:(fun y =>
        let Ey := fresh "Ey" in
        destruct y eqn:Ey; cbn beta iota in H; try discriminate H)
  end.

(** A failing branch: the [catch] clause raises, the calls stay. *)
Ltac fails_here H :=
  run_unfold; repeat (settle_step H); inversion H; subst; cbn [calls]; split;
  eauto; try congruence.

(** A run of queryLogs either fails before the fetch, or makes exactly one
    fetch, with the caller's topics and block range. *)
Lemma queryLogs_run address topics fromBlock toBlock provider chainId w r w' :
  queryLogs DEFAULT_PROVIDERS env this address topics fromBlock toBlock provider chainId w
    = (r, w') ->
  ((exists e, r = Throw e) /\ calls w' = calls w)
  \/ exists selectedProvider checksummedAddress,
       let filter := {| filter_address := checksummedAddress; filter_topics := topics;
                        filter_fromBlock := fromBlock; filter_toBlock := toBlock |} in
       calls w' = (calls w ++ [CallGetLogs filter])%list
       /\ match r with
          | Return events =>
              exists logs, rpc_getLogs E selectedProvider filter = Return logs
                           /\ events = map formatEvent logs
          | Throw _ => True
          end.
Proof.
  unfold queryLogs. unfold try_catch at 1. unfold bind at 1. intro H.
  match type of H with
  | context [match ?X w with _ => _ end] => destruct (X w) as [[ca|e] w0] eqn:Eaddr
  end.
  2:{ left.
      assert (Hw0 : calls w0 = calls w).
      { clear H. destruct address as [a|]; [|inversion Eaddr].
        destruct (absent (Some a)); [inversion Eaddr|].
        run_unfold. destruct (getAddress E a); inversion Eaddr; reflexivity. }
      fails_here H. }
  assert (Hw0 : w0 = w).
  { clear H. destruct address as [a|]; [|inversion Eaddr; reflexivity].
    destruct (absent (Some a)); [inversion Eaddr; reflexivity|].
    run_unfold. destruct (getAddress E a); inversion Eaddr; reflexivity. }
  subst w0. unfold bind at 1 in H.
  destruct (getProvider DEFAULT_PROVIDERS env this provider chainId w) as [[p|e] w1] eqn:Ep;
    apply getProvider_calls in Ep.
  2:{ left. fails_here H. }
  right. exists p, ca. cbv zeta. run_unfold.
  destruct (rpc_getLogs E p _) as [logs|e] eqn:El.
  - inversion H; subst. cbn [calls]. rewrite Ep. split; [reflexivity|].
    exists logs. split; reflexivity.
  - steps_in H; inversion H; subst; cbn [calls]; rewrite Ep; split; auto.
    handler_throws. exact I.
Qed.

Lemma decode_log_raw (contract : Interface E) log e :
  parse_record E contract log = Throw e -> decode_log E contract log = log.
Proof.
  unfold parse_record. intro H. unfold decode_log. cbv zeta.
  change (match log with JObject _ p0 => p0 | _ => [] end) with (object_props log).
  rewrite H. reflexivity.
Qed.

Lemma decode_log_decoded (contract : Interface E) log d :
  parse_record E contract log = Return (Some d) ->
  decoded_as d (decode_log E contract log).
Proof.
  unfold parse_record. intro H. unfold decoded_as, decode_log. cbv zeta.
  change (match log with JObject _ p0 => p0 | _ => [] end) with (object_props log).
  rewrite H. cbn [object_props event_object]. split.
  - rewrite get_set_other by reflexivity. apply get_set_same.
  - apply get_set_same.
Qed.

(** A run of contractEvents with an event name. *)
Lemma contractEvents_named
    contractAddress abi name topics fromBlock toBlock provider chainId w r w' :
  name <> EmptyString ->
  contractEvents DEFAULT_PROVIDERS env this contractAddress abi (Some name) topics
                 fromBlock toBlock provider chainId w = (r, w') ->
  ((exists e, r = Throw e) /\ calls w' = calls w)
  \/ exists contract f selectedProvider checksummedAddress,
       let filter := {| filter_address := checksummedAddress;
                        filter_topics := Some (event_topics f topics);
                        filter_fromBlock := fromBlock; filter_toBlock := toBlock |} in
       Contract_interface E (abi_value abi) = Return contract
       /\ getEvent E contract name = Return (Some f)
       /\ calls w' = (calls w ++ [CallGetLogs filter])%list
       /\ match r with
          | Return events =>
              exists logs, rpc_getLogs E selectedProvider filter = Return logs
                           /\ events = map (decode_log E contract) (map formatEvent logs)
          | Throw _ => True
          end.
Proof.
  intros Hne H. unfold contractEvents in H.
  rewrite (absent_false Hne) in H.
  unfold bind at 1, try_catch at 1, bind at 1, lift at 1 in H.
  destruct (getAddress E contractAddress) as [c|e] eqn:Ea.
  2:{ left. fails_here H. }
  unfold bind at 1 in H.
  destruct (getProvider DEFAULT_PROVIDERS env this provider chainId w) as [[p|e] w1] eqn:Ep;
    apply getProvider_calls in Ep.
  2:{ left. fails_here H. }
  unfold bind at 1, lift at 1 in H.
  destruct (Contract_interface E (abi_value abi)) as [contract|e] eqn:Ec.
  2:{ left. fails_here H. }
  unfold bind at 1, lift at 1 in H.
  destruct (getEvent E contract name) as [[f|]|e] eqn:Ef.
  2,3: (left; fails_here H).
  cbv zeta in H. unfold bind at 1 in H.
  fold (event_topics f topics) in H.
  destruct (queryLogs DEFAULT_PROVIDERS env this (Some c) (Some (event_topics f topics))
              fromBlock toBlock provider chainId w1) as [r1 w2] eqn:Eq.
  apply queryLogs_run in Eq.
  destruct Eq as [[[e He] Hw]|(p' & ca & Hw & Hr)].
  - left. subst r1. fails_here H.
  - right. exists contract, f, p', ca. cbv zeta in Hw, Hr |- *.
    split; [first [exact Ec | reflexivity]|]. split; [first [exact Ef | reflexivity]|].
    destruct r1 as [evs|e].
    + run_unfold. inversion H; subst. split; [congruence|].
      destruct Hr as [logs [Hl Hevs]]. exists logs. subst evs. split; [exact Hl | reflexivity].
    + run_unfold. repeat (settle_step H); inversion H; subst; (split; [congruence|]);
        exact I.
Qed.

(** The run of contractEvents with an event name in which every step
    succeeds. *)
Lemma contractEvents_named_run
    contractAddress abi name topics fromBlock toBlock provider chainId w
    checksummed selectedProvider w1 contract f queried queryProvider w2 logs :
  name <> EmptyString ->
  getAddress E contractAddress = Return checksummed ->
  checksummed <> EmptyString ->
  getProvider DEFAULT_PROVIDERS env this provider chainId w = (Return selectedProvider, w1) ->
  Contract_interface E (abi_value abi) = Return contract ->
  getEvent E contract name = Return (Some f) ->
  getAddress E checksummed = Return queried ->
  getProvider DEFAULT_PROVIDERS env this provider chainId w1 = (Return queryProvider, w2) ->
  rpc_getLogs E queryProvider
    {| filter_address := Some queried; filter_topics := Some (event_topics f topics);
       filter_fromBlock := fromBlock; filter_toBlock := toBlock |} = Return logs ->
  contractEvents DEFAULT_PROVIDERS env this contractAddress abi (Some name) topics
                 fromBlock toBlock provider chainId w
  = (Return (map (decode_log E contract) (map formatEvent logs)),
     {| calls := (calls w2 ++
                  [CallGetLogs {| filter_address := Some queried;
                                  filter_topics := Some (event_topics f topics);
                                  filter_fromBlock := fromBlock;
                                  filter_toBlock := toBlock |}])%list;
        warnings := warnings w2 |}).
Proof.
  intros Hne Ha Hc0 Hp Hc Hf Hq Hp2 Hl.
  unfold contractEvents. rewrite (absent_false Hne).
  run_unfold. rewrite Ha, Hp, Hc, Hf. cbv zeta.
  fold (event_topics f topics).
  unfold queryLogs. rewrite (absent_false Hc0).
  run_unfold. rewrite Hq, Hp2, Hl. reflexivity.
Qed.

End Events.

(** C8.  In contractEvents with an event name.  When the address
    normalises, the provider resolves, the interface has the event and the
    node answers the fetch, the operation makes that one fetch, whose
    topics are the topic hash of the event followed by the caller's topics,
    and returns one result per fetched record, in order, each being the
    decoding step applied to the record as formatEvent made it.  Of any
    run: (1) it fetches logs at most once, and the fetch carries the topic
    hash of the event first, followed by the caller's topics; (2) when the
    interface has no event of that name the operation fails and no log
    fetch is recorded; (3) when it returns, the results are the records the
    node answered to that fetch, one result per record, in order: a record
    whose decoding throws is handed back raw, as formatEvent made it, and
    every record that decodes carries the decoded name and the serialised
    arguments. *)
Theorem C8_contractEvents_named_event :
  forall (E : Ethers) DEFAULT_PROVIDERS env (this : EthersService E)
         contractAddress abi name topics fromBlock toBlock provider chainId w,
    name <> EmptyString ->
    (forall checksummed selectedProvider w1 contract f queried queryProvider w2 logs,
        getAddress E contractAddress = Return checksummed ->
        checksummed <> EmptyString ->
        getProvider DEFAULT_PROVIDERS env this provider chainId w
          = (Return selectedProvider, w1) ->
        Contract_interface E (abi_value abi) = Return contract ->
        getEvent E contract name = Return (Some f) ->
        getAddress E checksummed = Return queried ->
        getProvider DEFAULT_PROVIDERS env this provider chainId w1
          = (Return queryProvider, w2) ->
        rpc_getLogs E queryProvider
          {| filter_address := Some queried;
             filter_topics := Some (JString (ev_topicHash f)
                                    :: match topics with Some t => t | None => [] end)%list;
             filter_fromBlock := fromBlock; filter_toBlock := toBlock |} = Return logs ->
        contractEvents DEFAULT_PROVIDERS env this contractAddress abi (Some name) topics
                       fromBlock toBlock provider chainId w
        = (Return (map (decode_log E contract) (map formatEvent logs)),
           {| calls :=
                (calls w2 ++
                 [CallGetLogs
                    {| filter_address := Some queried;
                       filter_topics :=
                         Some (JString (ev_topicHash f)
                               :: match topics with Some t => t | None => [] end)%list;
                       filter_fromBlock := fromBlock;
                       filter_toBlock := toBlock |}])%list;
              warnings := warnings w2 |}))
    /\ (forall r w',
          contractEvents DEFAULT_PROVIDERS env this contractAddress abi (Some name) topics
                         fromBlock toBlock provider chainId w = (r, w') ->
          (* 1 *)
          (forall filter,
              In filter (log_fetches (calls w')) ->
              In filter (log_fetches (calls w))
              \/ exists contract f,
                   Contract_interface E (abi_value abi) = Return contract
                   /\ getEvent E contract name = Return (Some f)
                   /\ filter_topics filter
                      = Some (JString (ev_topicHash f)
                              :: match topics with Some t => t | None => [] end)%list)
          (* 2 *)
          /\ (forall contract,
                Contract_interface E (abi_value abi) = Return contract ->
                getEvent E contract name = Return None ->
                (exists e, r = Throw e) /\ log_fetches (calls w') = log_fetches (calls w))
          (* 3 *)
          /\ (forall events,
                r = Return events ->
                exists contract f queryProvider queried logs,
                  Contract_interface E (abi_value abi) = Return contract
                  /\ getEvent E contract name = Return (Some f)
                  /\ rpc_getLogs E queryProvider
                       {| filter_address := queried;
                          filter_topics :=
                            Some (JString (ev_topicHash f)
                                  :: match topics with Some t => t | None => [] end)%list;
                          filter_fromBlock := fromBlock;
                          filter_toBlock := toBlock |} = Return logs
                  /\ log_fetches (calls w')
                     = (log_fetches (calls w) ++
                        [{| filter_address := queried;
                            filter_topics :=
                              Some (JString (ev_topicHash f)
                                    :: match topics with Some t => t | None => [] end)%list;
                            filter_fromBlock := fromBlock;
                            filter_toBlock := toBlock |}])%list
                  /\ events = map (decode_log E contract) (map formatEvent logs)
                  /\ length events = length logs
                  /\ (forall log e,
                        parse_record E contract (formatEvent log) = Throw e ->
                        decode_log E contract (formatEvent log) = formatEvent log)
                  /\ (forall log d,
                        parse_record E contract (formatEvent log) = Return (Some d) ->
                        decoded_as d (decode_log E contract (formatEvent log))))).
Proof.
  intros E DP env this addr abi name topics fromBlock toBlock provider chainId w Hne.
  assert (Hfetch : forall a b, log_fetches (a ++ b) = (log_fetches a ++ log_fetches b)%list).
  { intros a b. induction a as [|c a IH]; [reflexivity|]. destruct c; simpl; rewrite IH; reflexivity. }
  split.
  { intros checksummed p w1 contract f queried p2 w2 logs Ha Hc0 Hp Hc Hf Hq Hp2 Hl.
    exact (@contractEvents_named_run E DP env this addr abi name topics fromBlock toBlock
             provider chainId w checksummed p w1 contract f queried p2 w2 logs
             Hne Ha Hc0 Hp Hc Hf Hq Hp2 Hl). }
  intros r w' H.
  apply contractEvents_named in H; [|exact Hne].
  split; [|split].
  - intros filter Hin. destruct H as [[_ Hw]|(contract & f & p & ca & Hc & Hf & Hw & _)].
    + left. rewrite Hw in Hin. exact Hin.
    + cbv zeta in Hw. rewrite Hw, Hfetch in Hin. apply in_app_or in Hin as [Hin|Hin].
      * left. exact Hin.
      * right. exists contract, f. split; [exact Hc|]. split; [exact Hf|].
        simpl in Hin. destruct Hin as [<-|[]]. reflexivity.
  - intros contract Hc Hnone. destruct H as [[He Hw]|(contract' & f & p & ca & Hc' & Hf & _)].
    + split; [exact He|]. rewrite Hw. reflexivity.
    + exfalso. rewrite Hc in Hc'. inversion Hc'; subst. rewrite Hnone in Hf. discriminate.
  - intros events ->. destruct H as [[[e He] _]|(contract & f & p & ca & Hc & Hf & Hw & Hr)];
      [discriminate|].
    destruct Hr as [logs [Hl Hevs]]. exists contract, f, p, ca, logs.
    split; [exact Hc|]. split; [exact Hf|]. split; [exact Hl|].
    split; [cbv zeta in Hw; rewrite Hw, Hfetch; reflexivity|].
    split; [exact Hevs|]. split.
    + subst events. rewrite !length_map. reflexivity.
    + split.
      * intros log e. apply decode_log_raw.
      * intros log d. apply decode_log_decoded.
Qed.

(** The token's Transfer events, asked for by the address in lower case.
    The fetch carries the checksummed address and the topic hash followed
    by the caller's topic; the node answers three records, the second of
    which is cut short: all three come back, the first and the third
    decoded, the second raw. *)
Lemma C8_witness :
  contractEvents Stub.providers Stub.env_full Chain.service Chain.token_lower
    Chain.transfer_abi (Some "Transfer") (Some [JNull]) None None None None initial_world
  = (Return (map (decode_log Chain.ethers tt)
               (map formatEvent [Chain.mint_log; Chain.short_log; Chain.burn_log])),
     {| calls := [CallGetLogs {| filter_address := Some Chain.token;
                                 filter_topics := Some [JString Stub.transfer_topic; JNull];
                                 filter_fromBlock := None; filter_toBlock := None |}];
        warnings := [] |})
  /\ decode_log Chain.ethers tt (formatEvent Chain.short_log) = formatEvent Chain.short_log
  /\ JS.get (object_props (decode_log Chain.ethers tt (formatEvent Chain.mint_log))) "args"
     = Some (JArray [JString Chain.zero_address; JString Chain.holder; JString "5"])
  /\ JS.get (object_props (decode_log Chain.ethers tt (formatEvent Chain.burn_log))) "args"
     = Some (JArray [JString Chain.holder; JString Chain.zero_address; JString "7"]).
Proof.
  destruct (@C8_contractEvents_named_event Chain.ethers Stub.providers Stub.env_full
              Chain.service Chain.token_lower Chain.transfer_abi "Transfer"
              (Some [JNull]) None None None None initial_world ltac:(discriminate))
    as [Hrun Hany].
  assert (Hgo := Hrun Chain.token Stub.preset initial_world tt
                   {| ev_name := "Transfer"; ev_topicHash := Stub.transfer_topic |}
                   Chain.token Stub.preset initial_world
                   [Chain.mint_log; Chain.short_log; Chain.burn_log]
                   eq_refl ltac:(discriminate) eq_refl eq_refl eq_refl eq_refl eq_refl
                   eq_refl).
  split; [exact Hgo|].
  destruct (Hany _ _ Hgo) as (_ & _ & Hres).
  destruct (Hres _ eq_refl) as (contract & f & p & ca & logs & _ & _ & _ & _ & _ & _
                                & Hraw & Hdec).
  destruct contract.
  split; [|split].
  - apply (Hraw Chain.short_log (Units.ethers_error "BUFFER_OVERRUN" "data out-of-bounds")).
    reflexivity.
  - apply (Hdec Chain.mint_log
             {| ld_name := "Transfer";
                ld_args := JArray [JString Chain.zero_address; JString Chain.holder;
                                   JBigInt 5] |}).
    reflexivity.
  - apply (Hdec Chain.burn_log
             {| ld_name := "Transfer";
                ld_args := JArray [JString Chain.holder; JString Chain.zero_address;
                                   JBigInt 7] |}).
    reflexivity.
Defined.

(* ===================================================================== *)
(** * Amount conversion round-trips *)
(* ===================================================================== *)

Module UnitsFacts.
Import Units.

Lemma is_digit_zero : Dec.is_digit zero = true.
Proof. reflexivity. Qed.

Lemma all_digits_app a b :
  Dec.all_digits (a ++ b)%list = Dec.all_digits a && Dec.all_digits b.
Proof. apply forallb_app. Qed.

Lemma all_digits_zeros k : Dec.all_digits (repeat zero k) = true.
Proof. induction k; simpl; auto. Qed.

Lemma value_zeros_app k x : Dec.value (repeat zero k ++ x)%list = Dec.value x.
Proof.
  induction k as [|k IH]; [reflexivity|].
  cbn [repeat app]. unfold Dec.value in *. cbn [fold_left].
  replace (0 * 10 + Dec.digit_val zero)%N with 0%N by reflexivity. exact IH.
Qed.

Lemma length_Zeros : length Zeros = 128.
Proof. reflexivity. Qed.

(** ** The two padding loops *)

Lemma pad_whole_spec fuel d : forall s,
  fuel + length s > d ->
  exists k, pad_whole fuel d s = (repeat zero k ++ s)%list
            /\ length (pad_whole fuel d s) > d.
Proof.
  induction fuel as [|f IH]; intros s Hf.
  - simpl. destruct (Nat.leb_spec (length s) d); [lia|].
    exists 0. split; [reflexivity | assumption].
  - cbn [pad_whole]. destruct (Nat.leb_spec (length s) d) as [Hle|Hgt].
    + destruct (IH (Zeros ++ s)%list) as [k [Hk Hl]].
      { rewrite length_app, length_Zeros. lia. }
      exists (k + 128). split; [|exact Hl].
      rewrite Hk, repeat_app, <- app_assoc. reflexivity.
    + exists 0. split; [reflexivity | assumption].
Qed.

Lemma pad_decimal_spec fuel d : forall s,
  fuel + length s >= d ->
  exists m, pad_decimal fuel d s = (s ++ repeat zero m)%list
            /\ length (pad_decimal fuel d s) >= d.
Proof.
  induction fuel as [|f IH]; intros s Hf.
  - simpl. destruct (Nat.ltb_spec (length s) d); [lia|].
    exists 0. rewrite app_nil_r. split; [reflexivity | assumption].
  - cbn [pad_decimal]. destruct (Nat.ltb_spec (length s) d) as [Hlt|Hge].
    + destruct (IH (s ++ Zeros)%list) as [m [Hm Hl]].
      { rewrite length_app, length_Zeros. lia. }
      exists (128 + m). split; [|exact Hl].
      rewrite Hm, repeat_app, <- app_assoc. reflexivity.
    + exists 0. rewrite app_nil_r. split; [reflexivity | assumption].
Qed.

(** ** The trimming loops *)

Lemma is_digit_not_dot c : Dec.is_digit c = true -> Ascii.eqb c dot = false.
Proof.
  intro H. destruct (Ascii.eqb c dot) eqn:E; [|reflexivity].
  apply Ascii.eqb_eq in E. subst. discriminate.
Qed.

Lemma trim_front_spec whole tail :
  whole <> [] -> Dec.all_digits whole = true ->
  exists j kept,
    whole = (repeat zero j ++ kept)%list
    /\ kept <> []
    /\ trim_front (whole ++ dot :: tail)%list = (kept ++ dot :: tail)%list.
Proof.
  induction whole as [|c r IH]; intros Hne Hd; [contradiction|].
  unfold Dec.all_digits in Hd. cbn [forallb] in Hd. apply andb_true_iff in Hd as [Hc Hr].
  destruct r as [|c1 r1].
  - exists 0, [c]. split; [reflexivity|]. split; [discriminate|].
    cbn [app trim_front]. rewrite Ascii.eqb_refl. cbn [negb]. rewrite andb_false_r. reflexivity.
  - cbn [app trim_front]. destruct (Ascii.eqb c zero) eqn:Ez.
    + cbn [forallb] in Hr. pose proof Hr as Hr'. apply andb_true_iff in Hr' as [Hc1 _].
      rewrite (is_digit_not_dot _ Hc1). cbn [negb andb].
      destruct (IH ltac:(discriminate) Hr) as (j & kept & Hj & Hk & Ht).
      exists (S j), kept. apply Ascii.eqb_eq in Ez. subst c.
      split; [cbn [repeat app]; rewrite Hj; reflexivity|].
      split; [exact Hk | exact Ht].
    + cbn [andb]. exists 0, (c :: c1 :: r1). split; [reflexivity|].
      split; [discriminate | reflexivity].
Qed.

Lemma rev_repeat {A} (x : A) k : rev (repeat x k) = repeat x k.
Proof.
  induction k as [|k IH]; [reflexivity|].
  cbn [repeat rev]. rewrite IH. clear.
  induction k; [reflexivity|]. cbn [repeat app]. rewrite IHk. reflexivity.
Qed.

Lemma all_digits_rev s : Dec.all_digits (rev s) = Dec.all_digits s.
Proof.
  unfold Dec.all_digits. induction s as [|c r IH]; [reflexivity|].
  cbn [rev forallb]. rewrite forallb_app, IH. cbn [forallb].
  rewrite andb_true_r. apply andb_comm.
Qed.

Lemma trim_back_spec head frac :
  frac <> [] -> Dec.all_digits frac = true ->
  exists j kept,
    frac = (kept ++ repeat zero j)%list
    /\ kept <> []
    /\ trim_back (head ++ dot :: frac)%list = (head ++ dot :: kept)%list.
Proof.
  intros Hne Hd. unfold trim_back.
  rewrite rev_app_distr. cbn [rev]. rewrite <- app_assoc. cbn [app].
  destruct (@trim_front_spec (rev frac) (rev head)) as (j & kept & Hj & Hk & Ht).
  - intro H. apply Hne. rewrite <- (rev_involutive frac), H. reflexivity.
  - rewrite all_digits_rev. exact Hd.
  - exists j, (rev kept). split; [|split].
    + rewrite <- (rev_involutive frac), Hj, rev_app_distr, rev_repeat. reflexivity.
    + intro H. apply Hk. rewrite <- (rev_involutive kept), H. reflexivity.
    + rewrite Ht, rev_app_distr. cbn [rev]. rewrite rev_involutive, <- app_assoc. reflexivity.
Qed.

(** ** What [toString] produces *)

Lemma toString_shape v d :
  d > 0 ->
  exists whole frac j,
    toString v d = (sign_of (v <? 0)%Z ++ whole ++ dot :: frac)%list
    /\ whole <> [] /\ frac <> []
    /\ Dec.all_digits whole = true /\ Dec.all_digits frac = true
    /\ length frac + j = d
    /\ Dec.value (whole ++ frac ++ repeat zero j)%list = Z.abs_N v.
Proof.
  intro Hd. unfold toString.
  destruct (Nat.eqb_spec d 0) as [->|_]; [lia|].
  set (s := Dec.digits_of_N (Z.abs_N v)).
  destruct (@pad_whole_spec (S d) d s ltac:(lia)) as (k & Hpad & Hlen).
  set (str := pad_whole (S d) d s) in *.
  assert (Hdig : Dec.all_digits str = true).
  { rewrite Hpad, all_digits_app, all_digits_zeros. apply digits_of_N_all_digits. }
  assert (Hval : Dec.value str = Z.abs_N v).
  { rewrite Hpad, value_zeros_app. apply digits_of_N_value. }
  set (index := length str - d).
  pose proof (firstn_skipn index str) as Hsplit.
  assert (Hwl : length (firstn index str) = index) by (apply firstn_length_le; lia).
  assert (Hfl : length (skipn index str) = d) by (rewrite length_skipn; lia).
  rewrite <- Hsplit, all_digits_app in Hdig. apply andb_true_iff in Hdig as [Hdw Hdf].
  destruct (@trim_front_spec (firstn index str) (skipn index str)) as (i & whole & Hi & Hw & Ht).
  { intro H. rewrite H in Hwl. simpl in Hwl. lia. }
  { exact Hdw. }
  destruct (@trim_back_spec whole (skipn index str)) as (j & frac & Hj & Hf & Hb).
  { intro H. rewrite H in Hfl. simpl in Hfl. lia. }
  { exact Hdf. }
  exists whole, frac, j.
  split.
  { destruct (v <? 0)%Z; cbn [sign_of]; rewrite Ht, Hb; reflexivity. }
  split; [exact Hw|]. split; [exact Hf|].
  rewrite Hi, all_digits_app in Hdw. apply andb_true_iff in Hdw as [_ Hdw].
  split; [exact Hdw|].
  pose proof Hdf as Hdf'. rewrite Hj, all_digits_app in Hdf'.
  apply andb_true_iff in Hdf' as [Hdf' _].
  split; [exact Hdf'|].
  split.
  { rewrite Hj, length_app, repeat_length in Hfl. exact Hfl. }
  rewrite <- Hj. rewrite <- (value_zeros_app i (whole ++ skipn index str)%list).
  rewrite app_assoc, <- Hi, Hsplit. exact Hval.
Qed.

(** ** What [fromString] reads *)

Lemma span_digits_stop a b :
  Dec.all_digits a = true ->
  match b with [] => True | c :: _ => Dec.is_digit c = false end ->
  span_digits (a ++ b)%list = (a, b).
Proof.
  intros Ha Hb. induction a as [|c r IH].
  - cbn [app]. destruct b as [|c r]; [reflexivity|]. cbn [span_digits]. rewrite Hb. reflexivity.
  - unfold Dec.all_digits in Ha. cbn [forallb] in Ha. apply andb_true_iff in Ha as [Hc Hr].
    cbn [app span_digits]. rewrite Hc, (IH Hr). reflexivity.
Qed.

Lemma span_digits_all a : Dec.all_digits a = true -> span_digits a = (a, []).
Proof.
  intro Ha. pose proof (span_digits_stop a [] Ha I) as H.
  rewrite app_nil_r in H. exact H.
Qed.

Lemma match_number_shape negative whole tail :
  whole <> [] -> Dec.all_digits whole = true -> Dec.all_digits tail = true ->
  match_number (sign_of negative ++ whole ++ dot :: tail)%list = Some (negative, whole, tail)
  /\ match_number (sign_of negative ++ whole)%list = Some (negative, whole, []).
Proof.
  intros Hw Hdw Hdt.
  assert (Hsign : forall rest,
    (let (neg, r0) :=
       match (sign_of negative ++ whole ++ rest)%list with
       | c :: r => if Ascii.eqb c minus then (true, r) else (false, (sign_of negative ++ whole ++ rest)%list)
       | [] => (false, (sign_of negative ++ whole ++ rest)%list)
       end in (neg, r0)) = (negative, (whole ++ rest)%list)).
  { intro rest. destruct negative; cbn [sign_of app].
    - rewrite Ascii.eqb_refl. reflexivity.
    - destruct whole as [|c r]; [contradiction|]. cbn [app].
      unfold Dec.all_digits in Hdw. cbn [forallb] in Hdw. apply andb_true_iff in Hdw as [Hc _].
      pose proof (is_digit_not_minus _ Hc) as Hm. unfold minus. rewrite Hm. reflexivity. }
  split.
  - unfold match_number.
    pose proof (Hsign (dot :: tail)) as Hs.
    destruct (match (sign_of negative ++ whole ++ dot :: tail)%list with
              | c :: r => if Ascii.eqb c minus then (true, r)
                          else (false, (sign_of negative ++ whole ++ dot :: tail)%list)
              | [] => (false, (sign_of negative ++ whole ++ dot :: tail)%list)
              end) as [neg r0].
    inversion Hs; subst.
    rewrite (span_digits_stop whole (dot :: tail) Hdw eq_refl).
    rewrite Ascii.eqb_refl.
    rewrite (span_digits_all tail Hdt). reflexivity.
  - unfold match_number.
    pose proof (Hsign []) as Hs. rewrite app_nil_r in Hs.
    destruct (match (sign_of negative ++ whole)%list with
              | c :: r => if Ascii.eqb c minus then (true, r)
                          else (false, (sign_of negative ++ whole)%list)
              | [] => (false, (sign_of negative ++ whole)%list)
              end) as [neg r0].
    inversion Hs; subst.
    rewrite (span_digits_all whole Hdw). reflexivity.
Qed.

Lemma firstn_repeat {A} (x : A) j m : j <= m -> firstn j (repeat x m) = repeat x j.
Proof.
  revert m. induction j as [|j IH]; intros m H; [reflexivity|].
  destruct m as [|m]; [lia|]. cbn [repeat firstn]. rewrite IH by lia. reflexivity.
Qed.

Lemma forallb_zero_skipn n m : forallb (Ascii.eqb zero) (skipn n (repeat zero m)) = true.
Proof.
  apply forallb_forall. intros c Hc.
  assert (Hin : In c (repeat zero m)).
  { rewrite <- (firstn_skipn n (repeat zero m)). apply in_or_app. right. exact Hc. }
  apply repeat_spec in Hin. subst. reflexivity.
Qed.

Lemma checkValue_in_range v : in_range v -> checkValue v = Return v.
Proof.
  intros [Hlo Hhi]. unfold checkValue.
  apply Z.leb_le in Hlo. apply Z.ltb_lt in Hhi. rewrite Hlo, Hhi. reflexivity.
Qed.

Lemma fromString_shape negative whole frac j d :
  whole <> [] -> Dec.all_digits whole = true -> Dec.all_digits frac = true ->
  length frac + j = d -> d <= 80 ->
  fromString (sign_of negative ++ whole ++ dot :: frac)%list d
  = checkValue (BigInt negative (whole ++ frac ++ repeat zero j)%list).
Proof.
  intros Hw Hdw Hdf Hlen Hd. unfold fromString.
  destruct (match_number_shape negative frac Hw Hdw Hdf) as [Hm _]. rewrite Hm.
  destruct (Nat.eqb_spec (length whole + length frac) 0) as [H0|_].
  { destruct whole; [contradiction | simpl in H0; lia]. }
  unfold getFormat. apply Nat.leb_le in Hd. rewrite Hd.
  destruct (@pad_decimal_spec d d frac ltac:(lia)) as (m & Hpad & Hl).
  rewrite Hpad in Hl |- *. rewrite length_app, repeat_length in Hl.
  rewrite skipn_app, (skipn_all2 frac) by lia. cbn [app].
  rewrite forallb_zero_skipn. cbn [negb].
  rewrite firstn_app, (firstn_all2 frac) by lia.
  rewrite firstn_repeat by lia.
  replace (d - length frac) with j by lia.
  destruct whole as [|c r]; [contradiction|]. reflexivity.
Qed.

Lemma fromString_whole negative whole :
  whole <> [] -> Dec.all_digits whole = true ->
  fromString (sign_of negative ++ whole)%list 0 = checkValue (BigInt negative whole).
Proof.
  intros Hw Hdw. unfold fromString.
  destruct (@match_number_shape negative whole [] Hw Hdw eq_refl) as [_ Hm]. rewrite Hm.
  destruct (Nat.eqb_spec (length whole + length (@nil ascii)) 0) as [H0|_].
  { destruct whole; [contradiction | simpl in H0; lia]. }
  cbn. rewrite app_nil_r. destruct whole; [contradiction | reflexivity].
Qed.

Lemma BigInt_abs v digits :
  Dec.value digits = Z.abs_N v -> BigInt (v <? 0)%Z digits = v.
Proof.
  intro H. unfold BigInt. rewrite H.
  destruct (Z.ltb_spec v 0); rewrite N2Z.inj_abs_N; lia.
Qed.

(** Reading back what [toString] wrote gives the integer again. *)
Lemma fromString_toString v d :
  d <= 80 -> in_range v -> fromString (toString v d) d = Return v.
Proof.
  intros Hd Hr. destruct d as [|d'].
  - unfold toString. cbn [Nat.eqb].
    change (if (v <? 0)%Z then [minus] else []) with (sign_of (v <? 0)%Z).
    rewrite fromString_whole.
    + rewrite BigInt_abs by apply digits_of_N_value. apply checkValue_in_range, Hr.
    + apply digits_of_N_nonempty.
    + apply digits_of_N_all_digits.
  - destruct (@toString_shape v (S d') ltac:(lia))
      as (whole & frac & j & Hs & Hw & Hf & Hdw & Hdf & Hl & Hv).
    rewrite Hs. rewrite (@fromString_shape _ _ _ j) by assumption.
    rewrite BigInt_abs by exact Hv. apply checkValue_in_range, Hr.
Qed.

End UnitsFacts.

(** ** The service methods *)

Lemma parseUnits_returns x unit v :
  parseUnits x unit = Return v <-> Units.parseUnits x unit = Return v.
Proof.
  unfold parseUnits. destruct (Units.parseUnits x unit) as [p|e]; [tauto|].
  split; [|discriminate]. intro H. exfalso. eapply handleProviderError_not_return. exact H.
Qed.

Lemma formatUnits_returns v unit x :
  formatUnits v unit = Return x <-> Units.formatUnits v unit = Return x.
Proof.
  unfold formatUnits. destruct (Units.formatUnits v unit) as [p|e]; [tauto|].
  split; [|discriminate]. intro H. exfalso. eapply handleProviderError_not_return. exact H.
Qed.

Lemma checkValue_returns v u : Units.checkValue v = Return u -> u = v /\ in_range v.
Proof.
  unfold Units.checkValue. destruct ((- Units.limit <=? v)%Z && (v <? Units.limit)%Z) eqn:E; [|discriminate].
  intro H. inversion H; subst. apply andb_true_iff in E as [Hlo Hhi].
  apply Z.leb_le in Hlo. apply Z.ltb_lt in Hhi. split; [reflexivity | split; assumption].
Qed.

Lemma fromString_in_range s d v : Units.fromString s d = Return v -> in_range v.
Proof.
  unfold Units.fromString. intro H.
  destruct (Units.match_number s) as [[[negative whole0] decimal0]|]; [|discriminate].
  destruct (length whole0 + length decimal0 =? 0)%nat; [discriminate|].
  destruct (Units.getFormat d) as [d'|]; [|discriminate].
  destruct (negb _); [discriminate|].
  apply checkValue_returns in H as [<- Hr]. exact Hr.
Qed.

Lemma Units_formatUnits_decimals v d :
  d <= 80 -> in_range v ->
  Units.formatUnits v (Units.UnitDecimals d) = Return (string_of_list_ascii (Units.toString v d)).
Proof.
  intros Hd Hr. unfold Units.formatUnits, Units.decimals_of, Units.fromValue_toString, Units.getFormat.
  apply Nat.leb_le in Hd. rewrite Hd. rewrite (UnitsFacts.checkValue_in_range Hr). reflexivity.
Qed.

Lemma Units_formatUnits_returns v d x :
  Units.formatUnits v (Units.UnitDecimals d) = Return x ->
  d <= 80 /\ in_range v /\ x = string_of_list_ascii (Units.toString v d).
Proof.
  unfold Units.formatUnits, Units.decimals_of, Units.fromValue_toString, Units.getFormat. intro H.
  destruct (Nat.leb_spec d 80) as [Hd|]; [|discriminate].
  destruct (Units.checkValue v) as [u|] eqn:Ec; [|discriminate].
  apply checkValue_returns in Ec as [-> Hr]. inversion H. auto.
Qed.

Lemma Units_roundtrip v d :
  d <= 80 -> in_range v ->
  exists x, Units.formatUnits v (Units.UnitDecimals d) = Return x
            /\ Units.parseUnits x (Units.UnitDecimals d) = Return v.
Proof.
  intros Hd Hr. eexists. split; [apply Units_formatUnits_decimals; assumption|].
  unfold Units.parseUnits, Units.decimals_of.
  rewrite list_ascii_of_string_of_list_ascii. apply UnitsFacts.fromString_toString; assumption.
Qed.

(** C9, as stated: "1" is a representable amount at precision 18, and it
    comes back as "1.0". *)
Lemma C9_counterexample :
  ~ (forall d x minimal,
       In d [0; 6; 8; 18] ->
       parseUnits x (Units.UnitDecimals d) = Return minimal ->
       there_and_back x (Units.UnitDecimals d) = Return x).
Proof.
  intro H.
  specialize (H 18 "1" (10 ^ 18)%Z ltac:(simpl; auto) ltac:(vm_compute; reflexivity)).
  vm_compute in H. discriminate H.
Qed.

(** C9 (amended).  For every precision up to 80, so for 0, 6, 8 and 18:
    every integer amount of minimal units in the representable range, zero
    and the largest one included, is rendered by formatUnits as a decimal
    text that parseUnits reads back as exactly that integer; every text
    formatUnits produces (the canonical spelling: no superfluous leading
    zero, and with a precision above 0 a decimal point followed by at least
    one digit and no superfluous trailing zero) goes to minimal units and
    back unchanged; and every text parseUnits accepts keeps its amount: its
    minimal units, rendered and read again, are the same integer.  The
    conversion works on digits and integers only. *)
Theorem C9_amount_conversion_roundtrip :
  forall d,
    d <= 80 ->
    (forall v, in_range v ->
       exists x, formatUnits v (Units.UnitDecimals d) = Return x
                 /\ parseUnits x (Units.UnitDecimals d) = Return v)
    /\ (forall v x,
          formatUnits v (Units.UnitDecimals d) = Return x ->
          there_and_back x (Units.UnitDecimals d) = Return x)
    /\ (forall x minimal,
          parseUnits x (Units.UnitDecimals d) = Return minimal ->
          exists canonical,
            there_and_back x (Units.UnitDecimals d) = Return canonical
            /\ parseUnits canonical (Units.UnitDecimals d) = Return minimal)
    /\ in_range 0 /\ in_range (Units.limit - 1)
    /\ (forall d', In d' [0; 6; 8; 18] -> d' <= 80).
Proof.
  intros d Hd.
  assert (Hrt : forall v, in_range v ->
            exists x, formatUnits v (Units.UnitDecimals d) = Return x
                      /\ parseUnits x (Units.UnitDecimals d) = Return v).
  { intros v Hr. destruct (Units_roundtrip Hd Hr) as (x & Hf & Hp).
    exists x. split; [apply formatUnits_returns | apply parseUnits_returns]; assumption. }
  split; [exact Hrt|]. split; [|split; [|split; [|split]]].
  - intros v x Hf. pose proof Hf as Hf'.
    apply formatUnits_returns, Units_formatUnits_returns in Hf' as (_ & Hr & _).
    destruct (Hrt v Hr) as (x' & Hx' & Hp). rewrite Hf in Hx'. inversion Hx'; subst x'.
    unfold there_and_back. rewrite Hp. cbn [obind]. exact Hf.
  - intros x minimal Hp. pose proof Hp as Hp'.
    apply parseUnits_returns in Hp'. unfold Units.parseUnits, Units.decimals_of in Hp'.
    apply fromString_in_range in Hp'.
    destruct (Hrt minimal Hp') as (y & Hy & Hpy).
    exists y. unfold there_and_back. rewrite Hp. cbn [obind]. split; assumption.
  - split; [apply Z.leb_le | apply Z.ltb_lt]; vm_compute; reflexivity.
  - split; [apply Z.leb_le | apply Z.ltb_lt]; vm_compute; reflexivity.
  - intros d' Hin. simpl in Hin. destruct Hin as [<-|[<-|[<-|[<-|[]]]]]; lia.
Qed.

Lemma C9_witness :
  (exists x, formatUnits (Units.limit - 1) (Units.UnitDecimals 18) = Return x
             /\ parseUnits x (Units.UnitDecimals 18) = Return (Units.limit - 1)%Z)
  /\ there_and_back "1.5" (Units.UnitDecimals 6) = Return "1.5"
  /\ (exists canonical,
        there_and_back "1" (Units.UnitDecimals 18) = Return canonical
        /\ parseUnits canonical (Units.UnitDecimals 18) = Return (10 ^ 18)%Z).
Proof.
  destruct (@C9_amount_conversion_roundtrip 18 ltac:(lia)) as (Hv & _ & Hamount & _ & Hmax & _).
  destruct (@C9_amount_conversion_roundtrip 6 ltac:(lia)) as (_ & Hcanon & _).
  split; [|split].
  - apply Hv. exact Hmax.
  - apply (Hcanon 1500000%Z "1.5"). vm_compute. reflexivity.
  - apply (Hamount "1" (10 ^ 18)%Z). vm_compute. reflexivity.
Defined.

(* ===================================================================== *)
(** * More about [serializeEventArgs] *)
(* ===================================================================== *)

Lemma set_fresh acc k v :
  ~ In k (map fst acc) -> JS.set acc k v = (acc ++ [(k, v)])%list.
Proof.
  induction acc as [|[k0 v0] r IH]; intro Hk; [reflexivity|].
  cbn [JS.set app]. destruct (String.eqb k0 k) eqn:Ek.
  - apply String.eqb_eq in Ek. subst. exfalso. apply Hk. left. reflexivity.
  - rewrite IH; [reflexivity|]. intro Hin. apply Hk. right. exact Hin.
Qed.

Lemma set_keys_in acc k v k' :
  In k' (map fst (JS.set acc k v)) <-> k' = k \/ In k' (map fst acc).
Proof.
  induction acc as [|[k0 v0] r IH]; cbn [JS.set map fst In].
  - intuition.
  - destruct (String.eqb k0 k) eqn:Ek; cbn [map fst In].
    + apply String.eqb_eq in Ek. subst. intuition.
    + rewrite IH. intuition.
Qed.

Lemma set_keys_NoDup acc k v :
  NoDup (map fst acc) -> NoDup (map fst (JS.set acc k v)).
Proof.
  induction acc as [|[k0 v0] r IH]; cbn [JS.set map fst]; intro Hn.
  - constructor; [intros []|constructor].
  - inversion Hn as [|? ? Hk0 Hr]; subst.
    destruct (String.eqb k0 k) eqn:Ek; cbn [map fst].
    + constructor; assumption.
    + constructor; [|apply IH; exact Hr].
      rewrite set_keys_in. intros [->|Hin]; [|contradiction].
      rewrite String.eqb_refl in Ek. discriminate.
Qed.

Lemma set_Forall (P : string * JSValue -> Prop) acc k v :
  Forall P acc -> P (k, v) -> (forall w, P (k, w) -> P (k, v)) ->
  Forall P (JS.set acc k v).
Proof.
  intros Hacc Hkv _. induction Hacc as [|[k0 v0] r H0 Hr IH]; cbn [JS.set].
  - constructor; [exact Hkv | constructor].
  - destruct (String.eqb k0 k) eqn:Ek.
    + apply String.eqb_eq in Ek. subst. constructor; assumption.
    + constructor; assumption.
Qed.

Lemma assign_entries_Forall (P : string * JSValue -> Prop) l :
  Forall (fun kv => skipped_key (fst kv) = false ->
                    String.eqb (fst kv) "__proto__" = false ->
                    P (fst kv, serializeEventArgs (snd kv))) l ->
  forall acc, Forall P acc -> Forall P (assign_entries l acc).
Proof.
  induction 1 as [|kv r Hkv _ IH]; intros acc Hacc; cbn [assign_entries]; [assumption|].
  destruct (skipped_key (fst kv)) eqn:Es; [apply IH; assumption|].
  destruct (String.eqb (fst kv) "__proto__") eqn:Ep; [apply IH; assumption|].
  apply IH. apply set_Forall; auto.
Qed.

Lemma assign_entries_NoDup l :
  forall acc, NoDup (map fst acc) -> NoDup (map fst (assign_entries l acc)).
Proof.
  induction l as [|kv r IH]; intros acc Hacc; cbn [assign_entries]; [assumption|].
  destruct (skipped_key (fst kv)); [apply IH; assumption|].
  destruct (String.eqb (fst kv) "__proto__"); apply IH; [assumption|].
  apply set_keys_NoDup. assumption.
Qed.

(** The loop over entries that are already in serialised form adds them
    unchanged. *)
Lemma assign_entries_serialized l :
  forall acc,
    NoDup (map fst (acc ++ l)%list) ->
    Forall (fun kv => skipped_key (fst kv) = false
                      /\ String.eqb (fst kv) "__proto__" = false
                      /\ serialized (snd kv)) l ->
    assign_entries l acc = (acc ++ l)%list.
Proof.
  induction l as [|[k v] r IH]; intros acc Hn Hl; cbn [assign_entries].
  - rewrite app_nil_r. reflexivity.
  - inversion Hl as [|? ? [Hs [Hp Hv]] Hr]; subst. cbn [fst snd] in *.
    rewrite Hs, Hp, Hv.
    assert (Hk : ~ In k (map fst acc)).
    { rewrite map_app in Hn. cbn [map fst] in Hn.
      apply NoDup_remove_2 in Hn. intro Hin. apply Hn. apply in_or_app. left. exact Hin. }
    rewrite set_fresh by exact Hk.
    rewrite IH; [rewrite <- app_assoc; reflexivity| |exact Hr].
    rewrite <- app_assoc. exact Hn.
Qed.

Lemma serializeEventArgs_again v :
  serializeEventArgs (serializeEventArgs v) = serializeEventArgs v.
Proof.
  induction v as [| | | | | |items IH|tj props _ IH] using JSValue_deep_ind;
    try reflexivity.
  - cbn [serializeEventArgs]. rewrite map_map. f_equal.
    apply map_ext_in. intros x Hx. rewrite Forall_forall in IH. apply IH. exact Hx.
  - rewrite serializeEventArgs_object. rewrite serializeEventArgs_object. f_equal.
    + destruct tj; reflexivity.
    + apply (@assign_entries_serialized (assign_entries props []) []).
      * cbn [app]. apply assign_entries_NoDup. constructor.
      * apply assign_entries_Forall; [|constructor].
        eapply Forall_impl; [|exact IH]. cbn beta. intros kv Hkv Hs Hp. cbn [fst snd].
        split; [exact Hs | split; [exact Hp | exact Hkv]].
Qed.

(** X1.  Idempotence of serializeEventArgs.  A value that has been through
    the serialiser once is left exactly as it is by a second pass, and the
    keys of each of its objects, at every depth, are distinct. *)
Theorem serializeEventArgs_is_idempotent :
  forall v,
    serialized (serializeEventArgs v)
    /\ unique_keys (serializeEventArgs v).
Proof.
  intro v. split; [apply serializeEventArgs_again|].
  induction v as [| | | | | |items IH|tj props _ IH] using JSValue_deep_ind;
    try exact I.
  - cbn [serializeEventArgs unique_keys].
    induction IH as [|x r Hx _ IHr]; cbn [map]; [exact I | split; assumption].
  - rewrite serializeEventArgs_object. cbn [unique_keys].
    split; [apply assign_entries_NoDup; constructor|].
    assert (Hall : Forall (fun kv => unique_keys (snd kv)) (assign_entries props [])).
    { apply assign_entries_Forall; [|constructor].
      eapply Forall_impl; [|exact IH]. cbn beta. intros kv Hkv _ _. exact Hkv. }
    induction Hall as [|kv r Hkv _ IHr]; [exact I | split; assumption].
Qed.

Lemma get_absent l key : ~ In key (map fst l) -> JS.get l key = None.
Proof.
  induction l as [|[k v] r IH]; intro Hk; [reflexivity|].
  cbn [JS.get]. destruct (String.eqb k key) eqn:Ek.
  - apply String.eqb_eq in Ek. subst. exfalso. apply Hk. left. reflexivity.
  - apply IH. intro Hin. apply Hk. right. exact Hin.
Qed.

Lemma assign_entries_proto l :
  forall acc, JS.get (assign_entries l acc) "__proto__" = JS.get acc "__proto__".
Proof.
  induction l as [|kv r IH]; intro acc; cbn [assign_entries]; [reflexivity|].
  destruct (skipped_key (fst kv)); [apply IH|].
  destruct (String.eqb (fst kv) "__proto__") eqn:Ep; [apply IH|].
  rewrite IH. apply get_set_other. exact Ep.
Qed.

Lemma assign_entries_get l key :
  skipped_key key = false ->
  String.eqb key "__proto__" = false ->
  NoDup (map fst l) ->
  forall acc,
    JS.get (assign_entries l acc) key
    = match JS.get l key with
      | Some v => Some (serializeEventArgs v)
      | None => JS.get acc key
      end.
Proof.
  intros Hkey Hproto. induction l as [|[k v] r IH]; intros Hn acc; [reflexivity|].
  inversion Hn as [|? ? Hk Hr]; subst.
  cbn [assign_entries JS.get fst snd].
  destruct (String.eqb k key) eqn:Ek.
  - apply String.eqb_eq in Ek. subst k. rewrite Hkey, Hproto.
    rewrite (IH Hr). rewrite get_absent by exact Hk. apply get_set_same.
  - destruct (skipped_key k); [rewrite (IH Hr); reflexivity|].
    destruct (String.eqb k "__proto__"); rewrite (IH Hr); [reflexivity|].
    destruct (JS.get r key); [reflexivity|]. apply get_set_other. exact Ek.
Qed.

(** X2.  What an object keeps.  For an object whose keys are distinct,
    serializeEventArgs drops the entries keyed _isBigNumber, type or hash,
    leaves no entry under the key __proto__ (there the assignment sets the
    prototype of the copy), and keeps every other entry under its key, with
    the serialised value; it adds no entry.  A toJSON function that is an
    own entry is carried over as it is, one that is inherited is not. *)
Theorem serializeEventArgs_keeps_other_entries :
  forall tj props key,
    NoDup (map fst props) ->
    JS.get (object_props (serializeEventArgs (JObject tj props))) key
    = (if skipped_key key || String.eqb key "__proto__" then None
       else option_map serializeEventArgs (JS.get props key))
    /\ exists entries,
         serializeEventArgs (JObject tj props) = JObject (own_toJSON tj) entries.
Proof.
  intros tj props key Hn. rewrite serializeEventArgs_object. cbn [object_props].
  split; [|eexists; reflexivity].
  destruct (skipped_key key) eqn:Hk; cbn [orb].
  - rewrite assign_entries_skipped by exact Hk. reflexivity.
  - destruct (String.eqb key "__proto__") eqn:Hp.
    + apply String.eqb_eq in Hp. subst key. apply assign_entries_proto.
    + rewrite assign_entries_get by assumption.
      destruct (JS.get props key); reflexivity.
Qed.

Lemma serializeEventArgs_keeps_other_entries_witness :
  NoDup (map fst StubMore.sample_entries)
  /\ JS.get (object_props (serializeEventArgs
               (JObject (OwnToJSONReturns JNull) StubMore.sample_entries))) "amount"
     = Some (JString "7")
  /\ JS.get (object_props (serializeEventArgs
               (JObject (OwnToJSONReturns JNull) StubMore.sample_entries))) "type"
     = None
  /\ JS.get (object_props (serializeEventArgs
               (JObject (OwnToJSONReturns JNull) StubMore.sample_entries))) "__proto__"
     = None
  /\ (exists entries,
        serializeEventArgs (JObject (OwnToJSONReturns JNull) StubMore.sample_entries)
        = JObject (OwnToJSONReturns JNull) entries)
  /\ (exists entries,
        serializeEventArgs (JObject (ToJSONReturns JNull) StubMore.sample_entries)
        = JObject NoToJSON entries).
Proof.
  assert (Hn : NoDup (map fst StubMore.sample_entries)).
  { cbn [StubMore.sample_entries map fst].
    repeat constructor; cbn [In]; intuition discriminate. }
  split; [exact Hn|].
  split; [exact (proj1 (@serializeEventArgs_keeps_other_entries
                          (OwnToJSONReturns JNull) StubMore.sample_entries "amount" Hn))|].
  split; [exact (proj1 (@serializeEventArgs_keeps_other_entries
                          (OwnToJSONReturns JNull) StubMore.sample_entries "type" Hn))|].
  split; [exact (proj1 (@serializeEventArgs_keeps_other_entries
                          (OwnToJSONReturns JNull) StubMore.sample_entries "__proto__" Hn))|].
  split.
  - exact (proj2 (@serializeEventArgs_keeps_other_entries
                    (OwnToJSONReturns JNull) StubMore.sample_entries "amount" Hn)).
  - exact (proj2 (@serializeEventArgs_keeps_other_entries
                    (ToJSONReturns JNull) StubMore.sample_entries "amount" Hn)).
Defined.

(** ** Results are fit for [JSON.stringify] *)

Lemma stringify_clean v :
  plain v = true -> has_bigint v = false ->
  forall c, exists o,
    JS.stringify_prop false c v = Return o
    /\ (match v with JArray _ | JObject _ _ => o <> None | _ => True end).
Proof.
  induction v as [| | | | | |items IH|tj props _ IH] using JSValue_deep_ind;
    intros Hp Hb c; cbn [plain has_bigint] in Hp, Hb; try discriminate Hb;
    cbn [JS.stringify_prop];
    try (eexists; split; [reflexivity | exact I]).
  - destruct b; eexists; split; try reflexivity; exact I.
  - match goal with
    | |- context [match ?X with Return _ => _ | Throw _ => _ end] =>
        assert (Hel : exists ss, X = Return ss)
    end.
    { induction IH as [|x r Hx _ IHr]; [eexists; reflexivity|].
      cbn [forallb existsb] in Hp, Hb.
      apply andb_true_iff in Hp as [Hpx Hpr]. apply orb_false_iff in Hb as [Hbx Hbr].
      destruct (Hx Hpx Hbx true) as [o [Ho _]]. rewrite Ho.
      destruct (IHr Hpr Hbr) as [ss Hss]. rewrite Hss. eexists; reflexivity. }
    destruct Hel as [ss Hss]. rewrite Hss. eexists. split; [reflexivity | discriminate].
  - apply andb_true_iff in Hp as [Htj Hprops].
    destruct tj; try discriminate. cbn beta iota zeta.
    match goal with
    | |- context [match ?X with Return _ => _ | Throw _ => _ end] =>
        assert (Hmem : exists ss, X = Return ss)
    end.
    { induction IH as [|kv r Hkv _ IHr]; [eexists; reflexivity|].
      cbn [forallb existsb] in Hprops, Hb.
      apply andb_true_iff in Hprops as [Hpx Hpr]. apply orb_false_iff in Hb as [Hbx Hbr].
      destruct (Hkv Hpx Hbx true) as [o [Ho _]]. rewrite Ho.
      destruct (IHr Hpr Hbr) as [ss Hss]. rewrite Hss. eexists; reflexivity. }
    destruct Hmem as [ss Hss]. rewrite Hss.
    eexists. split; [reflexivity | discriminate].
Qed.

Lemma JSON_safe_clean v : plain v = true -> has_bigint v = false -> JSON_safe v.
Proof.
  intros Hp Hb. unfold JSON_safe, JS.JSON_stringify, JS.stringify_result.
  destruct (stringify_clean v Hp Hb true) as [o [Ho _]]. rewrite Ho.
  destruct o; eexists; reflexivity.
Qed.

Lemma forallb_Forall_snd (g : JSValue -> bool) (l : Props) :
  forallb (fun kv => g (snd kv)) l = true <-> Forall (fun kv => g (snd kv) = true) l.
Proof.
  rewrite forallb_forall, Forall_forall. reflexivity.
Qed.

Lemma serializeEventArgs_plain v :
  entries_only v = true -> plain (serializeEventArgs v) = true.
Proof.
  induction v as [| | | | | |items IH|tj props _ IH] using JSValue_deep_ind;
    intro Hv; try reflexivity.
  - cbn [serializeEventArgs plain]. rewrite forallb_forall. intros x Hx.
    apply in_map_iff in Hx as [y [<- Hy]]. rewrite Forall_forall in IH.
    cbn [entries_only] in Hv. rewrite forallb_forall in Hv. apply IH; auto.
  - rewrite serializeEventArgs_object. cbn [plain].
    cbn [entries_only] in Hv. apply andb_true_iff in Hv as [Htj Hprops].
    rewrite Htj. cbn [andb].
    apply forallb_Forall_snd.
    apply assign_entries_Forall; [|constructor].
    rewrite forallb_forall in Hprops. rewrite Forall_forall in IH |- *.
    intros kv Hin _ _. cbn [snd]. apply IH; [exact Hin|].
    apply Hprops in Hin. apply andb_true_iff in Hin as [_ Hin]. exact Hin.
Qed.

Lemma set_plain acc k v :
  forallb (fun kv => plain (snd kv)) acc = true -> plain v = true ->
  forallb (fun kv => plain (snd kv)) (JS.set acc k v) = true.
Proof.
  intros Hacc Hv. apply forallb_Forall_snd. apply set_Forall.
  - apply forallb_Forall_snd. exact Hacc.
  - exact Hv.
  - intros _ _. exact Hv.
Qed.

Lemma formatEvent_clean log :
  entries_only (event_args log) = true ->
  forallb (fun kv => plain (snd kv)) (object_props (formatEvent log)) = true
  /\ existsb (fun kv => has_bigint (snd kv)) (object_props (formatEvent log)) = false.
Proof.
  intro Hlog.
  unfold formatEvent, event_object. cbn [object_props forallb existsb snd plain has_bigint].
  assert (Hargs : plain (match log_event log with
                         | Some (_, args) => serializeEventArgs args
                         | None => JUndefined end) = true
                  /\ has_bigint (match log_event log with
                                 | Some (_, args) => serializeEventArgs args
                                 | None => JUndefined end) = false).
  { unfold event_args in Hlog.
    destruct (log_event log) as [[n a]|]; [|split; reflexivity].
    split; [apply serializeEventArgs_plain; exact Hlog | apply serializeEventArgs_no_bigint]. }
  destruct Hargs as [Hp Hb]. rewrite Hp, Hb.
  assert (Ht : forall l, forallb plain (map JString l) = true
                         /\ existsb has_bigint (map JString l) = false).
  { induction l as [|t r [IH1 IH2]]; [split; reflexivity|]. cbn. auto. }
  destruct (Ht (log_topics log)) as [Ht1 Ht2]. rewrite Ht1, Ht2.
  destruct (log_blockNumber log); destruct (log_event log) as [[n a]|]; split; reflexivity.
Qed.

(** X3.  Results are fit for JSON.  Take a value in which no object holds
    a toJSON function as an own entry or has an entry keyed __proto__ (the
    serialiser copies the first and lets the second set the prototype of
    the copy).  Its image under serializeEventArgs goes through
    JSON.stringify without raising; so does every record formatEvent
    builds of a log whose arguments are such a value, and every record the
    decoding step of contractEvents makes of it, whether parseLog throws
    or decodes it to such arguments. *)
Theorem serialized_results_are_JSON_safe :
  forall (E : Ethers) (contract : Interface E) (v : JSValue) (log : Log),
    entries_only v = true ->
    entries_only (event_args log) = true ->
    (forall d, parse_record E contract (formatEvent log) = Return (Some d) ->
               entries_only (ld_args d) = true) ->
    JSON_safe (serializeEventArgs v)
    /\ JSON_safe (formatEvent log)
    /\ JSON_safe (decode_log E contract (formatEvent log)).
Proof.
  intros E contract v log Hv Hlog Hparsed.
  destruct (formatEvent_clean log Hlog) as [Hp Hb].
  assert (Hf : JSON_safe (formatEvent log)).
  { apply JSON_safe_clean; unfold formatEvent, event_object in *; cbn [plain has_bigint object_props] in *;
      [rewrite Hp; reflexivity | exact Hb]. }
  split; [apply JSON_safe_clean;
          [apply serializeEventArgs_plain; exact Hv | apply serializeEventArgs_no_bigint]|].
  split; [exact Hf|].
  unfold parse_record in Hparsed.
  unfold decode_log. cbv zeta.
  change (match formatEvent log with JObject _ p => p | _ => [] end)
    with (object_props (formatEvent log)).
  change (match formatEvent log with JObject tj _ => own_toJSON tj | _ => NoToJSON end)
    with (@NoToJSON JSValue).
  destruct (parseLog E contract _ _) as [parsedLog|]; [|exact Hf].
  apply JSON_safe_clean; cbn [plain has_bigint andb].
  - apply set_plain; [apply set_plain|].
    + exact Hp.
    + destruct parsedLog; reflexivity.
    + destruct parsedLog as [d|]; [|reflexivity].
      apply serializeEventArgs_plain. apply Hparsed. reflexivity.
  - apply existsb_set_false; [apply existsb_set_false|].
    + exact Hb.
    + destruct parsedLog; reflexivity.
    + cbn [snd]. apply serializeEventArgs_no_bigint.
Qed.

Lemma serialized_results_are_JSON_safe_witness :
  JSON_safe (serializeEventArgs (JObject NoToJSON [("amount", JBigInt 7)]))
  /\ JSON_safe (formatEvent StubMore.event_log)
  /\ JSON_safe (decode_log Chain.ethers tt (formatEvent Chain.mint_log)).
Proof.
  assert (Hmint : forall d,
            parse_record Chain.ethers tt (formatEvent Chain.mint_log) = Return (Some d) ->
            entries_only (ld_args d) = true).
  { intros d Hd. vm_compute in Hd. injection Hd as <-. reflexivity. }
  assert (Hevent : forall d,
            parse_record Chain.ethers tt (formatEvent StubMore.event_log) = Return (Some d) ->
            entries_only (ld_args d) = true).
  { intros d Hd. vm_compute in Hd. discriminate Hd. }
  split; [|split].
  - apply (@serialized_results_are_JSON_safe Chain.ethers tt
             (JObject NoToJSON [("amount", JBigInt 7)]) Chain.mint_log
             eq_refl eq_refl Hmint).
  - apply (@serialized_results_are_JSON_safe Chain.ethers tt
             JNull StubMore.event_log eq_refl eq_refl Hevent).
  - apply (@serialized_results_are_JSON_safe Chain.ethers tt
             JNull Chain.mint_log eq_refl eq_refl Hmint).
Defined.

(* ===================================================================== *)
(** * What the error normaliser raises *)
(* ===================================================================== *)

Lemma details_text_plain details :
  details_plain details = true -> exists text, details_text details = Return text.
Proof.
  destruct details as [d|]; [|eexists; reflexivity].
  cbn [details_plain details_text]. intro Hp.
  destruct (@omap_total _ _ detail_entry (fun _ => True) d) as [entries [He _]].
  { rewrite forallb_forall in Hp. apply Forall_forall. intros kv Hin.
    destruct (serializeValue_plain (snd kv) (Hp kv Hin)) as [s Hs].
    unfold detail_entry. rewrite Hs. eexists. split; [reflexivity | exact I]. }
  rewrite He. eexists. reflexivity.
Qed.

(** What the normaliser raises is an [Error] without a code, unless it is
    what serialising a detail threw. *)
Lemma handleProviderError_raised {A} error context details raised :
  @handleProviderError A error context details = Throw raised ->
  uncoded_error raised
  \/ exists text, details_text details = Throw raised /\ error_message_of error = Return text.
Proof.
  unfold handleProviderError.
  assert (Hgeneric :
    match error_message_of error with
    | Throw e0 => Throw e0
    | Return errorMessage =>
        match details_text details with
        | Throw e0 => Throw e0
        | Return detailsStr =>
            @Throw A (ThrownError (mkError
              ("Failed to " ++ context ++ ": " ++ errorMessage ++ detailsStr)))
        end
    end = Throw raised ->
    uncoded_error raised
    \/ exists text, details_text details = Throw raised
                    /\ error_message_of error = Return text).
  { destruct (error_message_of error) as [m|e0] eqn:Em.
    - destruct (details_text details) as [d|e1] eqn:Ed.
      + intro H. inversion H. left. reflexivity.
      + intro H. inversion H; subst. right. exists m. split; reflexivity.
    - intro H. inversion H; subst. left.
      destruct error as [issues|err|v]; cbn [error_message_of] in Em; try discriminate.
      destruct v; try discriminate; try (inversion Em; reflexivity).
      destruct (JS.get props "message"); discriminate. }
  destruct error as [issues|err|v].
  - intro H. inversion H. left. reflexivity.
  - destruct err as [n m [c|] t]; [intro H; inversion H; left; reflexivity | exact Hgeneric].
  - exact Hgeneric.
Qed.

(** X4.  The normaliser's own errors.  When no detail holds an object with
    a toJSON method, whatever handleProviderError is given, what it raises
    is an Error without a code, never a schema failure; so a boundary
    further out that catches it takes the generic branch and reports
    Failed to <its context>: <the inner message>, never Provider error and
    never Invalid input format.  Whatever the details, what it raises is
    such an Error or what serialising the details threw. *)
Theorem handleProviderError_raises_uncoded_errors :
  forall (A B : Type) error context details,
    (details_plain details = true ->
     exists e,
       @handleProviderError A error context details = Throw (ThrownError e)
       /\ err_code e = None
       /\ forall outer,
            @handleProviderError B (ThrownError e) outer None
            = Throw (ThrownError (mkError
                ("Failed to " ++ outer ++ ": " ++ message_or_text e))))
    /\ (forall raised,
          @handleProviderError A error context details = Throw raised ->
          uncoded_error raised \/ details_text details = Throw raised).
Proof.
  intros A B error context details. split.
  - intro Hp.
    destruct (@handleProviderError_throws A error context details) as [t Ht].
    destruct (handleProviderError_raised _ _ _ Ht) as [Hu|[text [Hd _]]].
    + destruct t as [issues|e|v]; try contradiction. cbn [uncoded_error] in Hu.
      exists e. split; [exact Ht|]. split; [exact Hu|].
      intro outer. unfold handleProviderError, message_or_text.
      destruct e as [n m c t]. cbn [err_code] in Hu. subst c.
      cbn [error_message_of details_text err_message]. rewrite append_empty_r. reflexivity.
    + destruct (details_text_plain details Hp) as [s Hs]. congruence.
  - intros raised H.
    destruct (handleProviderError_raised _ _ _ H) as [Hu|[text [Hd _]]]; [left | right];
      assumption.
Qed.

Lemma handleProviderError_raises_uncoded_errors_witness :
  details_plain (Some [("address", JString "0xabc"); ("n", JBigInt 5)]) = true
  /\ exists e,
       @handleProviderError unit (ThrownValue JNull) "fetch balance"
         (Some [("address", JString "0xabc"); ("n", JBigInt 5)])
       = Throw (ThrownError e)
       /\ err_code e = None
       /\ forall outer,
            @handleProviderError unit (ThrownError e) outer None
            = Throw (ThrownError (mkError
                ("Failed to " ++ outer ++ ": " ++ message_or_text e))).
Proof.
  split; [reflexivity|].
  apply (proj1 (handleProviderError_raises_uncoded_errors unit unit
                  (ThrownValue JNull) "fetch balance"
                  (Some [("address", JString "0xabc"); ("n", JBigInt 5)]))).
  reflexivity.
Defined.

(* ===================================================================== *)
(** * More about resolution *)
(* ===================================================================== *)

Lemma contains_refl s : contains s s.
Proof. exists EmptyString, EmptyString. cbn. rewrite append_empty_r. reflexivity. Qed.

Lemma contains_right n a b : contains n b -> contains n (a ++ b).
Proof.
  intros [x [y H]]. exists (a ++ x), y. rewrite H. rewrite append_assoc. reflexivity.
Qed.

Lemma contains_left n a b : contains n a -> contains n (a ++ b).
Proof.
  intros [x [y H]]. exists x, (y ++ b). rewrite H.
  rewrite !append_assoc. reflexivity.
Qed.

Lemma contains_concat sep n l : In n l -> contains n (String.concat sep l).
Proof.
  induction l as [|x r IH]; intro Hin; [contradiction|].
  destruct r as [|y r'].
  - destruct Hin as [->|[]]. apply contains_refl.
  - change (String.concat sep (x :: y :: r'))
      with (x ++ sep ++ String.concat sep (y :: r')).
    destruct Hin as [->|Hin].
    + apply contains_left, contains_refl.
    + apply contains_right, contains_right, IH, Hin.
Qed.

(** X5.  The refusal of an unknown identifier.  An identifier that is
    neither a supported name nor starts with http is refused without any
    call or warning, and the message quotes the identifier and lists every
    supported network name. *)
Theorem getProvider_refusal_lists_supported_networks :
  forall (E : Ethers) DEFAULT_PROVIDERS env (this : EthersService E)
         name chainId w network,
    name <> EmptyString ->
    existsb (String.eqb name) DEFAULT_PROVIDERS = false ->
    String.prefix "http" name = false ->
    In network DEFAULT_PROVIDERS ->
    exists message,
      getProvider DEFAULT_PROVIDERS env this (Some name) chainId w
        = (Throw (ThrownError (mkError message)), w)
      /\ contains name message
      /\ contains network message.
Proof.
  intros E DP env this name chainId w network Hne Hin Hp Hnet.
  eexists. split; [apply getProvider_unknown; assumption|]. split.
  - apply contains_right, contains_left, contains_refl.
  - do 5 apply contains_right. apply contains_left.
    apply contains_concat. exact Hnet.
Qed.

Lemma getProvider_refusal_lists_supported_networks_witness :
  exists message,
    getProvider Stub.providers Stub.env_empty Stub.service (Some "ropsten") None initial_world
      = (Throw (ThrownError (mkError message)), initial_world)
    /\ contains "ropsten" message
    /\ contains "sepolia" message.
Proof.
  apply (@getProvider_refusal_lists_supported_networks
           Stub.ethers Stub.providers Stub.env_empty Stub.service
           "ropsten" None initial_world "sepolia").
  - discriminate.
  - reflexivity.
  - reflexivity.
  - simpl. auto.
Defined.

Section ResolutionWorld.
Variable E : Ethers.
Variable DEFAULT_PROVIDERS : list string.
Variable env : Env.
Variable this : EthersService E.

(** What a resolution can do to the world: nothing, or one mismatch
    warning for the hint. *)
Lemma check_chainId_world newProvider chainId w r w' :
  check_chainId E newProvider chainId w = (r, w') ->
  w' = w
  \/ exists c pc, chainId = Some c /\ c <> 0%Z
                  /\ w' = warned w (chain_mismatch_warning c pc).
Proof.
  unfold check_chainId. run_unfold. intro H.
  destruct chainId as [c|]; [|inversion H; auto].
  destruct (Z.eqb_spec c 0) as [|Hc]; [inversion H; auto|].
  destruct (network_chainId E newProvider) as [pc|]; [|inversion H; auto].
  destruct (JS.truthy pc && _); inversion H; auto.
  right. exists c, pc. auto.
Qed.

Lemma getProvider_world provider chainId w r w' :
  getProvider DEFAULT_PROVIDERS env this provider chainId w = (r, w') ->
  w' = w
  \/ exists c pc, chainId = Some c /\ c <> 0%Z
                  /\ w' = warned w (chain_mismatch_warning c pc).
Proof.
  unfold getProvider. run_unfold. intro H.
  destruct provider as [name|]; [|inversion H; auto].
  destruct (absent (Some name)); [inversion H; auto|].
  destruct (existsb _ _).
  - destruct (AlchemyProvider E _ _); [|steps_in H; inversion H; auto].
    destruct (check_chainId E a chainId w) as [[u|e] w1] eqn:Ec;
      apply check_chainId_world in Ec; steps_in H; inversion H; subst; assumption.
  - destruct (String.prefix _ _); [|inversion H; auto].
    destruct (validateRpcUrl name); [|steps_in H; inversion H; auto].
    destruct (JsonRpcProvider E name); [|steps_in H; inversion H; auto].
    destruct (check_chainId E a0 chainId w) as [[u|e] w1] eqn:Ec;
      apply check_chainId_world in Ec; steps_in H; inversion H; subst; assumption.
Qed.

Lemma getSigner_world provider chainId signerOverride w r w' :
  getSigner DEFAULT_PROVIDERS env this provider chainId signerOverride w = (r, w') ->
  w' = w
  \/ exists c pc, chainId = Some c /\ c <> 0%Z
                  /\ w' = warned w (chain_mismatch_warning c pc).
Proof.
  unfold getSigner. run_unfold. intro H.
  destruct signerOverride; [inversion H; auto|].
  destruct (_signer this); [inversion H; auto|].
  destruct (PRIVATE_KEY env) as [key|]; [|inversion H; auto].
  destruct (String.eqb key EmptyString); [inversion H; auto|].
  destruct (getProvider DEFAULT_PROVIDERS env this provider chainId w) as [[p|e] w1] eqn:Ep;
    apply getProvider_world in Ep; inversion H; subst; assumption.
Qed.

End ResolutionWorld.

(** X6.  Resolution is local.  Resolving a provider or a signer records no
    call, whatever the identifier, the hint and the outcome; the only trace
    it can leave is one chain-id mismatch warning, and only for a hint
    other than 0. *)
Theorem resolution_leaves_at_most_one_warning :
  forall (E : Ethers) DEFAULT_PROVIDERS env (this : EthersService E)
         provider chainId signerOverride w w',
    w' = snd (getProvider DEFAULT_PROVIDERS env this provider chainId w)
    \/ w' = snd (getSigner DEFAULT_PROVIDERS env this provider chainId signerOverride w) ->
    network_calls w' = network_calls w
    /\ (warnings w' = warnings w
        \/ exists c pc, chainId = Some c /\ c <> 0%Z
                        /\ warnings w' = (warnings w ++ [chain_mismatch_warning c pc])%list).
Proof.
  intros E DP env this provider chainId so w w' H.
  assert (Hw : w' = w
               \/ exists c pc, chainId = Some c /\ c <> 0%Z
                               /\ w' = warned w (chain_mismatch_warning c pc)).
  { destruct H as [->| ->].
    - destruct (getProvider DP env this provider chainId w) as [p w1] eqn:Hp.
      eapply getProvider_world. exact Hp.
    - destruct (getSigner DP env this provider chainId so w) as [s w1] eqn:Hs.
      eapply getSigner_world. exact Hs. }
  destruct Hw as [->|(c & pc & Hc & Hne & ->)].
  - split; [reflexivity | left; reflexivity].
  - split; [reflexivity|]. right. exists c, pc. split; [exact Hc|]. split; [exact Hne|].
    reflexivity.
Qed.

Lemma resolution_leaves_at_most_one_warning_witness :
  network_calls
    (snd (getProvider Stub.providers Stub.env_empty Stub.service
            (Some "mainnet") (Some 5%Z) initial_world))
  = [].
Proof.
  apply (@resolution_leaves_at_most_one_warning
           Stub.ethers Stub.providers Stub.env_empty Stub.service
           (Some "mainnet") (Some 5%Z) None initial_world
           (snd (getProvider Stub.providers Stub.env_empty Stub.service
                   (Some "mainnet") (Some 5%Z) initial_world))).
  left. reflexivity.
Defined.

(* ===================================================================== *)
(** * Balances *)
(* ===================================================================== *)

(** X7.  A balance as text.  For a well-formed address, a provider that
    resolves and a balance the network reports (within the range of the
    conversion), getBalance makes exactly one balance request, for that
    address, and returns the ether text of the balance: parsing the text
    back gives the reported balance, to the last wei. *)
Theorem getBalance_returns_the_balance_as_ether_text :
  forall (E : Ethers) DEFAULT_PROVIDERS env (this : EthersService E)
         address provider chainId w p w1 balance,
    address_pattern address = true ->
    getProvider DEFAULT_PROVIDERS env this provider chainId w = (Return p, w1) ->
    rpc_getBalance E p address = Return balance ->
    in_range balance ->
    exists text,
      getBalance DEFAULT_PROVIDERS env this address provider chainId w
        = (Return text,
           {| calls := (calls w ++ [CallGetBalance address])%list;
              warnings := warnings w1 |})
      /\ Units.parseEther text = Return balance.
Proof.
  intros E DP env this address provider chainId w p w1 balance Ha Hp Hb Hr.
  destruct (@Units_roundtrip balance 18 ltac:(lia) Hr) as [text [Hf Hback]].
  exists text. split; [|exact Hback].
  unfold getBalance. run_unfold.
  rewrite (addressSchema_accepts _ Ha). rewrite Hp.
  pose proof (getProvider_calls _ _ _ _ _ _ Hp) as Hc.
  cbn beta iota. rewrite Hb. unfold Units.formatEther. rewrite Hf. rewrite Hc. reflexivity.
Qed.

Lemma getBalance_returns_the_balance_as_ether_text_witness :
  exists text,
    getBalance Stub.providers Stub.env_empty Stub.service Stub.address_a None None initial_world
      = (Return text,
         {| calls := [CallGetBalance Stub.address_a]; warnings := [] |})
    /\ Units.parseEther text = Return (10 ^ 18)%Z.
Proof.
  apply (@getBalance_returns_the_balance_as_ether_text
           Stub.ethers Stub.providers Stub.env_empty Stub.service
           Stub.address_a None None initial_world Stub.preset initial_world (10 ^ 18)%Z).
  - reflexivity.
  - reflexivity.
  - reflexivity.
  - split; [apply Z.leb_le | apply Z.ltb_lt]; vm_compute; reflexivity.
Defined.

(** X8.  A refused URL, seen from an operation.  getBalance with a
    well-formed address and an identifier that starts with http but is no
    URL makes no request and fails with the provider's refusal wrapped
    once more: the operation's own context first, the context of the
    provider construction inside it, and the operation's details at the
    end. *)
Theorem getBalance_wraps_the_refused_url :
  forall (E : Ethers) DEFAULT_PROVIDERS env (this : EthersService E)
         address name chainId w,
    address_pattern address = true ->
    name <> EmptyString ->
    existsb (String.eqb name) DEFAULT_PROVIDERS = false ->
    String.prefix "http" name = true ->
    rpc_url_pattern name = false ->
    getBalance DEFAULT_PROVIDERS env this address (Some name) chainId w
    = (Throw (ThrownError (mkError
         ("Failed to fetch balance: "
          ++ "Failed to create provider with RPC URL " ++ name ++ ": "
          ++ "Invalid RPC URL format: " ++ name
          ++ ". URL must start with http:// or https:// and include a valid domain."
          ++ " Details: address=" ++ address))), w).
Proof.
  intros E DP env this address name chainId w Ha Hne Hin Hp Hu.
  unfold getBalance. unfold try_catch at 1, bind at 1, lift at 1.
  rewrite (addressSchema_accepts _ Ha). unfold bind at 1.
  rewrite (@getProvider_invalid_url E DP env this name chainId w Hne Hin Hp Hu).
  unfold lift, handleProviderError.
  cbn [error_message_of err_message mkError details_text omap detail_entry snd fst
       serializeValue JS.String_].
  match goal with
  | |- context [String.eqb ?m EmptyString] =>
      destruct (String.eqb m EmptyString) eqn:Em
  end.
  { apply String.eqb_eq in Em. discriminate Em. }
  cbn [String.concat]. f_equal. f_equal. f_equal.
  rewrite !append_assoc. reflexivity.
Qed.

Lemma getBalance_wraps_the_refused_url_witness :
  failure_message
    (fst (getBalance Stub.providers Stub.env_empty Stub.service Stub.address_a
            (Some "httpx") None initial_world))
  = Some ("Failed to fetch balance: Failed to create provider with RPC URL httpx: "
          ++ "Invalid RPC URL format: httpx. URL must start with http:// or https:// "
          ++ "and include a valid domain. Details: address=" ++ Stub.address_a).
Proof.
  rewrite (@getBalance_wraps_the_refused_url
             Stub.ethers Stub.providers Stub.env_empty Stub.service
             Stub.address_a "httpx" None initial_world).
  - reflexivity.
  - reflexivity.
  - discriminate.
  - reflexivity.
  - reflexivity.
  - reflexivity.
Defined.

(* ===================================================================== *)
(** * More about sends and events *)
(* ===================================================================== *)

Lemma get_spread_absent extra key :
  JS.get extra key = None ->
  forall base, JS.get (JS.spread base extra) key = JS.get base key.
Proof.
  unfold JS.spread.
  induction extra as [|[k v] r IH]; intros Hk base; [reflexivity|].
  cbn [JS.get] in Hk. destruct (String.eqb k key) eqn:Ek; [discriminate|].
  cbn [fold_left fst snd]. rewrite (IH Hk). apply get_set_other. exact Ek.
Qed.



(** X10.  The two sends that put the value last.  Whatever the overrides
    hold, value included, every request contractCallWithOverrides and
    contractSendTransactionWithOverrides hand to the contract method
    carries the amount parsed from the value argument. *)
Theorem WithOverrides_sends_carry_the_parsed_value :
  forall (E : Ethers) DEFAULT_PROVIDERS env (this : EthersService E)
         contractAddress abi method args value provider overrides r w' tx,
    contractCallWithOverrides DEFAULT_PROVIDERS env this contractAddress abi method args
                              value provider (Some overrides) initial_world = (r, w')
    \/ contractSendTransactionWithOverrides DEFAULT_PROVIDERS env this contractAddress abi
                              method args value provider overrides initial_world = (r, w') ->
    In tx (submitted (calls w')) ->
    exists parsedValue,
      Units.parseEther value = Return parsedValue
      /\ value_field tx = Some (JBigInt parsedValue).
Proof.
  intros E DP env this contractAddress abi method args value provider overrides r w' tx H Hin.
  assert (Hrun :
    calls w' = calls initial_world
    \/ exists parsedValue txOverrides,
         Units.parseEther value = Return parsedValue
         /\ value_field txOverrides = Some (JBigInt parsedValue)
         /\ calls w' = (calls initial_world
                        ++ [CallContractMethod contractAddress method args txOverrides])%list).
  { destruct H as [H|H].
    - eapply contractCallWithOverrides_value. exact H.
    - eapply contractSendTransactionWithOverrides_value. exact H. }
  destruct Hrun as [Hc|(parsedValue & txOverrides & Hv & Hf & Hc)];
    rewrite Hc in Hin; cbn [calls initial_world app submitted In] in Hin.
  - contradiction.
  - destruct Hin as [<-|[]]. exists parsedValue. split; assumption.
Qed.

Lemma WithOverrides_sends_carry_the_parsed_value_witness :
  exists parsedValue,
    Units.parseEther "0" = Return parsedValue
    /\ value_field [("value", JBigInt 0)] = Some (JBigInt parsedValue).
Proof.
  apply (@WithOverrides_sends_carry_the_parsed_value
           Stub.ethers Stub.providers Stub.env_full Stub.service
           Stub.address_a "[]" "deposit" [] "0" None [("value", JBigInt 5)]
           (Return (JObject NoToJSON [("nonce", JNumber 0)]))
           {| calls := [CallContractMethod Stub.address_a "deposit" []
                          [("value", JBigInt 0)]];
              warnings := [] |}).
  - left. vm_compute. reflexivity.
  - cbn [calls submitted In]. left. reflexivity.
Defined.

(** X11.  Events without an event name.  Once the contract address
    has been normalised, the provider resolved and the contract built, a
    query without an event name is the queryLogs query for the normalised
    address with the caller's own topics, run in the world the first
    resolution left: the provider is resolved a second time there, and
    whatever queryLogs raises keeps the context of queryLogs. *)
Theorem contractEvents_without_name_is_queryLogs :
  forall (E : Ethers) DEFAULT_PROVIDERS env (this : EthersService E)
         contractAddress abi eventName topics fromBlock toBlock provider chainId
         w c p w1 contract,
    absent eventName = true ->
    getAddress E contractAddress = Return c ->
    getProvider DEFAULT_PROVIDERS env this provider chainId w = (Return p, w1) ->
    Contract_interface E (abi_value abi) = Return contract ->
    contractEvents DEFAULT_PROVIDERS env this contractAddress abi eventName topics
                   fromBlock toBlock provider chainId w
    = queryLogs DEFAULT_PROVIDERS env this (Some c) topics fromBlock toBlock
                provider chainId w1.
Proof.
  intros E DP env this contractAddress abi eventName topics fromBlock toBlock provider
         chainId w c p w1 contract Hab Ha Hp Hc.
  unfold contractEvents.
  unfold bind at 1, try_catch at 1, bind at 1, lift at 1. rewrite Ha.
  unfold bind at 1. rewrite Hp.
  unfold bind at 1, lift at 1. rewrite Hc.
  destruct eventName as [name|]; [rewrite Hab|]; reflexivity.
Qed.

Lemma contractEvents_without_name_is_queryLogs_witness :
  warnings
    (snd (contractEvents Stub.providers Stub.env_empty Stub.service Stub.address_a
            (AbiArray []) None None None None (Some "mainnet") (Some 5%Z) initial_world))
  = [chain_mismatch_warning 5 (JBigInt 1); chain_mismatch_warning 5 (JBigInt 1)].
Proof.
  rewrite (@contractEvents_without_name_is_queryLogs
             Stub.ethers Stub.providers Stub.env_empty Stub.service
             Stub.address_a (AbiArray []) None None None None (Some "mainnet") (Some 5%Z)
             initial_world Stub.address_a
             {| Stub.sp_label := "alchemy:mainnet"; Stub.sp_chainId := JBigInt 1 |}
             (warned initial_world (chain_mismatch_warning 5 (JBigInt 1)))
             tt).
  - vm_compute. reflexivity.
  - reflexivity.
  - reflexivity.
  - vm_compute. reflexivity.
  - reflexivity.
Defined.

(** X12.  What decoding keeps.  The decoding step of contractEvents changes
    nothing but name and args: every other field of a record formatEvent
    built (address, blockNumber, transactionHash, logIndex, data, topics)
    is in the decoded record as it was, whether parseLog decodes the
    record, finds no event, or throws. *)
Theorem decode_log_keeps_the_other_fields :
  forall (E : Ethers) (contract : Interface E) (log : Log) (key : string),
    key <> "name" -> key <> "args" ->
    JS.get (object_props (decode_log E contract (formatEvent log))) key
    = JS.get (object_props (formatEvent log)) key.
Proof.
  intros E contract log key Hname Hargs.
  unfold decode_log. cbv zeta.
  change (match formatEvent log with JObject _ p => p | _ => [] end)
    with (object_props (formatEvent log)).
  destruct (parseLog E contract _ _) as [parsedLog|]; [|reflexivity].
  cbn [object_props].
  rewrite get_set_other by (apply String.eqb_neq; congruence).
  rewrite get_set_other by (apply String.eqb_neq; congruence).
  reflexivity.
Qed.

Lemma decode_log_keeps_the_other_fields_witness :
  JS.get (object_props (decode_log Stub.ethers tt (formatEvent Stub.good_log))) "blockNumber"
  = Some (JString "17").
Proof.
  rewrite (@decode_log_keeps_the_other_fields Stub.ethers tt Stub.good_log "blockNumber").
  - reflexivity.
  - discriminate.
  - discriminate.
Defined.

(* ===================================================================== *)
(** * More about amounts *)
(* ===================================================================== *)

Lemma value_zeros k : Dec.value (repeat Units.zero k) = 0%N.
Proof.
  pose proof (UnitsFacts.value_zeros_app k []) as H. rewrite app_nil_r in H. exact H.
Qed.

Lemma value_scaled frac j :
  Dec.value (frac ++ repeat Units.zero j)%list
  = (Dec.value frac * 10 ^ N.of_nat j)%N.
Proof.
  rewrite value_app, repeat_length, value_zeros. lia.
Qed.

(** X13.  What parseUnits reads.  A text made of an optional minus sign,
    digits, a dot and at most d further digits is read at precision d as
    the whole part times 10^d plus the fractional digits scaled to d
    places, negated after a minus sign, as long as that amount is below
    2^511. *)
Theorem parseUnits_scales_the_decimal_text :
  forall negative whole frac d,
    whole <> [] ->
    Dec.all_digits whole = true ->
    Dec.all_digits frac = true ->
    length frac <= d ->
    d <= 80 ->
    (Z.of_N (Dec.value whole) * 10 ^ Z.of_nat d
     + Z.of_N (Dec.value frac) * 10 ^ Z.of_nat (d - length frac) < Units.limit)%Z ->
    Units.parseUnits
      (string_of_list_ascii (sign_of negative ++ whole ++ Units.dot :: frac)%list)
      (Units.UnitDecimals d)
    = Return (let amount :=
                (Z.of_N (Dec.value whole) * 10 ^ Z.of_nat d
                 + Z.of_N (Dec.value frac) * 10 ^ Z.of_nat (d - length frac))%Z in
              if negative then (- amount)%Z else amount).
Proof.
  intros negative whole frac d Hw Hdw Hdf Hlen Hd Hlim.
  unfold Units.parseUnits, Units.decimals_of.
  rewrite list_ascii_of_string_of_list_ascii.
  rewrite (@UnitsFacts.fromString_shape negative whole frac (d - length frac) d)
    by (try assumption; lia).
  assert (Hval : Z.of_N (Dec.value (whole ++ frac ++ repeat Units.zero (d - length frac))%list)
                 = (Z.of_N (Dec.value whole) * 10 ^ Z.of_nat d
                    + Z.of_N (Dec.value frac) * 10 ^ Z.of_nat (d - length frac))%Z).
  { rewrite value_app, value_scaled, length_app, repeat_length.
    replace (length frac + (d - length frac)) with d by lia.
    rewrite N2Z.inj_add, !N2Z.inj_mul, !N2Z.inj_pow, !nat_N_Z. reflexivity. }
  cbv zeta. unfold Units.BigInt. rewrite Hval.
  set (amount := (Z.of_N (Dec.value whole) * 10 ^ Z.of_nat d
                  + Z.of_N (Dec.value frac) * 10 ^ Z.of_nat (d - length frac))%Z) in *.
  assert (H0 : (0 <= amount)%Z).
  { unfold amount. apply Z.add_nonneg_nonneg; apply Z.mul_nonneg_nonneg;
      try apply N2Z.is_nonneg; apply Z.pow_nonneg; lia. }
  apply UnitsFacts.checkValue_in_range. unfold in_range.
  assert (Hl : (0 < Units.limit)%Z) by (vm_compute; reflexivity).
  destruct negative; lia.
Qed.

Lemma parseUnits_scales_the_decimal_text_witness :
  Units.parseUnits "-1.5" (Units.UnitDecimals 18) = Return (- (15 * 10 ^ 17))%Z.
Proof.
  refine (@parseUnits_scales_the_decimal_text true ["1"%char] ["5"%char] 18 _ _ _ _ _ _).
  - discriminate.
  - reflexivity.
  - reflexivity.
  - simpl. lia.
  - lia.
  - vm_compute. reflexivity.
Defined.

Lemma pad_decimal_long fuel d s :
  d <= length s -> Units.pad_decimal fuel d s = s.
Proof.
  intro H. destruct fuel; cbn [Units.pad_decimal];
    destruct (Nat.ltb_spec (length s) d); try lia; reflexivity.
Qed.

(** X14.  Precision is never dropped silently.  A text with more than d
    fractional digits, one of the excess digits not 0, is refused by
    parseUnits at precision d with the library's numeric fault, an error
    with the code NUMERIC_FAULT whose message begins
    too many decimals for format; the service reports it as
    Failed to parse units: Provider error: followed by that message. *)
Theorem parseUnits_rejects_excess_precision :
  forall negative whole kept extra d,
    whole <> [] ->
    Dec.all_digits whole = true ->
    Dec.all_digits kept = true ->
    Dec.all_digits extra = true ->
    length kept = d ->
    d <= 80 ->
    forallb (Ascii.eqb Units.zero) extra = false ->
    let text := string_of_list_ascii
                  (sign_of negative ++ whole ++ Units.dot :: kept ++ extra)%list in
    exists e,
      Units.parseUnits text (Units.UnitDecimals d) = Throw (ThrownError e)
      /\ err_code e = Some "NUMERIC_FAULT"
      /\ String.prefix "too many decimals for format" (err_message e) = true
      /\ failure_message (parseUnits text (Units.UnitDecimals d))
         = Some ("Failed to parse units: Provider error: " ++ err_message e).
Proof.
  intros negative whole kept extra d Hw Hdw Hdk Hde Hlen Hd Hex text.
  assert (Hp : Units.parseUnits text (Units.UnitDecimals d)
               = Throw (Units.ethers_error "NUMERIC_FAULT" "too many decimals for format")).
  { unfold text, Units.parseUnits, Units.decimals_of.
    rewrite list_ascii_of_string_of_list_ascii. unfold Units.fromString.
    assert (Hdt : Dec.all_digits (kept ++ extra)%list = true).
    { rewrite UnitsFacts.all_digits_app, Hdk, Hde. reflexivity. }
    destruct (@UnitsFacts.match_number_shape negative whole (kept ++ extra)%list Hw Hdw Hdt)
      as [Hm _].
    rewrite Hm.
    destruct (Nat.eqb_spec (length whole + length (kept ++ extra)%list) 0) as [H0|_].
    { destruct whole; [contradiction | simpl in H0; lia]. }
    unfold Units.getFormat. apply Nat.leb_le in Hd. rewrite Hd.
    rewrite pad_decimal_long by (rewrite length_app; lia).
    rewrite skipn_app, skipn_all2 by lia.
    replace (d - length kept) with 0 by lia. cbn [skipn app].
    rewrite Hex. reflexivity. }
  eexists. split; [exact Hp|]. split; [reflexivity|]. split; [reflexivity|].
  unfold parseUnits. rewrite Hp. reflexivity.
Qed.

Lemma parseUnits_rejects_excess_precision_witness :
  exists e,
    Units.parseUnits "1.0000001" (Units.UnitDecimals 6) = Throw (ThrownError e)
    /\ err_code e = Some "NUMERIC_FAULT"
    /\ String.prefix "too many decimals for format" (err_message e) = true
    /\ failure_message (parseUnits "1.0000001" (Units.UnitDecimals 6))
       = Some ("Failed to parse units: Provider error: " ++ err_message e).
Proof.
  apply (@parseUnits_rejects_excess_precision false
           ["1"%char] ["0"; "0"; "0"; "0"; "0"; "0"]%char ["1"%char] 6).
  - discriminate.
  - reflexivity.
  - reflexivity.
  - reflexivity.
  - reflexivity.
  - lia.
  - reflexivity.
Defined.

Lemma Units_fromString_throws s d e :
  Units.fromString s d = Throw e -> exists code reason, e = Units.ethers_error code reason.
Proof.
  unfold Units.fromString. intro H.
  destruct (Units.match_number s) as [[[negative whole0] decimal0]|];
    [|inversion H; eexists; eexists; reflexivity].
  destruct (length whole0 + length decimal0 =? 0)%nat;
    [inversion H; eexists; eexists; reflexivity|].
  unfold Units.getFormat in H.
  destruct (d <=? 80)%nat; [|inversion H; eexists; eexists; reflexivity].
  destruct (negb _); [inversion H; eexists; eexists; reflexivity|].
  unfold Units.checkValue in H.
  destruct (_ && _); [discriminate|]. inversion H. eexists; eexists; reflexivity.
Qed.

Lemma Units_decimals_of_throws unit e :
  Units.decimals_of unit = Throw e -> exists code reason, e = Units.ethers_error code reason.
Proof.
  unfold Units.decimals_of. destruct unit as [name|d]; [|discriminate].
  destruct (Units.indexOf name Units.names 0); [discriminate|].
  intro H. inversion H. eexists; eexists; reflexivity.
Qed.

Lemma Units_parseUnits_throws x unit e :
  Units.parseUnits x unit = Throw e -> exists code reason, e = Units.ethers_error code reason.
Proof.
  unfold Units.parseUnits.
  destruct (Units.decimals_of unit) as [d|e0] eqn:Ed.
  - apply Units_fromString_throws.
  - intro H. inversion H; subst. eapply Units_decimals_of_throws. exact Ed.
Qed.

Lemma Units_formatUnits_throws v unit e :
  Units.formatUnits v unit = Throw e -> exists code reason, e = Units.ethers_error code reason.
Proof.
  unfold Units.formatUnits.
  destruct (Units.decimals_of unit) as [d|e0] eqn:Ed.
  - unfold Units.fromValue_toString, Units.getFormat, Units.checkValue.
    destruct (d <=? 80)%nat; [|intro H; inversion H; eexists; eexists; reflexivity].
    destruct (_ && _); [discriminate|].
    intro H. inversion H; eexists; eexists; reflexivity.
  - intro H. inversion H; subst. eapply Units_decimals_of_throws. exact Ed.
Qed.


(* ===================================================================== *)
(** * Start-up arguments and the network list *)
(* ===================================================================== *)

Lemma split_on_head sep s :
  exists rest, split_on sep s = before sep s :: rest.
Proof.
  induction s as [|c r [rest IH]]; [exists []; reflexivity|].
  cbn [split_on before]. destruct (Ascii.eqb c sep).
  - eexists. reflexivity.
  - rewrite IH. eexists. reflexivity.
Qed.

Lemma read_arguments_app args more :
  read_arguments (args ++ more)%list
  = fold_left read_argument more (read_arguments args).
Proof. unfold read_arguments. apply fold_left_app. Qed.

Lemma read_network_flag argMap v :
  read_argument argMap ("--network=" ++ v)
  = JS.set argMap "network" (JString (before "=" v)).
Proof.
  unfold read_argument.
  change (String.prefix "--" ("--network=" ++ v)) with true. cbv iota.
  change (substring_from 2 ("--network=" ++ v)) with ("network=" ++ v).
  destruct (split_on_head "=" v) as [rest Hrest].
  change (split_on "=" ("network=" ++ v)) with ("network" :: split_on "=" v).
  rewrite Hrest. reflexivity.
Qed.

Lemma startup_network_flag DEFAULT_NETWORK args v :
  startup_network (startup DEFAULT_NETWORK (args ++ [("--network=" ++ v)%string])%list)
  = Some (before "=" v).
Proof.
  unfold startup. cbn [startup_network].
  rewrite read_arguments_app. cbn [fold_left].
  rewrite read_network_flag, get_set_same. reflexivity.
Qed.

(** X16.  The network flag.  Whatever precedes it on the command line, a
    last argument --network=<text> sets DEFAULT_NETWORK to the text up to
    its first equals sign (--network=a=b sets a), and a last argument
    --network without a value sets it to the text true; neither changes
    whether the usage is printed. *)
Theorem startup_takes_the_last_network_flag :
  forall DEFAULT_NETWORK args v,
    startup_network (startup DEFAULT_NETWORK (args ++ [("--network=" ++ v)%string])%list)
      = Some (before "=" v)
    /\ startup_network (startup DEFAULT_NETWORK (args ++ ["--network"])%list)
       = Some "true"
    /\ startup_help (startup DEFAULT_NETWORK (args ++ [("--network=" ++ v)%string])%list)
       = startup_help (startup DEFAULT_NETWORK args)
    /\ startup_help (startup DEFAULT_NETWORK (args ++ ["--network"])%list)
       = startup_help (startup DEFAULT_NETWORK args).
Proof.
  intros d args v. unfold startup. cbn [startup_network startup_help].
  rewrite !read_arguments_app. cbn [fold_left].
  rewrite read_network_flag.
  change (read_argument (read_arguments args) "--network")
    with (JS.set (read_arguments args) "network" (JBool true)).
  rewrite !get_set_same.
  rewrite !get_set_other by reflexivity.
  repeat split; reflexivity.
Qed.

Lemma read_argument_other argMap arg :
  String.prefix "--" arg = false -> read_argument argMap arg = argMap.
Proof. intro H. unfold read_argument. rewrite H. reflexivity. Qed.

Lemma read_arguments_flags args :
  forall argMap,
    fold_left read_argument (filter (String.prefix "--") args) argMap
    = fold_left read_argument args argMap.
Proof.
  induction args as [|a r IH]; intro argMap; [reflexivity|].
  cbn [filter fold_left]. destruct (String.prefix "--" a) eqn:Ea.
  - cbn [fold_left]. apply IH.
  - rewrite (read_argument_other _ _ Ea). apply IH.
Qed.

(** X17.  What start-up reads.  Only the arguments that start with two
    dashes count: the outcome of start-up is the same with every other
    argument removed, and with no such argument DEFAULT_NETWORK stays as
    the environment has it and the usage is not printed. *)
Theorem startup_reads_only_the_flags :
  forall DEFAULT_NETWORK args,
    startup DEFAULT_NETWORK args
      = startup DEFAULT_NETWORK (filter (String.prefix "--") args)
    /\ (filter (String.prefix "--") args = [] ->
        startup DEFAULT_NETWORK args
        = {| startup_network := DEFAULT_NETWORK; startup_help := false |}).
Proof.
  intros d args.
  assert (H : read_arguments args = read_arguments (filter (String.prefix "--") args)).
  { unfold read_arguments. symmetry. apply read_arguments_flags. }
  split.
  - unfold startup. rewrite H. reflexivity.
  - intro Hnone. unfold startup. rewrite H, Hnone. reflexivity.
Qed.

Lemma startup_reads_only_the_flags_witness :
  startup (Some "sepolia") ["mainnet"; "-v"; "network=polygon"]
  = {| startup_network := Some "sepolia"; startup_help := false |}.
Proof.
  apply (startup_reads_only_the_flags (Some "sepolia") ["mainnet"; "-v"; "network=polygon"]).
  reflexivity.
Defined.

Lemma describe_network_default networkList d network :
  sn_isDefault (describe_network networkList d network) = true
  <-> network = text_or d "mainnet".
Proof. unfold describe_network. cbn [sn_isDefault]. apply String.eqb_eq. Qed.

(** X18.  The default network of the list.  getSupportedNetworks gives one
    entry for each supported network, in the order of the list and under
    its name, each with 18 decimals; an entry is marked as the default
    exactly when its name is DEFAULT_NETWORK, or mainnet when that is
    unset or empty.  After a start-up with a last argument
    --network=<text>, the default is the network named by the text up to
    its first equals sign, and mainnet for --network= with nothing after
    it; a text that names no supported network leaves no entry marked. *)
Theorem getSupportedNetworks_marks_the_default :
  forall DEFAULT_PROVIDERS networkList DEFAULT_NETWORK args v,
    let configured :=
      startup_network (startup DEFAULT_NETWORK (args ++ [("--network=" ++ v)%string])%list) in
    let chosen :=
      if String.eqb (before "=" v) EmptyString then "mainnet" else before "=" v in
    map sn_name (getSupportedNetworks DEFAULT_PROVIDERS networkList configured)
      = DEFAULT_PROVIDERS
    /\ (forall n,
          In n (getSupportedNetworks DEFAULT_PROVIDERS networkList configured) ->
          sn_decimals n = 18%Z
          /\ (sn_isDefault n = true <-> sn_name n = chosen))
    /\ (~ In chosen DEFAULT_PROVIDERS ->
        forall n,
          In n (getSupportedNetworks DEFAULT_PROVIDERS networkList configured) ->
          sn_isDefault n = false)
    /\ (forall n,
          In n (getSupportedNetworks DEFAULT_PROVIDERS networkList DEFAULT_NETWORK) ->
          (sn_isDefault n = true
           <-> sn_name n = match DEFAULT_NETWORK with
                           | Some name => if String.eqb name EmptyString then "mainnet"
                                          else name
                           | None => "mainnet"
                           end)).
Proof.
  intros DP networkList d args v configured chosen.
  assert (Hc : configured = Some (before "=" v)).
  { apply (startup_network_flag d args v). }
  assert (Ht : text_or configured "mainnet" = chosen).
  { rewrite Hc. reflexivity. }
  assert (Hall : forall n,
            In n (getSupportedNetworks DP networkList configured) ->
            In (sn_name n) DP
            /\ sn_decimals n = 18%Z
            /\ (sn_isDefault n = true <-> sn_name n = chosen)).
  { intros n Hn. unfold getSupportedNetworks in Hn.
    apply in_map_iff in Hn as [network [<- Hin]].
    split; [exact Hin|]. split; [reflexivity|].
    rewrite <- Ht. apply describe_network_default. }
  split; [|split; [|split]].
  - unfold getSupportedNetworks. rewrite map_map. cbn [describe_network sn_name].
    apply map_id.
  - intros n Hn. destruct (Hall n Hn) as (_ & Hd & Hdef). split; assumption.
  - intros Hout n Hn. destruct (Hall n Hn) as (Hin & _ & Hdef).
    destruct (sn_isDefault n); [|reflexivity].
    exfalso. apply Hout. rewrite <- (proj1 Hdef eq_refl). exact Hin.
  - intros n Hn. unfold getSupportedNetworks in Hn.
    apply in_map_iff in Hn as [network [<- Hin]].
    rewrite describe_network_default. cbn [describe_network sn_name].
    unfold text_or. destruct d as [name|]; reflexivity.
Qed.

(* ===================================================================== *)
(** * Plain sends *)
(* ===================================================================== *)

Lemma get_spread_distinct extra key :
  NoDup (map fst extra) ->
  forall base,
    JS.get (JS.spread base extra) key
    = match JS.get extra key with
      | Some v => Some v
      | None => JS.get base key
      end.
Proof.
  unfold JS.spread.
  induction extra as [|[k v] r IH]; intros Hn base; [reflexivity|].
  inversion Hn as [|? ? Hk Hr]; subst.
  cbn [fold_left fst snd JS.get]. rewrite (IH Hr).
  destruct (String.eqb k key) eqn:Ek.
  - apply String.eqb_eq in Ek. subst k.
    rewrite get_absent by exact Hk. apply get_set_same.
  - destruct (JS.get r key); [reflexivity|]. apply get_set_other. exact Ek.
Qed.

(** X19.  The destination of a plain send.  sendTransaction and
    sendTransactionWithOptions validate the destination first, in both
    forms of the call: with a destination that is not 0x followed by 40
    hexadecimal characters, given as the first argument or as the to field
    of a request object, either operation fails with the validation error
    and records no call and no warning. *)
Theorem plain_sends_validate_the_destination :
  forall (E : Ethers) (R : EthersMore E) DEFAULT_PROVIDERS env (this : EthersService E)
         toOrTx destination value data gasLimit gasPrice nonce provider chainId
         signerOverride w,
    toOrTx = TxTo destination
    \/ (exists request,
          toOrTx = TxRequest request
          /\ JS.get request "to" = Some (JString destination)
          /\ destination <> EmptyString) ->
    address_pattern destination = false ->
    sendTransaction DEFAULT_PROVIDERS env this toOrTx value data provider w
      = (Throw validation_failure, w)
    /\ sendTransactionWithOptions R DEFAULT_PROVIDERS env this toOrTx value data
         gasLimit gasPrice nonce provider chainId signerOverride w
       = (Throw validation_failure, w).
Proof.
  intros E R DP env this toOrTx destination value data gasLimit gasPrice nonce provider
         chainId signerOverride w Hform Hbad.
  destruct Hform as [->|(request & -> & Hto & Hne)].
  - unfold sendTransaction, sendTransactionWithOptions. run_unfold.
    unfold addressSchema_parse. rewrite Hbad. split; reflexivity.
  - apply String.eqb_neq in Hne.
    unfold sendTransaction, sendTransactionWithOptions. run_unfold.
    unfold check_request_to. rewrite Hto. cbn [JS.truthy]. rewrite Hne. cbn [negb].
    unfold addressSchema_parse_value, addressSchema_parse. rewrite Hbad.
    split; reflexivity.
Qed.

Lemma plain_sends_validate_the_destination_witness :
  sendTransaction Stub.providers Stub.env_full Stub.service
    (TxRequest [("to", JString "0x1234"); ("value", JBigInt 1)]) None None None initial_world
  = (Throw validation_failure, initial_world).
Proof.
  apply (@plain_sends_validate_the_destination
           Stub.ethers StubMore.more Stub.providers Stub.env_full Stub.service
           (TxRequest [("to", JString "0x1234"); ("value", JBigInt 1)]) "0x1234"
           None None None None None None None None initial_world).
  - right. eexists. split; [reflexivity|]. split; [reflexivity | discriminate].
  - reflexivity.
Defined.

(** X20.  The request of a plain send by address.  Called with a well-formed
    address, sendTransaction hands the signer exactly the three fields to,
    value and data, in one submission: value is the amount parsed as ether,
    or undefined when the value argument is absent or empty; data is the
    data argument, or 0x when that is absent or empty.  What the signer
    returns is returned as it is. *)
Theorem sendTransaction_by_address_builds_the_request :
  forall (E : Ethers) DEFAULT_PROVIDERS env (this : EthersService E)
         to value data provider w signer w1 amount,
    address_pattern to = true ->
    optional_amount value = Return amount ->
    getSigner DEFAULT_PROVIDERS env this provider None None w = (Return signer, w1) ->
    let tx := [("to", JString to); ("value", amount);
               ("data", JString (data_or_empty data))] in
    exists r,
      sendTransaction DEFAULT_PROVIDERS env this (TxTo to) value data provider w
        = (r, {| calls := (calls w ++ [CallSendTransaction tx])%list;
                 warnings := warnings w1 |})
      /\ (forall response,
            rpc_sendTransaction E signer tx = Return response -> r = Return response)
      /\ (absent value = true -> amount = JUndefined)
      /\ (absent data = true -> data_or_empty data = "0x").
Proof.
  intros E DP env this to value data provider w signer w1 amount Ha Hv Hs tx.
  pose proof (getSigner_calls _ _ _ _ _ _ _ Hs) as Hc.
  assert (Hrun : exists r,
    sendTransaction DP env this (TxTo to) value data provider w
      = (r, {| calls := (calls w ++ [CallSendTransaction tx])%list;
               warnings := warnings w1 |})
    /\ (forall response,
          rpc_sendTransaction E signer tx = Return response -> r = Return response)).
  { unfold sendTransaction. run_unfold.
    rewrite (addressSchema_accepts _ Ha), Hv, Hs. fold tx. rewrite Hc.
    destruct (rpc_sendTransaction E signer tx) as [response|e] eqn:Er.
    - eexists. split; [reflexivity|]. intros response' H. inversion H. reflexivity.
    - destruct (@handleProviderError_throws JSValue e "send transaction"
                  (Some [("tx", tx_input_value (TxTo to))])) as [x Hx].
      rewrite Hx. eexists. split; [reflexivity|]. discriminate. }
  destruct Hrun as [r [Hrun Hresp]]. exists r.
  split; [exact Hrun|]. split; [exact Hresp|]. split.
  - intro Hab. unfold optional_amount in Hv. destruct value as [v|].
    + cbn [absent] in Hab. rewrite Hab in Hv. inversion Hv. reflexivity.
    + inversion Hv. reflexivity.
  - intro Hab. unfold data_or_empty, text_or. destruct data as [d|]; [|reflexivity].
    cbn [absent] in Hab. rewrite Hab. reflexivity.
Qed.

Lemma sendTransaction_by_address_builds_the_request_witness :
  exists r,
    sendTransaction Stub.providers Stub.env_full Stub.service
      (TxTo Stub.address_a) (Some "1.5") None None initial_world
    = (r, {| calls := [CallSendTransaction
                         [("to", JString Stub.address_a);
                          ("value", JBigInt (15 * 10 ^ 17)); ("data", JString "0x")]];
             warnings := [] |}).
Proof.
  destruct (@sendTransaction_by_address_builds_the_request
              Stub.ethers Stub.providers Stub.env_full Stub.service
              Stub.address_a (Some "1.5") None None initial_world
              ("0x0123456789012345678901234567890123456789012345678901234567890123",
               Stub.preset)
              initial_world (JBigInt (15 * 10 ^ 17)))
    as [r [Hr _]].
  - reflexivity.
  - vm_compute. reflexivity.
  - reflexivity.
  - exists r. exact Hr.
Defined.

(** X21.  A plain send of a request object.  When the request has no to
    field, or one that is null, undefined or empty, sendTransaction does
    not validate anything: the request goes to the signer as it is, and the
    value and data arguments of the call are not used. *)
Theorem sendTransaction_of_a_request_without_destination :
  forall (E : Ethers) DEFAULT_PROVIDERS env (this : EthersService E)
         request value data provider w signer w1,
    (JS.get request "to" = None
     \/ exists t, JS.get request "to" = Some t /\ JS.truthy t = false) ->
    getSigner DEFAULT_PROVIDERS env this provider None None w = (Return signer, w1) ->
    exists r,
      sendTransaction DEFAULT_PROVIDERS env this (TxRequest request) value data provider w
        = (r, {| calls := (calls w ++ [CallSendTransaction request])%list;
                 warnings := warnings w1 |})
      /\ (forall response,
            rpc_sendTransaction E signer request = Return response -> r = Return response).
Proof.
  intros E DP env this request value data provider w signer w1 Hto Hs.
  pose proof (getSigner_calls _ _ _ _ _ _ _ Hs) as Hc.
  assert (Hcheck : check_request_to request = Return tt).
  { unfold check_request_to. destruct Hto as [->|(t & -> & ->)]; reflexivity. }
  unfold sendTransaction. run_unfold. rewrite Hcheck, Hs, Hc.
  destruct (rpc_sendTransaction E signer request) as [response|e] eqn:Er.
  - eexists. split; [reflexivity|]. intros response' H. inversion H. reflexivity.
  - destruct (@handleProviderError_throws JSValue e "send transaction"
                (Some [("tx", tx_input_value (TxRequest request))])) as [x Hx].
    rewrite Hx. eexists. split; [reflexivity|]. discriminate.
Qed.

Lemma sendTransaction_of_a_request_without_destination_witness :
  exists r,
    sendTransaction Stub.providers Stub.env_full Stub.service
      (TxRequest [("data", JString "0x6080")]) (Some "1.5") (Some "0xff") None initial_world
    = (r, {| calls := [CallSendTransaction [("data", JString "0x6080")]];
             warnings := [] |}).
Proof.
  destruct (@sendTransaction_of_a_request_without_destination
              Stub.ethers Stub.providers Stub.env_full Stub.service
              [("data", JString "0x6080")] (Some "1.5") (Some "0xff") None initial_world
              ("0x0123456789012345678901234567890123456789012345678901234567890123",
               Stub.preset)
              initial_world)
    as [r [Hr _]].
  - left. reflexivity.
  - reflexivity.
  - exists r. exact Hr.
Defined.

(** X22.  The options of a send overwrite the request.  In
    sendTransactionWithOptions with a request object, the gasLimit,
    gasPrice and nonce of the submitted request are those of the call's
    arguments, undefined for an argument that is absent, whatever the
    request object had under these keys; every other field of the request
    (its keys being distinct) is submitted as it was. *)
Theorem sendTransactionWithOptions_overwrites_the_gas_fields :
  forall (E : Ethers) (R : EthersMore E) DEFAULT_PROVIDERS env (this : EthersService E)
         request value data gasLimit gasPrice nonce provider chainId signerOverride
         w signer w1 limit price,
    NoDup (map fst request) ->
    check_request_to request = Return tt ->
    optional_gasLimit R gasLimit = Return limit ->
    optional_gasPrice gasPrice = Return price ->
    getSigner DEFAULT_PROVIDERS env this provider chainId signerOverride w
      = (Return signer, w1) ->
    exists r tx,
      sendTransactionWithOptions R DEFAULT_PROVIDERS env this (TxRequest request)
        value data gasLimit gasPrice nonce provider chainId signerOverride w
        = (r, {| calls := (calls w ++ [CallSendTransaction tx])%list;
                 warnings := warnings w1 |})
      /\ JS.get tx "gasLimit" = Some limit
      /\ JS.get tx "gasPrice" = Some price
      /\ JS.get tx "nonce" = Some (optional_number nonce)
      /\ (gasLimit = None -> limit = JUndefined)
      /\ (forall key,
            key <> "gasLimit" -> key <> "gasPrice" -> key <> "nonce" ->
            JS.get tx key = JS.get request key).
Proof.
  intros E R DP env this request value data gasLimit gasPrice nonce provider chainId
         signerOverride w signer w1 limit price Hn Hcheck Hl Hp Hs.
  pose proof (getSigner_calls _ _ _ _ _ _ _ Hs) as Hc.
  set (tx := JS.set (JS.set (JS.set (JS.spread [] request) "gasLimit" limit)
                            "gasPrice" price)
                    "nonce" (optional_number nonce)).
  assert (Hrun : exists r,
    sendTransactionWithOptions R DP env this (TxRequest request)
      value data gasLimit gasPrice nonce provider chainId signerOverride w
    = (r, {| calls := (calls w ++ [CallSendTransaction tx])%list;
             warnings := warnings w1 |})).
  { unfold sendTransactionWithOptions. run_unfold. rewrite Hcheck, Hl, Hp, Hs. fold tx.
    rewrite Hc.
    destruct (rpc_sendTransaction E signer tx) as [response|e] eqn:Er.
    - eexists. reflexivity.
    - match goal with
      | |- context [@handleProviderError ?A ?e ?c ?d] =>
          destruct (@handleProviderError_throws A e c d) as [x Hx]; rewrite Hx
      end.
      eexists. reflexivity. }
  destruct Hrun as [r Hrun]. exists r, tx. split; [exact Hrun|].
  split; [|split; [|split; [|split]]].
  - unfold tx. rewrite !get_set_other by reflexivity. apply get_set_same.
  - unfold tx. rewrite get_set_other by reflexivity. apply get_set_same.
  - unfold tx. apply get_set_same.
  - intros ->. cbn in Hl. inversion Hl. reflexivity.
  - intros key Hk1 Hk2 Hk3. unfold tx.
    rewrite !get_set_other by (apply String.eqb_neq; congruence).
    rewrite get_spread_distinct by exact Hn.
    destruct (JS.get request key); reflexivity.
Qed.

Lemma sendTransactionWithOptions_overwrites_the_gas_fields_witness :
  exists r tx,
    sendTransactionWithOptions StubMore.more Stub.providers Stub.env_full Stub.service
      (TxRequest [("to", JString Stub.address_a); ("gasLimit", JBigInt 50000)])
      None None None (Some "2") (Some 7%Z) None None None initial_world
    = (r, {| calls := [CallSendTransaction tx]; warnings := [] |})
    /\ JS.get tx "gasLimit" = Some JUndefined
    /\ JS.get tx "gasPrice" = Some (JBigInt 2000000000)
    /\ JS.get tx "nonce" = Some (JNumber 7).
Proof.
  destruct (@sendTransactionWithOptions_overwrites_the_gas_fields
              Stub.ethers StubMore.more Stub.providers Stub.env_full Stub.service
              [("to", JString Stub.address_a); ("gasLimit", JBigInt 50000)]
              None None None (Some "2") (Some 7%Z) None None None initial_world
              ("0x0123456789012345678901234567890123456789012345678901234567890123",
               Stub.preset)
              initial_world JUndefined (JBigInt 2000000000))
    as (r & tx & Hr & Hl & Hp & Hnonce & _).
  - cbn [map fst]. constructor.
    + cbn [In]. intros [H|[]]. discriminate H.
    + constructor; [intros [] | constructor].
  - reflexivity.
  - reflexivity.
  - vm_compute. reflexivity.
  - reflexivity.
  - exists r, tx. split; [exact Hr|]. split; [exact Hl|]. split; [exact Hp | exact Hnonce].
Defined.

(* ===================================================================== *)
(** * Further operations *)
(* ===================================================================== *)

Ltac run2_unfold :=
  unfold try_catch2, bind2, lift2, ret2, raise2, call2, warn2, earlier in *.

Lemma address_is_no_hash s : address_pattern s = true -> hash_pattern s = false.
Proof.
  unfold address_pattern, hash_pattern.
  destruct (list_ascii_of_string s) as [|c0 [|c1 rest]]; try discriminate.
  intro H. apply andb_true_iff in H as [H _]. apply andb_true_iff in H as [_ Hlen].
  apply Nat.eqb_eq in Hlen. rewrite Hlen. cbn [Nat.eqb].
  rewrite andb_false_r. reflexivity.
Qed.

(** X23.  A transaction hash is held to the address hint.  A hash that is
    not 0x followed by 64 hexadecimal characters makes
    getTransactionDetails and getChainIdFromTransaction fail before any
    request, with the error of a failed address validation: its message
    asks for 0x followed by 40 hexadecimal characters, which no acceptable
    hash is. *)
Theorem transaction_hash_failure_carries_the_address_hint :
  forall (E : Ethers) (R : EthersMore E) DEFAULT_PROVIDERS env (this : EthersService E)
         txHash provider chainId j,
    hash_pattern txHash = false ->
    getTransactionDetails R DEFAULT_PROVIDERS env this txHash provider chainId j
      = (Throw validation_failure, j)
    /\ getChainIdFromTransaction R DEFAULT_PROVIDERS env this txHash provider j
       = (Throw validation_failure, j)
    /\ failure_message (@Throw unit validation_failure)
       = Some ("Invalid input format: Invalid" ++ address_hint)
    /\ (forall s, address_pattern s = true -> hash_pattern s = false).
Proof.
  intros E R DP env this txHash provider chainId j Hbad.
  split; [|split; [|split]].
  - unfold getTransactionDetails. run2_unfold. unfold txSchema_parse. rewrite Hbad.
    reflexivity.
  - unfold getChainIdFromTransaction. run2_unfold. unfold txSchema_parse. rewrite Hbad.
    reflexivity.
  - reflexivity.
  - apply address_is_no_hash.
Qed.

Lemma transaction_hash_failure_carries_the_address_hint_witness :
  getTransactionDetails StubMore.more Stub.providers Stub.env_empty Stub.service
    Stub.address_a None None empty_journal
  = (Throw validation_failure, empty_journal).
Proof.
  apply (@transaction_hash_failure_carries_the_address_hint
           Stub.ethers StubMore.more Stub.providers Stub.env_empty Stub.service
           Stub.address_a None None empty_journal).
  reflexivity.
Defined.

(** X24.  The reads by address validate first.  getTransactionCount,
    getContractCode and lookupAddress fail with the validation error for an
    address that is not 0x followed by 40 hexadecimal characters, before
    any provider is resolved: the journal of requests and warnings is left
    as it was. *)
Theorem reads_by_address_validate_first :
  forall (E : Ethers) (R : EthersMore E) DEFAULT_PROVIDERS env (this : EthersService E)
         address provider chainId j,
    address_pattern address = false ->
    getTransactionCount R DEFAULT_PROVIDERS env this address provider chainId j
      = (Throw validation_failure, j)
    /\ getContractCode R DEFAULT_PROVIDERS env this address provider chainId j
       = (Throw validation_failure, j)
    /\ lookupAddress R DEFAULT_PROVIDERS env this address provider chainId j
       = (Throw validation_failure, j).
Proof.
  intros E R DP env this address provider chainId j Hbad.
  unfold getTransactionCount, getContractCode, lookupAddress. run2_unfold.
  unfold addressSchema_parse. rewrite Hbad. repeat split; reflexivity.
Qed.

Lemma reads_by_address_validate_first_witness :
  getContractCode StubMore.more Stub.providers Stub.env_empty Stub.service
    "vitalik.eth" (Some "mainnet") None empty_journal
  = (Throw validation_failure, empty_journal).
Proof.
  apply (@reads_by_address_validate_first
           Stub.ethers StubMore.more Stub.providers Stub.env_empty Stub.service
           "vitalik.eth" (Some "mainnet") None empty_journal).
  reflexivity.
Defined.

(** X25.  Wallet information needs a signer of the service's own.  Without
    an instance-bound signer getWalletInfo returns null and does nothing
    else: the provider identifier is not resolved, not even checked, and a
    PRIVATE_KEY in the environment is not used. *)
Theorem getWalletInfo_is_null_without_an_instance_signer :
  forall (E : Ethers) (R : EthersMore E) DEFAULT_PROVIDERS env (this : EthersService E)
         provider j,
    _signer this = None ->
    getWalletInfo R DEFAULT_PROVIDERS env this provider j = (Return None, j).
Proof.
  intros E R DP env this provider j Hs.
  unfold getWalletInfo. run2_unfold. rewrite Hs. reflexivity.
Qed.

Lemma getWalletInfo_is_null_without_an_instance_signer_witness :
  getWalletInfo StubMore.more Stub.providers Stub.env_full Stub.service
    (Some "no such network") empty_journal
  = (Return None, empty_journal).
Proof.
  apply (@getWalletInfo_is_null_without_an_instance_signer
           Stub.ethers StubMore.more Stub.providers Stub.env_full Stub.service
           (Some "no such network") empty_journal).
  reflexivity.
Defined.

Lemma earlier_pure {A} (m : M A) o j :
  m initial_world = (o, initial_world) -> earlier m j = (o, j).
Proof.
  intro H. unfold earlier. rewrite H. destruct j as [rs ns].
  cbn [calls warnings initial_world map requests notes]. rewrite !app_nil_r. reflexivity.
Qed.

Section FurtherSteps.
Variable E : Ethers.
Variable DEFAULT_PROVIDERS : list string.
Variable env : Env.
Variable this : EthersService E.

Lemma earlier_getProvider_absent provider chainId j :
  absent provider = true ->
  earlier (getProvider DEFAULT_PROVIDERS env this provider chainId) j
  = (Return (_provider this), j).
Proof.
  intro H. apply earlier_pure. apply getProvider_absent. exact H.
Qed.

(** A resolution run as a step of a further operation adds no request. *)
Lemma earlier_getProvider provider chainId j p w1 :
  getProvider DEFAULT_PROVIDERS env this provider chainId initial_world = (p, w1) ->
  earlier (getProvider DEFAULT_PROVIDERS env this provider chainId) j
  = (p, {| requests := requests j; notes := (notes j ++ warnings w1)%list |}).
Proof.
  intro H. unfold earlier. rewrite H.
  rewrite (getProvider_calls _ _ _ _ _ _ H). cbn [calls initial_world map].
  rewrite app_nil_r. reflexivity.
Qed.

Lemma earlier_getSigner provider chainId signerOverride j s w1 :
  getSigner DEFAULT_PROVIDERS env this provider chainId signerOverride initial_world
    = (s, w1) ->
  earlier (getSigner DEFAULT_PROVIDERS env this provider chainId signerOverride) j
  = (s, {| requests := requests j; notes := (notes j ++ warnings w1)%list |}).
Proof.
  intro H. unfold earlier. rewrite H.
  rewrite (getSigner_calls _ _ _ _ _ _ _ H). cbn [calls initial_world map].
  rewrite app_nil_r. reflexivity.
Qed.

End FurtherSteps.

(** X26.  Transaction details without a provider and a chain id.  With a
    well-formed hash, no provider identifier and no chain id,
    getTransactionDetails asks the preconfigured provider for the
    transaction twice: once to derive a chain id, once for the result.  The
    derived chain id changes nothing, the second request goes to the same
    provider; when the first request fails or finds nothing, the warning
    that no chain id could be derived is recorded, and the operation goes
    on.  What the provider answers is what the operation returns. *)
Theorem getTransactionDetails_asks_the_preset_provider_twice :
  forall (E : Ethers) (R : EthersMore E) DEFAULT_PROVIDERS env (this : EthersService E)
         txHash provider chainId j,
    hash_pattern txHash = true ->
    absent provider = true ->
    no_chainId chainId = true ->
    exists r,
      getTransactionDetails R DEFAULT_PROVIDERS env this txHash provider chainId j
        = (r, {| requests := (requests j ++ [CallGetTransaction txHash;
                                             CallGetTransaction txHash])%list;
                 notes := (notes j
                           ++ match rpc_getTransaction R (_provider this) txHash with
                              | Return (Some _) => []
                              | _ => [derive_warning]
                              end)%list |})
      /\ (forall t,
            rpc_getTransaction R (_provider this) txHash = Return t -> r = Return t).
Proof.
  intros E R DP env this txHash provider chainId j Hh Hab Hno.
  unfold getTransactionDetails, getChainIdFromTransaction.
  unfold txSchema_parse. rewrite Hh, Hab, Hno. cbn [andb].
  unfold try_catch2, bind2, lift2, ret2, raise2, warn2.
  rewrite (earlier_getProvider_absent DP env this provider chainId j Hab).
  rewrite (earlier_getProvider_absent DP env this None None j eq_refl).
  unfold call2.
  destruct (rpc_getTransaction R (_provider this) txHash) as [[t|]|e] eqn:Ea;
    cbn beta iota.
  - rewrite (earlier_getProvider_absent DP env this provider _ _ Hab).
    cbn beta iota. cbn [requests notes]. rewrite Ea, <- app_assoc, app_nil_r.
    eexists. split; [reflexivity|].
    intros t' H. inversion H. reflexivity.
  - cbn [handleProviderError error_message_of details_text omap detail_entry
         serializeValue mkError err_message err_code fst snd].
    cbn beta iota. cbn [requests notes]. rewrite Ea, <- app_assoc.
    eexists. split; [reflexivity|].
    intros t' H. inversion H. reflexivity.
  - match goal with
    | |- context [@handleProviderError ?A ?e ?c ?d] =>
        destruct (@handleProviderError_throws A e c d) as [x Hx]; rewrite Hx
    end.
    cbn beta iota. cbn [requests notes]. rewrite Ea, <- app_assoc.
    match goal with
    | |- context [@handleProviderError ?A ?e ?c ?d] =>
        destruct (@handleProviderError_throws A e c d) as [y Hy]; rewrite Hy
    end.
    eexists. split; [reflexivity|]. discriminate.
Qed.

Lemma getTransactionDetails_asks_the_preset_provider_twice_witness :
  exists r,
    getTransactionDetails StubMore.more Stub.providers Stub.env_empty Stub.service
      StubMore.unknown_hash None None empty_journal
    = (r, {| requests := [CallGetTransaction StubMore.unknown_hash;
                          CallGetTransaction StubMore.unknown_hash];
             notes := [derive_warning] |}).
Proof.
  destruct (@getTransactionDetails_asks_the_preset_provider_twice
              Stub.ethers StubMore.more Stub.providers Stub.env_empty Stub.service
              StubMore.unknown_hash None None empty_journal)
    as [r [Hr _]].
  - reflexivity.
  - reflexivity.
  - reflexivity.
  - exists r. exact Hr.
Defined.

(** X27.  Transaction details with a provider or a chain id.  With a
    well-formed hash and a provider identifier or a chain id other than 0,
    no chain id is derived: getTransactionDetails makes one request, to
    the provider the identifier and the hint resolve to, and returns what
    that provider answers. *)
Theorem getTransactionDetails_asks_once_when_told_where :
  forall (E : Ethers) (R : EthersMore E) DEFAULT_PROVIDERS env (this : EthersService E)
         txHash provider chainId j p w1,
    hash_pattern txHash = true ->
    absent provider && no_chainId chainId = false ->
    getProvider DEFAULT_PROVIDERS env this provider chainId initial_world = (Return p, w1) ->
    exists r,
      getTransactionDetails R DEFAULT_PROVIDERS env this txHash provider chainId j
        = (r, {| requests := (requests j ++ [CallGetTransaction txHash])%list;
                 notes := (notes j ++ warnings w1)%list |})
      /\ (forall t, rpc_getTransaction R p txHash = Return t -> r = Return t).
Proof.
  intros E R DP env this txHash provider chainId j p w1 Hh Hwhere Hp.
  unfold getTransactionDetails.
  unfold txSchema_parse. rewrite Hh, Hwhere.
  unfold try_catch2, bind2, lift2, ret2.
  rewrite (earlier_getProvider _ _ _ _ _ j Hp).
  unfold call2. cbn [requests notes].
  destruct (rpc_getTransaction R p txHash) as [t|e] eqn:Ea.
  - eexists. split; [reflexivity|]. intros t' H. inversion H. reflexivity.
  - match goal with
    | |- context [@handleProviderError ?A ?e ?c ?d] =>
        destruct (@handleProviderError_throws A e c d) as [x Hx]; rewrite Hx
    end.
    eexists. split; [reflexivity|]. discriminate.
Qed.

Lemma getTransactionDetails_asks_once_when_told_where_witness :
  exists r,
    getTransactionDetails StubMore.more Stub.providers Stub.env_empty Stub.service
      StubMore.known_hash (Some "mainnet") None empty_journal
    = (r, {| requests := [CallGetTransaction StubMore.known_hash]; notes := [] |}).
Proof.
  destruct (@getTransactionDetails_asks_once_when_told_where
              Stub.ethers StubMore.more Stub.providers Stub.env_empty Stub.service
              StubMore.known_hash (Some "mainnet") None empty_journal
              {| Stub.sp_label := "alchemy:mainnet"; Stub.sp_chainId := JBigInt 1 |}
              initial_world)
    as [r [Hr _]].
  - reflexivity.
  - reflexivity.
  - reflexivity.
  - exists r. exact Hr.
Defined.

Section Estimate.
Variable E : Ethers.
Variable R : EthersMore E.
Variable DEFAULT_PROVIDERS : list string.
Variable env : Env.
Variable this : EthersService E.

(** The send at the end of contractCallWithEstimate, once the steps
    before it have gone through. *)
Lemma contractSendTransaction_with_gasLimit
    contractAddress abi method args value provider signer w1 contract parsedValue f data gas :
  address_pattern contractAddress = true ->
  getSigner DEFAULT_PROVIDERS env this provider None None initial_world
    = (Return signer, w1) ->
  Contract_interface E (JString abi) = Return contract ->
  Units.parseEther value = Return parsedValue ->
  getFunction E contract method = Return (Some f) ->
  encodeFunctionData E contract f args = Return data ->
  exists r,
    contractSendTransaction DEFAULT_PROVIDERS env this contractAddress abi method args
      value provider (Some [("gasLimit", JBigInt gas)]) initial_world
    = (r, {| calls := [CallSendTransaction
                         [("to", JString contractAddress); ("data", JString data);
                          ("value", JBigInt parsedValue); ("gasLimit", JBigInt gas)]];
             warnings := warnings w1 |}).
Proof.
  intros Ha Hs Hc Hv Hf He.
  pose proof (getSigner_calls _ _ _ _ _ _ _ Hs) as Hcalls.
  unfold contractSendTransaction. run_unfold.
  rewrite (addressSchema_accepts _ Ha), Hs, Hc, Hv, Hf, He. cbn [overrides_props].
  change (JS.spread [("to", JString contractAddress); ("data", JString data);
                     ("value", JBigInt parsedValue)] [("gasLimit", JBigInt gas)])
    with [("to", JString contractAddress); ("data", JString data);
          ("value", JBigInt parsedValue); ("gasLimit", JBigInt gas)].
  rewrite Hcalls. cbn [calls initial_world app].
  destruct (rpc_sendTransaction E signer _) as [response|e].
  - eexists. reflexivity.
  - destruct (send_details contractAddress abi args value) as [details|e1];
      [|eexists; reflexivity].
    match goal with
    | |- context [@handleProviderError ?A ?e ?c ?d] =>
        destruct (@handleProviderError_throws A e c d) as [x Hx]; rewrite Hx
    end.
    eexists. reflexivity.
Qed.

End Estimate.

(** A failed step of a further operation: the [catch] clause raises, and
    the journal gains no submission. *)
Ltac no_submission H Hin :=
  cbn beta iota in H;
  repeat (step_in H; cbn beta iota in H);
  inversion H; subst; cbn [requests journal_submitted app] in Hin; contradiction.



(* ===================================================================== *)
(** * Error details that cannot be written *)
(* ===================================================================== *)

Lemma stringify_bigint_throws v :
  plain v = true -> has_bigint v = true ->
  forall c, JS.stringify_prop false c v = Throw bigint_type_error.
Proof.
  induction v as [| | | | | |items IH|tj props _ IH] using JSValue_deep_ind;
    intros Hp Hb c; cbn [plain has_bigint] in Hp, Hb; try discriminate Hb;
    cbn [JS.stringify_prop].
  - reflexivity.
  - match goal with
    | |- context [match ?X with Return _ => _ | Throw _ => _ end] =>
        assert (Hel : X = Throw bigint_type_error)
    end.
    { induction IH as [|x r Hx _ IHr]; [discriminate Hb|].
      cbn [forallb existsb] in Hp, Hb.
      apply andb_true_iff in Hp as [Hpx Hpr].
      destruct (has_bigint x) eqn:Hbx.
      - rewrite (Hx Hpx eq_refl true). reflexivity.
      - cbn [orb] in Hb.
        destruct (@stringify_clean x Hpx Hbx true) as [o [Ho _]]. rewrite Ho.
        rewrite (IHr Hpr Hb). reflexivity. }
    rewrite Hel. reflexivity.
  - apply andb_true_iff in Hp as [Htj Hprops].
    destruct tj; try discriminate. cbn beta iota zeta.
    match goal with
    | |- context [match ?X with Return _ => _ | Throw _ => _ end] =>
        assert (Hmem : X = Throw bigint_type_error)
    end.
    { induction IH as [|kv r Hkv _ IHr]; [discriminate Hb|].
      cbn [forallb existsb] in Hprops, Hb.
      apply andb_true_iff in Hprops as [Hpx Hpr].
      destruct (has_bigint (snd kv)) eqn:Hbx.
      - rewrite (Hkv Hpx eq_refl true). reflexivity.
      - cbn [orb] in Hb.
        destruct (@stringify_clean (snd kv) Hpx Hbx true) as [o [Ho _]]. rewrite Ho.
        rewrite (IHr Hpr Hb). reflexivity. }
    rewrite Hmem. reflexivity.
Qed.

Lemma JSON_stringify_bigint_throws v :
  plain v = true -> has_bigint v = true ->
  JS.JSON_stringify v = Throw bigint_type_error.
Proof.
  intros Hp Hb. unfold JS.JSON_stringify.
  rewrite (@stringify_bigint_throws v Hp Hb true). reflexivity.
Qed.

Lemma send_details_bigint contractAddress abi args value :
  plain (JArray args) = true -> has_bigint (JArray args) = true ->
  send_details contractAddress abi args value = Throw bigint_type_error.
Proof.
  intros Hp Hb. unfold send_details.
  change (JS.JSON_stringify (JString abi)) with (Return (JString (JS.quote abi))).
  cbn [obind]. rewrite (@JSON_stringify_bigint_throws _ Hp Hb). reflexivity.
Qed.

(** X29.  Failures with a bigint among the arguments.  The catch clause of
    contractSendTransaction writes the arguments with JSON.stringify and
    no replacer.  So with a bigint anywhere in the arguments, and no toJSON
    method among them, every failure of contractSendTransaction and of
    contractCallWithEstimate, a malformed contract address included,
    surfaces as the TypeError of JSON.stringify: neither the validation
    error nor a Failed to ... message is raised. *)
Theorem failures_with_bigint_arguments_surface_as_TypeError :
  forall (E : Ethers) (R : EthersMore E) DEFAULT_PROVIDERS env (this : EthersService E)
         contractAddress abi method args value provider overrides w j,
    plain (JArray args) = true ->
    has_bigint (JArray args) = true ->
    (forall r w',
       contractSendTransaction DEFAULT_PROVIDERS env this contractAddress abi method args
                               value provider overrides w = (r, w') ->
       (exists response, r = Return response) \/ r = Throw bigint_type_error)
    /\ (forall r j',
          contractCallWithEstimate R DEFAULT_PROVIDERS env this contractAddress abi method
                                   args value provider j = (r, j') ->
          (exists response, r = Return response) \/ r = Throw bigint_type_error)
    /\ (address_pattern contractAddress = false ->
        contractSendTransaction DEFAULT_PROVIDERS env this contractAddress abi method args
                                value provider overrides w
        = (Throw bigint_type_error, w)).
Proof.
  intros E R DP env this contractAddress abi method args value provider overrides w j Hp Hb.
  pose proof (@send_details_bigint contractAddress abi args value Hp Hb) as Hd.
  split; [|split].
  - intros r w' H. unfold contractSendTransaction, try_catch in H.
    rewrite Hd in H. unfold bind at 1, lift at 1 in H.
    match type of H with
    | (match ?X with _ => _ end) = _ => destruct X as [[response|e] w0]
    end; inversion H; subst; [left; eexists; reflexivity | right; reflexivity].
  - intros r j' H. unfold contractCallWithEstimate, try_catch2 in H.
    rewrite Hd in H. unfold bind2 at 1, lift2 at 1 in H.
    match type of H with
    | (match ?X with _ => _ end) = _ => destruct X as [[response|e] j0]
    end; inversion H; subst; [left; eexists; reflexivity | right; reflexivity].
  - intro Hbad. unfold contractSendTransaction. run_unfold.
    unfold addressSchema_parse. rewrite Hbad, Hd. reflexivity.
Qed.

Lemma failures_with_bigint_arguments_surface_as_TypeError_witness :
  contractSendTransaction Stub.providers Stub.env_full Stub.service
    "0x1234" "[]" "deposit" [JBigInt 5] "0" None None initial_world
  = (Throw bigint_type_error, initial_world).
Proof.
  destruct (@failures_with_bigint_arguments_surface_as_TypeError
              Stub.ethers StubMore.more Stub.providers Stub.env_full Stub.service
              "0x1234" "[]" "deposit" [JBigInt 5] "0" None None initial_world empty_journal)
    as (_ & _ & H).
  - reflexivity.
  - reflexivity.
  - apply H. reflexivity.
Defined.

(** X30.  A failed gas estimate for a request with a bigint.  estimateGas
    writes the request with JSON.stringify in its catch clause.  For a
    request that holds a bigint, as the value of every request the service
    builds does, and no object with a toJSON method, a failure to resolve
    the signer or to estimate surfaces as the TypeError of JSON.stringify,
    and Failed to estimate gas is not reported. *)
Theorem estimateGas_failure_for_a_bigint_request_is_a_TypeError :
  forall (E : Ethers) (R : EthersMore E) DEFAULT_PROVIDERS env (this : EthersService E)
         tx provider j r j',
    plain (JObject NoToJSON tx) = true ->
    has_bigint (JObject NoToJSON tx) = true ->
    estimateGas R DEFAULT_PROVIDERS env this tx provider j = (r, j') ->
    (exists gas, r = Return gas) \/ r = Throw bigint_type_error.
Proof.
  intros E R DP env this tx provider j r j' Hp Hb H.
  unfold estimateGas, try_catch2 in H.
  rewrite (@JSON_stringify_bigint_throws _ Hp Hb) in H.
  unfold bind2 at 1, lift2 at 1 in H.
  match type of H with
  | (match ?X with _ => _ end) = _ => destruct X as [[gas|e] j0]
  end; inversion H; subst; [left; eexists; reflexivity | right; reflexivity].
Qed.

Lemma estimateGas_failure_for_a_bigint_request_is_a_TypeError_witness :
  fst (estimateGas StubMore.more Stub.providers Stub.env_empty Stub.service
         [("to", JString Stub.address_a); ("value", JBigInt 1)] None empty_journal)
  = Throw bigint_type_error.
Proof.
  destruct (@estimateGas_failure_for_a_bigint_request_is_a_TypeError
              Stub.ethers StubMore.more Stub.providers Stub.env_empty Stub.service
              [("to", JString Stub.address_a); ("value", JBigInt 1)] None empty_journal
              (fst (estimateGas StubMore.more Stub.providers Stub.env_empty Stub.service
                      [("to", JString Stub.address_a); ("value", JBigInt 1)] None
                      empty_journal))
              (snd (estimateGas StubMore.more Stub.providers Stub.env_empty Stub.service
                      [("to", JString Stub.address_a); ("value", JBigInt 1)] None
                      empty_journal)))
    as [[gas Hgas]|H].
  - reflexivity.
  - reflexivity.
  - reflexivity.
  - discriminate Hgas.
  - exact H.
Defined.

(* ===================================================================== *)
(** * Address validation, operation by operation *)
(* ===================================================================== *)

Lemma parse_each_rejects before a after :
  address_pattern a = false ->
  parse_each (before ++ a :: after)%list
  = Throw (ThrownZod [{| issue_message := "Invalid" |}]).
Proof.
  intro Hbad. induction before as [|x r IH]; cbn [app parse_each].
  - unfold addressSchema_parse. rewrite Hbad. reflexivity.
  - unfold addressSchema_parse at 1. destruct (address_pattern x); [exact IH | reflexivity].
Qed.

Lemma override_details_plain contractAddress abi args value overrides :
  forallb plain args = true -> details_plain overrides = true ->
  exists d, override_details contractAddress abi args value overrides = Return d.
Proof.
  intros Hp Ho. unfold override_details.
  assert (Ha : exists a, JS.JSON_stringify (JString abi) = Return a) by (eexists; reflexivity).
  destruct Ha as [a Ha]. rewrite Ha. cbn [obind].
  destruct (serializeValue_plain (JArray args) Hp) as [s Hs]. rewrite Hs. cbn [obind].
  destruct overrides as [o|].
  - destruct (serializeValue_plain (JObject NoToJSON o) Ho) as [t Ht].
    cbn [overrides_value]. rewrite Ht. eexists. reflexivity.
  - eexists. reflexivity.
Qed.

Lemma send_details_clean contractAddress abi args value :
  forallb plain args = true -> existsb has_bigint args = false ->
  exists d, send_details contractAddress abi args value = Return d.
Proof.
  intros Hp Hb. unfold send_details.
  assert (Ha : exists a, JS.JSON_stringify (JString abi) = Return a) by (eexists; reflexivity).
  destruct Ha as [a Ha]. rewrite Ha. cbn [obind].
  destruct (@JSON_safe_clean (JArray args) Hp Hb) as [t Ht]. rewrite Ht.
  eexists. reflexivity.
Qed.

Lemma read_call_details_cases contractAddress abi args :
  (forall s, serializeValue (JArray args) = Return s ->
             exists d, read_call_details contractAddress abi args = Return d)
  /\ (forall e, serializeValue (JArray args) = Throw e ->
                read_call_details contractAddress abi args = Throw e).
Proof.
  unfold read_call_details.
  destruct (abi_detail_returns abi) as [a Ha]. rewrite Ha. cbn [obind].
  split; [intros s Hs | intros e He]; [rewrite Hs | rewrite He];
    [eexists|]; reflexivity.
Qed.

Lemma override_details_cases contractAddress abi args value overrides :
  (forall s o, serializeValue (JArray args) = Return s ->
               serializeValue (overrides_value overrides) = Return o ->
               exists d, override_details contractAddress abi args value overrides
                         = Return d)
  /\ (forall e, serializeValue (JArray args) = Throw e ->
                override_details contractAddress abi args value overrides = Throw e)
  /\ (forall s e, serializeValue (JArray args) = Return s ->
                  serializeValue (overrides_value overrides) = Throw e ->
                  override_details contractAddress abi args value overrides = Throw e).
Proof.
  unfold override_details.
  assert (Ha : exists a, JS.JSON_stringify (JString abi) = Return a) by (eexists; reflexivity).
  destruct Ha as [a Ha]. rewrite Ha. cbn [obind].
  split; [|split].
  - intros s o Hs Ho. rewrite Hs. cbn [obind]. rewrite Ho. eexists. reflexivity.
  - intros e He. rewrite He. reflexivity.
  - intros s e Hs He. rewrite Hs. cbn [obind]. rewrite He. reflexivity.
Qed.

Lemma send_details_cases contractAddress abi args value :
  (forall s, JS.JSON_stringify (JArray args) = Return s ->
             exists d, send_details contractAddress abi args value = Return d)
  /\ (forall e, JS.JSON_stringify (JArray args) = Throw e ->
                send_details contractAddress abi args value = Throw e).
Proof.
  unfold send_details.
  assert (Ha : exists a, JS.JSON_stringify (JString abi) = Return a) by (eexists; reflexivity).
  destruct Ha as [a Ha]. rewrite Ha. cbn [obind].
  split; [intros s Hs | intros e He]; [rewrite Hs | rewrite He];
    [eexists|]; reflexivity.
Qed.

(** A [catch] clause that builds the details and hands a schema failure
    to [handleProviderError]: the validation error when the details are
    written, and what writing them throws otherwise. *)
Lemma schema_failure_reported {W A : Type} (details : Outcome Props) context (w : W) :
  let run :=
    match details with
    | Return d =>
        (@handleProviderError A (ThrownZod [{| issue_message := "Invalid" |}]) context
           (Some d), w)
    | Throw e => (Throw e, w)
    end in
  ((exists d, details = Return d) -> refused run w)
  /\ (forall e, details = Throw e -> run = (Throw e, w)).
Proof.
  cbn zeta. split.
  - intros [d ->]. reflexivity.
  - intros e ->. reflexivity.
Qed.

(** The validation of the first malformed address ends the run. *)
Ltac refuse Hbad :=
  unfold refused; run_unfold; run2_unfold;
  unfold rethrow_token, check_request_to, addressSchema_parse_value, addressSchema_parse;
  rewrite ?Hbad;
  repeat (match goal with
          | |- context [address_pattern ?x] => destruct (address_pattern x)
          end; rewrite ?Hbad);
  reflexivity.


(** What queryLogs does with an empty address: no validation, one fetch
    with no address filter. *)
Lemma queryLogs_empty_address :
  exists events,
    queryLogs Stub.providers Stub.env_full Stub.service
              (Some EmptyString) None None None None None initial_world
    = (Return events,
       {| calls := [CallGetLogs {| filter_address := None; filter_topics := None;
                                   filter_fromBlock := None; filter_toBlock := None |}];
          warnings := [] |}).
Proof. eexists. vm_compute. reflexivity. Qed.



